(** * Batch CSV ingestion of the Telegram upload front end ([app.py])

    A shallow embedding of [app.py]: the session log ([add_log]), the
    publisher ([_upload_file_async]), the filename sanitizer (the inline
    code of lines 210-213), the orchestrator ([_run_csv_process_async])
    and the Flask routes with their helpers.

    Conventions of the embedding.
    - A Python [str] is a [string]; its characters are the code points
      below 256, classified as Python classifies them.
    - The overall progress of a batch (line 201) is a Python number: an
      [int], or a [float] that is a double.  A double is carried as the
      rational it is exactly; division and multiplication round to the
      nearest double, ties to even, overflow to an infinity or raise as
      Python does, and [repr] prints the shortest decimal that reads back.
    - The percentages of a single upload (lines 134-140) and of a link
      download are kept as exact quotients ([Q]): their rounding is not
      modelled.
    - pandas, requests, telethon, the clock and the file system are
      outside the program: they are the fields of the class [Externals],
      oracles over an abstract world [W] that every call may change.
    - [pd.read_csv] is called without [index_col]: a parsed table carries
      a label for every row.  The labels are 0, 1, ... (a [RangeIndex])
      when no data row has more fields than the header; otherwise pandas
      takes them from the first fields of the rows, and they are whatever
      those fields hold (integers, floats, booleans, text, tuples).
      [iterrows] yields the rows with these labels. *)

From Stdlib Require Import String Ascii List ZArith QArith Qround Qpower Qabs.
From Stdlib Require Import Bool Lia Lqa DecimalString Sorted.
Import ListNotations.
Local Open Scope string_scope.

(** ** Python built-ins *)

Module Py.

Definition between (lo hi n : N) : bool := ((lo <=? n) && (n <=? hi))%N.

(** [c.isalnum()]: letters and numeric characters, code points 0-255. *)
Definition isalnum (c : ascii) : bool :=
  let n := N_of_ascii c in
  between 48 57 n || between 65 90 n || between 97 122 n
  || (n =? 170)%N || between 178 179 n || (n =? 181)%N
  || between 185 186 n || between 188 190 n
  || between 192 214 n || between 216 246 n || between 248 255 n.

(** [c.isspace()], the characters removed by [str.strip()]. *)
Definition isspace (c : ascii) : bool :=
  let n := N_of_ascii c in
  between 9 13 n || between 28 32 n || (n =? 133)%N || (n =? 160)%N.

(** ["".join(c for c in s if keep(c))] *)
Fixpoint join_if (keep : ascii -> bool) (s : string) : string :=
  match s with
  | EmptyString => EmptyString
  | String c s' => if keep c then String c (join_if keep s') else join_if keep s'
  end.

(** [s.split(sep)] for a one-character separator: never an empty list. *)
Fixpoint split (sep : ascii) (s : string) : list string :=
  match s with
  | EmptyString => [EmptyString]
  | String c s' =>
      if Ascii.eqb c sep then EmptyString :: split sep s'
      else match split sep s' with
           | piece :: rest => String c piece :: rest
           | [] => [String c EmptyString]
           end
  end.

(** [l[-1]] and [l[0]] of a list of strings. *)
Definition item_last (l : list string) : string := last l EmptyString.
Definition item_first (l : list string) : string := hd EmptyString l.

Fixpoint lstrip (s : string) : string :=
  match s with
  | EmptyString => EmptyString
  | String c s' => if isspace c then lstrip s' else s
  end.

Fixpoint rstrip (s : string) : string :=
  match s with
  | EmptyString => EmptyString
  | String c s' =>
      match rstrip s' with
      | EmptyString => if isspace c then EmptyString else String c EmptyString
      | r => String c r
      end
  end.

(** [s.strip()] *)
Definition strip (s : string) : string := rstrip (lstrip s).

(** [str(n)] of an integer. *)
Definition str_int (z : Z) : string := NilZero.string_of_int (Z.to_int z).

(** Truth value of a string: [not s] is [negb (truthy s)]. *)
Definition truthy (s : string) : bool := negb (s =? "").

(** [os.path.basename(p)]: the text after the last ['/']. *)
Definition basename (p : string) : string := item_last (split "/" p).

(** [os.path.join(d, f)], for a relative [f]. *)
Definition path_join (d f : string) : string := d ++ "/" ++ f.

End Py.

(** ** Python numbers *)

(** Rounding to the nearest integer, ties to even, of [x >= 0]. *)
Definition round_half_even (x : Q) : Z :=
  let f := Qfloor x in
  match Qcompare (x - inject_Z f) (1 # 2) with
  | Lt => f
  | Gt => (f + 1)%Z
  | Eq => if Z.even f then f else (f + 1)%Z
  end.

(** [floor(log2 q)] of a positive [q]. *)
Definition ilog2 (q : Q) : Z :=
  let d := (Z.log2 (Qnum q) - Z.log2 (Z.pos (Qden q)))%Z in
  if Qle_bool (2 ^ d) q then d else (d - 1)%Z.

(** The double nearest to a positive [q], ties to even, were the exponent
    unbounded above: 53 significant bits, and below [2 ^ -1022] the
    spacing [2 ^ -1074] of the subnormal numbers. *)
Definition nearest (q : Q) : Q :=
  let e := Z.max (ilog2 q - 52) (-1074) in
  inject_Z (round_half_even (q / 2 ^ e)) * 2 ^ e.

(** The same for any [q], in lowest terms. *)
Definition double (q : Q) : Q :=
  match Qcompare q 0 with
  | Eq => 0
  | Gt => Qred (nearest (Qred q))
  | Lt => Qred (- nearest (Qred (- q)))
  end.

(** A [float]: a double carried as the rational it is exactly ([Finite 0]
    is 0.0), the negative zero, an infinity or a NaN. *)
Inductive pyfloat : Type :=
| Finite (q : Q)
| NegZero
| Infinity (negative : bool)
| NaN.

Definition is_negative (q : Q) : bool := negb (Qle_bool 0 q).

(** The float for the exact result [q] of an operation: [q] rounded, an
    infinity when the rounded value does not fit a double, a zero of the
    sign of [q] when it vanishes ([zero_is_negative] is the sign of an
    exact zero). *)
Definition to_float (q : Q) (zero_is_negative : bool) : pyfloat :=
  let r := double q in
  let negative := if Qeq_bool q 0 then zero_is_negative else is_negative q in
  if Qle_bool (2 ^ 1024) (Qabs r) then Infinity negative
  else if Qeq_bool r 0 && negative then NegZero
  else Finite r.

(** An [int] or a [float]. *)
Inductive number : Type :=
| NInt (z : Z)
| NFloat (x : pyfloat).

(** *** [repr] of a float *)

(** [floor(log10 x)] of a positive [x]. *)
Definition ilog10 (x : Q) : Z :=
  let g := (ilog2 x * 30103 / 100000)%Z in
  if Qle_bool (10 ^ (g + 2)) x then (g + 2)%Z
  else if Qle_bool (10 ^ (g + 1)) x then (g + 1)%Z
  else if Qle_bool (10 ^ g) x then g
  else (g - 1)%Z.

(** The decimals of [p] digits next to the positive double [x], as
    [digits * 10 ^ s]: the one that reads back as [x], the nearer one when
    both do. *)
Definition decimal_of (x : Q) (p : Z) : option (Z * Z) :=
  let s := (ilog10 x - p + 1)%Z in
  let lo := Qfloor (x / 10 ^ s) in
  let hi := (lo + 1)%Z in
  let below := inject_Z lo * 10 ^ s in
  let above := inject_Z hi * 10 ^ s in
  match Qeq_bool (double below) x, Qeq_bool (double above) x with
  | true, true =>
      match Qcompare (x - below) (above - x) with
      | Lt => Some (lo, s)
      | Gt => Some (hi, s)
      | Eq => Some (if Z.even lo then lo else hi, s)
      end
  | true, false => Some (lo, s)
  | false, true => Some (hi, s)
  | false, false => None
  end.

(** The shortest decimal that reads back as [x], tried from [p] digits
    on; 17 digits always do. *)
Fixpoint shortest_decimal (x : Q) (p : Z) (more : nat) : Z * Z :=
  match decimal_of x p, more with
  | Some d, _ => d
  | None, S more' => shortest_decimal x (p + 1) more'
  | None, O => (Qfloor (x / 10 ^ (ilog10 x - 16)), (ilog10 x - 16)%Z)
  end.

Fixpoint rstrip_zeros (s : string) : string :=
  match s with
  | EmptyString => EmptyString
  | String c s' =>
      match rstrip_zeros s' with
      | EmptyString => if Ascii.eqb c "0" then EmptyString else String c EmptyString
      | r => String c r
      end
  end.

Fixpoint zeros (n : nat) : string :=
  match n with
  | O => EmptyString
  | S n' => String "0" (zeros n')
  end.

(** [repr(x)] of a positive double: the digits of the shortest decimal,
    with an exponent when the decimal point would be more than 16 places
    right or 3 places left of the first digit. *)
Definition repr_positive (x : Q) : string :=
  let (d, s) := shortest_decimal x 1 16 in
  let all := Py.str_int d in
  let decpt := (Z.of_nat (String.length all) + s)%Z in
  let digits := rstrip_zeros all in
  let nd := Z.of_nat (String.length digits) in
  if ((-4 <? decpt) && (decpt <=? 16))%Z then
    if (decpt <=? 0)%Z then "0." ++ zeros (Z.to_nat (- decpt)) ++ digits
    else if (nd <=? decpt)%Z then digits ++ zeros (Z.to_nat (decpt - nd)) ++ ".0"
    else substring 0 (Z.to_nat decpt) digits ++ "."
         ++ substring (Z.to_nat decpt) (Z.to_nat (nd - decpt)) digits
  else
    let exponent := (decpt - 1)%Z in
    substring 0 1 digits
    ++ (if (1 <? nd)%Z then "." ++ substring 1 (Z.to_nat (nd - 1)) digits else "")
    ++ "e" ++ (if (exponent <? 0)%Z then "-" else "+")
    ++ (if (Z.abs exponent <? 10)%Z then "0" else "") ++ Py.str_int (Z.abs exponent).

(** [str(x)] and [repr(x)] of a float. *)
Definition float_repr (x : pyfloat) : string :=
  match x with
  | Finite q =>
      if Qeq_bool q 0 then "0.0"
      else if is_negative q then "-" ++ repr_positive (- q)
      else repr_positive q
  | NegZero => "-0.0"
  | Infinity false => "inf"
  | Infinity true => "-inf"
  | NaN => "nan"
  end.

(** [str(n)] of a number. *)
Definition str_number (n : number) : string :=
  match n with
  | NInt z => Py.str_int z
  | NFloat x => float_repr x
  end.

(** ** Row labels *)

(** The label [iterrows] yields with a row: a Python scalar, or a tuple
    when the table has several index levels (a tuple is carried with its
    [str]). *)
Inductive label : Type :=
| LInt (z : Z)
| LFloat (x : pyfloat)
| LBool (b : bool)
| LStr (s : string)
| LTuple (shown : string).

(** [str(index)], what an f-string puts for [{index}]. *)
Definition str_label (index : label) : string :=
  match index with
  | LInt z => Py.str_int z
  | LFloat x => float_repr x
  | LBool true => "True"
  | LBool false => "False"
  | LStr s => s
  | LTuple shown => shown
  end.

(** ** The filename sanitizer (lines 210-213) *)

Definition DOWNLOAD_FOLDER_UI : string := "downloads_colab_ui_async".

(** The test [c.isalnum() or c in ('.', '_', '-')] of line 211. *)
Definition kept (c : ascii) : bool :=
  Py.isalnum c || Ascii.eqb c "." || Ascii.eqb c "_" || Ascii.eqb c "-".

(** Lines 210-211: the last path segment, without its query string,
    filtered and trimmed. *)
Definition url_file_part (url_from_row : string) : string :=
  Py.item_first (Py.split "?" (Py.item_last (Py.split "/" url_from_row))).

Definition cleaned_name (url_from_row : string) : string :=
  Py.strip (Py.join_if kept (url_file_part url_from_row)).

(** Line 213: [f"csv_dl_{int(time.time())}_{index}"]. *)
Definition fallback_name (now : Z) (index : label) : string :=
  "csv_dl_" ++ Py.str_int now ++ "_" ++ str_label index.

(** Lines 210-213 as a function of the URL, of the row label [index] and
    of the clock reading [now] that the fallback would use. *)
Definition filename_from_csv_url (now : Z) (index : label) (url_from_row : string)
  : string :=
  let name := cleaned_name url_from_row in
  if Py.truthy name then name else fallback_name now index.

(** Every character of [s] satisfies [p]. *)
Fixpoint all_chars (p : ascii -> bool) (s : string) : bool :=
  match s with
  | EmptyString => true
  | String c s' => p c && all_chars p s'
  end.

(** ** Data: exceptions, table cells, the parsed table *)

(** The exception classes the handlers of [app.py] tell apart. *)
Inductive exn_class : Type :=
| RequestException            (* requests.exceptions.RequestException and its subclasses *)
| EmptyDataError              (* pandas.errors.EmptyDataError *)
| MediaEmptyError
| UserNotParticipantError
| FloodWaitError (seconds : Z)
| OtherException.             (* any other subclass of Exception *)

Record exn : Type := mkExn {
  exn_kind : exn_class;
  exn_type_name : string;     (* type(e).__name__ *)
  exn_str : string            (* str(e) *)
}.

Definition is_request_exception (e : exn) : bool :=
  match exn_kind e with RequestException => true | _ => false end.

(** A cell of a row [Series]: text, a number, a boolean or a missing value
    (NaN).  A finite float is carried with its [repr]. *)
Inductive cell : Type :=
| CStr (s : string)
| CInt (z : Z)
| CFloat (repr : string)
| CBool (b : bool)
| CNaN.

(** [str(v)] of a cell. *)
Definition str_cell (v : cell) : string :=
  match v with
  | CStr s => s
  | CInt z => Py.str_int z
  | CFloat r => r
  | CBool true => "True"
  | CBool false => "False"
  | CNaN => "nan"
  end.

(** The parsed table: the header, and the rows with their labels. *)
Record DataFrame : Type := mkFrame {
  columns : list string;
  rows : list (label * list cell)
}.

(** ['link' in dataframe.columns] *)
Definition has_column (name : string) (df : DataFrame) : bool :=
  existsb (String.eqb name) (columns df).

(** [len(dataframe)] *)
Definition len (df : DataFrame) : Z := Z.of_nat (length (rows df)).

(** [dataframe.iterrows()]: the rows with their labels. *)
Definition iterrows (df : DataFrame) : list (label * list cell) := rows df.

(** The labels pandas gives when no data row has more fields than the
    header: the positions 0, 1, ... *)
Fixpoint labelled_from (index : Z) (rs : list (list cell)) : list (label * list cell) :=
  match rs with
  | [] => []
  | r :: rs' => (LInt index, r) :: labelled_from (index + 1) rs'
  end.

Definition default_labels (rs : list (list cell)) : list (label * list cell) :=
  labelled_from 0 rs.

Definition has_default_labels (df : DataFrame) : Prop :=
  rows df = default_labels (map snd (rows df)).

(** Position of a column name in the header. *)
Fixpoint column_index (name : string) (cols : list string) : option nat :=
  match cols with
  | [] => None
  | c :: cols' =>
      if String.eqb name c then Some O
      else option_map S (column_index name cols')
  end.

(** [row_data.get(name)]: [None] when the table has no such column. *)
Definition series_get (cols : list string) (row_data : list cell) (name : string)
  : option cell :=
  match column_index name cols with
  | Some j => Some (nth j row_data CNaN)
  | None => None
  end.

(** Line 205: the [link] cell is a string that is not blank. *)
Definition link_of (cols : list string) (row_data : list cell) : option string :=
  match series_get cols row_data "link" with
  | Some (CStr url_from_row) =>
      if Py.truthy (Py.strip url_from_row) then Some url_from_row else None
  | _ => None
  end.

(** Line 226: [str(row_data.get('caption', ''))]. *)
Definition caption_csv (cols : list string) (row_data : list cell) : string :=
  str_cell (match series_get cols row_data "caption" with
            | Some v => v
            | None => CStr ""
            end).

(** *** Lines 200-201: arithmetic on the row label *)

Definition quote : string := String "034" EmptyString.

Definition type_error (type_name : string) : exn :=
  mkExn OtherException "TypeError"
    ("can only concatenate " ++ type_name ++ " (not " ++ quote ++ "int" ++ quote
       ++ ") to " ++ type_name).

Definition overflow_error (message : string) : exn :=
  mkExn OtherException "OverflowError" message.

Definition zero_division_error (message : string) : exn :=
  mkExn OtherException "ZeroDivisionError" message.

(** [x + 1] of a float. *)
Definition float_plus_1 (x : pyfloat) : pyfloat :=
  match x with
  | Finite q => to_float (q + 1) false
  | NegZero => Finite 1
  | Infinity negative => Infinity negative
  | NaN => NaN
  end.

(** Line 200: [index + 1].  A boolean counts as 0 or 1; text and tuples
    cannot be added to an [int]. *)
Definition index_plus_1 (index : label) : exn + number :=
  match index with
  | LInt z => inr (NInt (z + 1))
  | LFloat x => inr (NFloat (float_plus_1 x))
  | LBool b => inr (NInt (if b then 2 else 1))
  | LStr _ => inl (type_error "str")
  | LTuple _ => inl (type_error "tuple")
  end.

(** [float(n)] of an [int], as the operand of a float operation. *)
Definition float_of_int (n : Z) : exn + Q :=
  let r := double (inject_Z n) in
  if Qle_bool (2 ^ 1024) (Qabs r)
  then inl (overflow_error "int too large to convert to float")
  else inr r.

(** [x / d] of a float by a double [d] that is not zero. *)
Definition float_div (x : pyfloat) (d : Q) : pyfloat :=
  match x with
  | Finite q => to_float (q / d) (xorb (is_negative q) (is_negative d))
  | NegZero => if is_negative d then Finite 0 else NegZero
  | Infinity negative => Infinity (xorb negative (is_negative d))
  | NaN => NaN
  end.

(** [a / b] for an [int] [b]: the quotient of two [int]s is rounded once;
    a float is divided by [float(b)]. *)
Definition true_divide (a : number) (b : Z) : exn + pyfloat :=
  match a with
  | NInt z =>
      if (b =? 0)%Z then inl (zero_division_error "division by zero")
      else
        match to_float (inject_Z z / inject_Z b) (xorb (z <? 0)%Z (b <? 0)%Z) with
        | Infinity _ =>
            inl (overflow_error "integer division result too large for a float")
        | x => inr x
        end
  | NFloat x =>
      match float_of_int b with
      | inl e => inl e
      | inr d =>
          if Qeq_bool d 0 then inl (zero_division_error "float division by zero")
          else inr (float_div x d)
      end
  end.

(** [x * 100] of a float: it overflows to an infinity. *)
Definition float_times_100 (x : pyfloat) : pyfloat :=
  match x with
  | Finite q => to_float (q * 100) (is_negative q)
  | NegZero => NegZero
  | Infinity negative => Infinity negative
  | NaN => NaN
  end.

(** Line 201: [(item_num / total_csv_items) * 100]. *)
Definition item_progress (item_num : number) (total_csv_items : Z) : exn + number :=
  match true_divide item_num total_csv_items with
  | inl e => inl e
  | inr x => inr (NFloat (float_times_100 x))
  end.

(** Lines 200-201 before the assignment: the item number and the
    progress of the row labelled [index], or the exception raised. *)
Definition item_start (total_csv_items : Z) (index : label) : exn + (number * number) :=
  match index_plus_1 index with
  | inl e => inl e
  | inr item_num =>
      match item_progress item_num total_csv_items with
      | inl e => inl e
      | inr p => inr (item_num, p)
      end
  end.

(** ** The outside world *)

Definition bytes : Type := list Byte.byte.

(** What [requests.get(url, stream=True, timeout=60)] gives: an exception,
    or a response whose body arrives in [chunks] and may break off. *)
Inductive http_reply : Type :=
| GetRaised (e : exn)
| GetResponse (status_code : Z) (reason : string) (url : string)
              (chunks : list bytes) (broken : option exn).

(** What [telethon_client.send_file] does: it calls the progress callback
    with these [(current, total)] pairs, then returns or raises. *)
Record send_reply : Type := mkSend {
  progress_calls : list (Z * Z);
  raised : option exn
}.

Class Externals (W : Type) : Type := {
  strftime : W -> string * W;          (* time.strftime("%Y-%m-%d %H:%M:%S") *)
  time_time : W -> Z * W;              (* int(time.time()) *)
  read_csv : bytes -> exn + DataFrame; (* pd.read_csv(BytesIO(b), delimiter=';') *)
  is_connected : W -> bool;            (* telethon_client.is_connected() *)
  requests_get : string -> W -> http_reply * W;
  open_wb : string -> W -> option exn * W;        (* open(path, 'wb') *)
  file_write : string -> bytes -> W -> option exn * W;
  send_file : string -> string -> W -> send_reply * W
}.

(** [response.raise_for_status()] *)
Definition raise_for_status (status_code : Z) (reason url : string) : option exn :=
  if ((400 <=? status_code) && (status_code <? 500))%Z then
    Some (mkExn RequestException "HTTPError"
            (Py.str_int status_code ++ " Client Error: " ++ reason ++ " for url: " ++ url))
  else if ((500 <=? status_code) && (status_code <? 600))%Z then
    Some (mkExn RequestException "HTTPError"
            (Py.str_int status_code ++ " Server Error: " ++ reason ++ " for url: " ++ url))
  else None.

(** ** Program state *)

(** The keys of the Flask [session] that the pipeline uses; [None] is an
    absent key. *)
Record Session : Type := mkSession {
  logs : option (list string);
  session_active : option bool;
  upload_progress : option Q;
  csv_overall_progress : option number;
  csv_current_item_progress : option Q;
  modified : bool
}.

(** The trace of a run: the assignments to the overall progress and the
    calls to the outside world, in program order. *)
Inductive Event : Type :=
| SetOverall (p : number)                  (* session['csv_overall_progress'] = p *)
| HttpGet (url : string)                   (* requests.get(url, ...) *)
| FileOpen (path : string)                 (* open(path, 'wb') *)
| FileWrite (path : string) (chunk : bytes)
| SendFile (path caption : string).        (* send_file('me', path, caption=...) *)

Inductive TelegramClient : Type := Client.

Record State (W : Type) : Type := mkState {
  session : Session;
  flashes : list (string * string);        (* flash(message, category), oldest first *)
  telethon_client : option TelegramClient; (* the module global *)
  world : W;
  trace : list Event
}.
Arguments mkState {W}.
Arguments session {W}.
Arguments flashes {W}.
Arguments telethon_client {W}.
Arguments world {W}.
Arguments trace {W}.

(** The state monad of the program. *)
Definition M (W A : Type) : Type := State W -> A * State W.

Definition ret {W A} (a : A) : M W A := fun st => (a, st).

Definition bind {W A B} (m : M W A) (f : A -> M W B) : M W B :=
  fun st => let (a, st') := m st in f a st'.

Notation "x <- m ;; k" := (bind m (fun x => k))
  (at level 61, m at next level, right associativity).
Notation "m ;; k" := (bind m (fun _ => k))
  (at level 61, right associativity).

(** ** The program *)

Section Program.

Context {W : Type} {ext : Externals W}.

(** *** State primitives *)

Definition upd_session (f : Session -> Session) : M W unit :=
  fun st => (tt, mkState (f (session st)) (flashes st) (telethon_client st)
                   (world st) (trace st)).

(** An effect outside the session is recorded in the trace. *)
Definition emit (e : Event) : M W unit :=
  fun st => (tt, mkState (session st) (flashes st) (telethon_client st)
                   (world st) (trace st ++ [e])%list).

(** A call to the outside world. *)
Definition ask {A} (call : W -> A * W) : M W A :=
  fun st => let (a, w) := call (world st) in
            (a, mkState (session st) (flashes st) (telethon_client st) w (trace st)).

(** [flash(message, category)] *)
Definition flash (message category : string) : M W unit :=
  fun st => (tt, mkState (session st) (flashes st ++ [(category, message)])%list
                   (telethon_client st) (world st) (trace st)).

(** Assignments [session[key] = value]; Flask marks the session modified. *)
Definition assign_logs (l : list string) (s : Session) : Session :=
  mkSession (Some l) (session_active s) (upload_progress s)
    (csv_overall_progress s) (csv_current_item_progress s) true.

Definition assign_upload_progress (p : Q) (s : Session) : Session :=
  mkSession (logs s) (session_active s) (Some p)
    (csv_overall_progress s) (csv_current_item_progress s) true.

Definition assign_csv_overall_progress (p : number) (s : Session) : Session :=
  mkSession (logs s) (session_active s) (upload_progress s)
    (Some p) (csv_current_item_progress s) true.

Definition assign_csv_current_item_progress (p : Q) (s : Session) : Session :=
  mkSession (logs s) (session_active s) (upload_progress s)
    (csv_overall_progress s) (Some p) true.

(** [session.modified = True] *)
Definition assign_modified (s : Session) : Session :=
  mkSession (logs s) (session_active s) (upload_progress s)
    (csv_overall_progress s) (csv_current_item_progress s) true.

(** [session['logs']], once the key exists. *)
Definition logs_list (s : Session) : list string :=
  match logs s with Some l => l | None => [] end.

(** *** [add_log] (lines 33-40) *)

Definition log_line (timestamp message : string) : string :=
  "[" ++ timestamp ++ "] " ++ message.

(** Lines 36-40 on the session. *)
Definition session_add_log (log_entry : string) (s : Session) : Session :=
  let s1 := match logs s with
            | None => assign_logs [] s             (* if 'logs' not in session *)
            | Some _ => s
            end in
  let s2 := assign_logs (log_entry :: logs_list s1) s1 in   (* insert(0, log_entry) *)
  let s3 := assign_logs (firstn 100 (logs_list s2)) s2 in   (* [:100] *)
  assign_modified s3.

Definition add_log (message : string) : M W unit :=
  timestamp <- ask strftime ;;
  upd_session (session_add_log (log_line timestamp message)).

(** *** [_upload_file_async] (lines 125-162) *)

(** [session.get('session_active') and telethon_client and
    telethon_client.is_connected()], as a truth value. *)
Definition client_ready (st : State W) : bool :=
  match session_active (session st) with
  | Some true =>
      match telethon_client st with
      | Some Client => is_connected (world st)
      | None => false
      end
  | _ => false
  end.

(** [int(x)] of a float: truncation toward zero. *)
Definition int_of (x : Q) : Z :=
  if Qle_bool 0 x then Qfloor x else Qceiling x.

(** [f"{x:.0f}"] *)
Definition format_0f (x : Q) : string :=
  if Qle_bool 0 x then Py.str_int (round_half_even x)
  else "-" ++ Py.str_int (round_half_even (- x)).

(** Lines 134-140. *)
Definition progress_callback_sync (filepath : string) (current total : Z) : M W unit :=
  if (0 <? total)%Z then
    let percent := (inject_Z current / inject_Z total) * 100 in
    upd_session (assign_upload_progress percent) ;;
    (if ((int_of percent mod 20 =? 0) && (int_of percent <? 100))%Z
     then add_log ("Upload progress: " ++ format_0f percent ++ "% for "
                     ++ Py.basename filepath)
     else ret tt) ;;
    upd_session assign_modified
  else ret tt.

Fixpoint run_callbacks (filepath : string) (calls : list (Z * Z)) : M W unit :=
  match calls with
  | [] => ret tt
  | (current, total) :: calls' =>
      progress_callback_sync filepath current total ;;
      run_callbacks filepath calls'
  end.

(** The handlers of lines 149-160. *)
Definition upload_failed (filepath : string) (e : exn) : M W unit :=
  match exn_kind e with
  | MediaEmptyError =>
      add_log ("Upload Error (Telegram): File '" ++ Py.basename filepath ++ "' is empty.") ;;
      flash ("Upload Error: File '" ++ Py.basename filepath ++ "' is empty.") "danger"
  | UserNotParticipantError =>
      add_log "Upload Error (Telegram): UserNotParticipantError." ;;
      flash "Upload Error: UserNotParticipantError." "danger"
  | FloodWaitError seconds =>
      add_log ("Upload Error (Telegram Flood Wait): " ++ Py.str_int seconds ++ "s") ;;
      flash ("Upload Error (Telegram Flood Wait): Please wait "
               ++ Py.str_int seconds ++ "s.") "warning"
  | _ =>
      add_log ("Async Upload failed: " ++ exn_type_name e ++ " - " ++ exn_str e) ;;
      flash ("Upload failed: " ++ exn_str e) "danger"
  end.

Definition _upload_file_async (filepath caption : string) : M W bool :=
  fun st =>
    if negb (client_ready st) then
      (add_log "Upload Error: Not connected." ;;
       flash "Upload Error: Not connected." "danger" ;;
       ret false) st
    else
      (upd_session (assign_upload_progress 0) ;;
       upd_session assign_modified ;;
       add_log ("Async Upload: Starting '" ++ Py.basename filepath
                  ++ "' to Saved Messages...") ;;
       emit (SendFile filepath caption) ;;
       reply <- ask (send_file filepath caption) ;;
       run_callbacks filepath (progress_calls reply) ;;
       match raised reply with
       | None =>
           add_log ("Async Upload: Completed: " ++ Py.basename filepath) ;;
           upd_session (assign_upload_progress 100) ;;
           flash ("Successfully uploaded " ++ Py.basename filepath) "success" ;;
           ret true
       | Some e =>
           upload_failed filepath e ;;
           upd_session (assign_upload_progress (-1)) ;;
           ret false
       end) st.

(** *** [_run_csv_process_async] (lines 165-254) *)

(** [session['csv_overall_progress'] = p] *)
Definition set_overall (p : number) : M W unit :=
  upd_session (assign_csv_overall_progress p) ;;
  emit (SetOverall p).

(** Line 222: the loop over [response.iter_content], empty chunks are
    passed over. *)
Fixpoint write_chunks (path : string) (chunks : list bytes) : M W (option exn) :=
  match chunks with
  | [] => ret None
  | chunk :: chunks' =>
      match chunk with
      | [] => write_chunks path chunks'
      | _ =>
          emit (FileWrite path chunk) ;;
          r <- ask (file_write path chunk) ;;
          match r with
          | Some e => ret (Some e)
          | None => write_chunks path chunks'
          end
      end
  end.

(** Lines 218-222: the exception that leaves the block, if any. *)
Definition download (url_from_row dl_item_path : string) : M W (option exn) :=
  emit (HttpGet url_from_row) ;;
  response <- ask (requests_get url_from_row) ;;
  match response with
  | GetRaised e => ret (Some e)
  | GetResponse status_code reason url chunks broken =>
      match raise_for_status status_code reason url with
      | Some e => ret (Some e)
      | None =>
          emit (FileOpen dl_item_path) ;;
          opened <- ask (open_wb dl_item_path) ;;
          match opened with
          | Some e => ret (Some e)
          | None =>
              written <- write_chunks dl_item_path chunks ;;
              match written with
              | Some e => ret (Some e)
              | None => ret broken
              end
          end
      end
  end.

(** Lines 210-213: the clock is read only for the fallback name. *)
Definition choose_filename (index : label) (url_from_row : string) : M W string :=
  let name := cleaned_name url_from_row in
  if Py.truthy name then ret name
  else now <- ask time_time ;; ret (fallback_name now index).

Definition item_tag (item_num : number) : string := "CSV Item " ++ str_number item_num.

(** Lines 223-232: what follows a download that raised nothing. *)
Definition after_download (cols : list string) (is_client_ready : bool)
    (successful_uploads : Z) (item_num : number) (row_data : list cell)
    (filename_from_csv_url dl_item_path : string) : M W Z :=
  add_log (item_tag item_num ++ ": Downloaded '" ++ filename_from_csv_url ++ "'.") ;;
  if is_client_ready then
    add_log (item_tag item_num ++ ": Attempting upload of '"
               ++ filename_from_csv_url ++ "'...") ;;
    upload_ok <- _upload_file_async dl_item_path (caption_csv cols row_data) ;;
    ret (if upload_ok : bool then (successful_uploads + 1)%Z else successful_uploads)
  else
    add_log (item_tag item_num ++ ": Skipped upload for '" ++ filename_from_csv_url
               ++ "' (not connected to Telegram).") ;;
    ret successful_uploads.

(** Lines 234-239: the two handlers of the item's [try]. *)
Definition item_failed (item_num : number) (url_from_row : string) (e : exn) : M W unit :=
  if is_request_exception e then
    add_log (item_tag item_num ++ ": Download failed for '" ++ url_from_row
               ++ "' - " ++ exn_str e) ;;
    flash (item_tag item_num ++ " Download failed: " ++ exn_str e) "warning"
  else
    add_log (item_tag item_num ++ ": Error processing '" ++ url_from_row
               ++ "' - " ++ exn_str e) ;;
    flash (item_tag item_num ++ " Error: " ++ exn_str e) "warning".

(** Lines 209-217: the file name is chosen and the download announced. *)
Definition announce_download (total_csv_items : Z) (index : label) (item_num : number)
    (url_from_row : string) : M W string :=
  add_log (item_tag item_num ++ "/" ++ Py.str_int total_csv_items
             ++ ": Processing URL '" ++ url_from_row ++ "'") ;;
  filename_from_csv_url <- choose_filename index url_from_row ;;
  add_log (item_tag item_num ++ ": Downloading '" ++ filename_from_csv_url ++ "'...") ;;
  ret filename_from_csv_url.

(** Lines 209-239: a row with a usable link. *)
Definition process_url (cols : list string) (total_csv_items : Z)
    (is_client_ready : bool) (successful_uploads : Z) (index : label)
    (item_num : number) (row_data : list cell) (url_from_row : string) : M W Z :=
  filename_from_csv_url <- announce_download total_csv_items index item_num
                             url_from_row ;;
  let dl_item_path := Py.path_join DOWNLOAD_FOLDER_UI filename_from_csv_url in
  failure <- download url_from_row dl_item_path ;;
  match failure with
  | None =>
      after_download cols is_client_ready successful_uploads item_num row_data
        filename_from_csv_url dl_item_path
  | Some e =>
      item_failed item_num url_from_row e ;;
      ret successful_uploads
  end.

(** Lines 201-239, once [item_num] and the progress [p] of the row are
    computed: the assignment of line 201 and what follows it.  Nothing
    here raises past the handlers of lines 234-239. *)
Definition csv_item_body (cols : list string) (total_csv_items : Z)
    (is_client_ready : bool) (successful_uploads : Z) (index : label)
    (item_num p : number) (row_data : list cell) : M W Z :=
  set_overall p ;;
  upd_session assign_modified ;;
  match link_of cols row_data with
  | None =>
      add_log (item_tag item_num ++ "/" ++ Py.str_int total_csv_items
                 ++ ": Skipped (empty or invalid URL in 'link' column).") ;;
      ret successful_uploads
  | Some url_from_row =>
      process_url cols total_csv_items is_client_ready successful_uploads index
        item_num row_data url_from_row
  end.

(** Lines 200-239: the body of the loop.  It returns [successful_uploads],
    or the exception that lines 200-201 raise: they stand outside the
    [try] of line 216. *)
Definition csv_item (cols : list string) (total_csv_items : Z)
    (is_client_ready : bool) (successful_uploads : Z) (index : label)
    (row_data : list cell) : M W (exn + Z) :=
  match item_start total_csv_items index with
  | inl e => ret (inl e)
  | inr (item_num, p) =>
      n <- csv_item_body cols total_csv_items is_client_ready successful_uploads
             index item_num p row_data ;;
      ret (inr n)
  end.

(** Line 199: the loop over [dataframe.iterrows()]; an exception ends it. *)
Fixpoint csv_loop (cols : list string) (total_csv_items : Z)
    (is_client_ready : bool) (items : list (label * list cell))
    (successful_uploads : Z) : M W (exn + Z) :=
  match items with
  | [] => ret (inr successful_uploads)
  | (index, row_data) :: items' =>
      r <- csv_item cols total_csv_items is_client_ready successful_uploads
             index row_data ;;
      match r with
      | inl e => ret (inl e)
      | inr n => csv_loop cols total_csv_items is_client_ready items' n
      end
  end.

(** Lines 241-244: the loop has ended. *)
Definition completed (total_csv_items successful_uploads : Z) : M W bool :=
  add_log ("CSV processing completed. " ++ Py.str_int successful_uploads ++ " of "
             ++ Py.str_int total_csv_items ++ " items processed for potential upload.") ;;
  flash ("CSV processing completed. " ++ Py.str_int successful_uploads ++ "/"
           ++ Py.str_int total_csv_items ++ " items successfully uploaded (if connected).")
    "success" ;;
  set_overall (NInt 100) ;;
  ret true.

(** Lines 246-254: the handlers of the outer [try], and what follows
    them. *)
Definition fatal (e_csv_main : exn) : M W bool :=
  match exn_kind e_csv_main with
  | EmptyDataError =>
      add_log "CSV Error: File empty/invalid (pandas EmptyDataError)." ;;
      flash "CSV Error: File empty or invalid." "danger"
  | _ =>
      add_log ("CSV processing failed: " ++ exn_str e_csv_main) ;;
      flash ("CSV processing failed: " ++ exn_str e_csv_main) "danger"
  end ;;
  set_overall (NInt (-1)) ;;
  ret false.

(** Lines 196-254: a table with a [link] column and at least one row. *)
Definition process_rows (is_client_ready : bool) (dataframe : DataFrame) : M W bool :=
  let total_csv_items := len dataframe in
  add_log ("Starting CSV processing for " ++ Py.str_int total_csv_items ++ " items...") ;;
  r <- csv_loop (columns dataframe) total_csv_items is_client_ready
         (iterrows dataframe) 0%Z ;;
  match r with
  | inl e_csv_main => fatal e_csv_main
  | inr successful_uploads => completed total_csv_items successful_uploads
  end.

(** Lines 167-169. *)
Definition announce_mode (is_client_ready : bool) : M W unit :=
  if negb is_client_ready then
    add_log "CSV Info: Not connected to Telegram. Files will only be downloaded." ;;
    flash "Not connected to Telegram. Files will only be downloaded." "info"
  else ret tt.

(** Lines 171-173. *)
Definition reset_progress : M W unit :=
  set_overall (NInt 0) ;;
  upd_session (assign_csv_current_item_progress 0) ;;
  upd_session assign_modified.

(** Lines 178-182: [pd.read_csv] raised. *)
Definition parse_failed (e_parse : exn) : M W bool :=
  add_log ("CSV Parsing Error: Could not parse CSV. Check format/delimiter. Details: "
             ++ exn_str e_parse) ;;
  flash ("CSV Parsing Error: " ++ exn_str e_parse) "danger" ;;
  set_overall (NInt (-1)) ;;
  ret false.

(** Lines 184-188: the table has no [link] column. *)
Definition missing_link : M W bool :=
  add_log "CSV Error: CSV file must contain a 'link' column (lowercase)." ;;
  flash "CSV Error: CSV file must contain a 'link' column." "danger" ;;
  set_overall (NInt (-1)) ;;
  ret false.

(** Lines 190-194: the table has no row. *)
Definition empty_table : M W bool :=
  add_log "CSV Info: The CSV file is empty (no data rows)." ;;
  flash "CSV Info: File is empty." "info" ;;
  ret true.

(** The whole function.  The exceptions of [pd.read_csv] are caught by
    the handler of line 178, those of an item's download and upload by
    the handlers of lines 234-239; what reaches the handlers of lines
    246-251 is an exception of lines 200-201. *)
Definition _run_csv_process_async (csv_file_bytes : bytes) : M W bool :=
  fun st =>
    let is_client_ready := client_ready st in
    (announce_mode is_client_ready ;;
     reset_progress ;;
     match read_csv csv_file_bytes with
     | inl e_parse => parse_failed e_parse
     | inr dataframe =>
         if negb (has_column "link" dataframe) then missing_link
         else if (len dataframe =? 0)%Z then empty_table
         else process_rows is_client_ready dataframe
     end) st.

End Program.

Arguments bind : simpl never.
Arguments emit : simpl never.
Arguments ask : simpl never.
Arguments upd_session : simpl never.
Arguments flash : simpl never.
Arguments add_log : simpl never.
Arguments set_overall : simpl never.
Arguments log_line : simpl never.

(** ** Observations of a run *)

Section Observations.

Context {W : Type} {ext : Externals W}.

(** The computation leaves the observation [obs] of the state alone. *)
Definition preserves {A X} (obs : State W -> X) (m : M W A) : Prop :=
  forall st, obs (snd (m st)) = obs st.

(** The events of one kind, picked out of a trace. *)
Definition select {X} (pick : Event -> list X) (st : State W) : list X :=
  flat_map pick (trace st).

Definition blind_to_files {X} (pick : Event -> list X) : Prop :=
  (forall path, pick (FileOpen path) = []) /\
  (forall path chunk, pick (FileWrite path chunk) = []).

Definition blind_to_sends {X} (pick : Event -> list X) : Prop :=
  forall path caption, pick (SendFile path caption) = [].

(** The upload of an item leaves no event of the kind [pick] when the
    run is offline or when [pick] does not look at uploads. *)
Definition mute_sends {X} (pick : Event -> list X) (is_client_ready : bool) : Prop :=
  is_client_ready = false \/ blind_to_sends pick.

(** The events of the kind [pick] that a row leaves once its progress [p]
    is computed. *)
Definition item_events {X} (pick : Event -> list X) (cols : list string)
    (p : number) (row_data : list cell) : list X :=
  (pick (SetOverall p)
   ++ match link_of cols row_data with
      | Some url => pick (HttpGet url)
      | None => []
      end)%list.

(** The events of the kind [pick] of the loop: those of the rows up to
    the first one whose label makes lines 200-201 raise. *)
Fixpoint rows_events {X} (pick : Event -> list X) (cols : list string)
    (total : Z) (items : list (label * list cell)) : list X :=
  match items with
  | [] => []
  | (index, row_data) :: items' =>
      match item_start total index with
      | inl _ => []
      | inr (_, p) =>
          (item_events pick cols p row_data ++ rows_events pick cols total items')%list
      end
  end.

(** The exception that ends the loop, if any. *)
Fixpoint first_fault (total : Z) (items : list (label * list cell)) : option exn :=
  match items with
  | [] => None
  | (index, _) :: items' =>
      match item_start total index with
      | inl e => Some e
      | inr _ => first_fault total items'
      end
  end.

(** The events of the loop and of what ends the run: the assignment of
    100, or of -1 when an exception ended the loop. *)
Definition loop_events {X} (pick : Event -> list X) (cols : list string)
    (total : Z) (items : list (label * list cell)) : list X :=
  (rows_events pick cols total items
   ++ pick (SetOverall (NInt match first_fault total items with
                             | None => 100
                             | Some _ => -1
                             end)))%list.

(** The events of the kind [pick] that a run leaves, by what [pd.read_csv]
    returned. *)
Definition run_events {X} (pick : Event -> list X) (parsed : exn + DataFrame)
  : list X :=
  (pick (SetOverall (NInt 0))
   ++ match parsed with
      | inl _ => pick (SetOverall (NInt (-1)))
      | inr df =>
          if negb (has_column "link" df) then pick (SetOverall (NInt (-1)))
          else if (len df =? 0)%Z then []
          else loop_events pick (columns df) (len df) (iterrows df)
      end)%list.

(** Lines 167-169: the notice of a run without a session. *)
Definition mode_notice (is_client_ready : bool) : list (string * string) :=
  if is_client_ready then []
  else [("info", "Not connected to Telegram. Files will only be downloaded.")].

Definition overall (st : State W) : option number := csv_overall_progress (session st).

(** The entry at the head of [session['logs']]. *)
Definition newest_log (st : State W) : option string :=
  hd_error (logs_list (session st)).

Definition logged_last (message : string) (st : State W) : Prop :=
  exists timestamp, newest_log st = Some (log_line timestamp message).

(** The [link] cell is not a string, or is blank once trimmed. *)
Definition blank_link (cols : list string) (row_data : list cell) : Prop :=
  forall s, series_get cols row_data "link" = Some (CStr s) -> Py.strip s = "".

(** The state in which the download of an item starts in [st] ends, and
    the exception that left it, if any (lines 201-222). *)
Definition item_download (total : Z) (index : label) (item_num p : number)
    (url : string) (st : State W) : option exn * State W :=
  let st1 := snd (upd_session assign_modified (snd (set_overall p st))) in
  let announced := announce_download total index item_num url st1 in
  download url (Py.path_join DOWNLOAD_FOLDER_UI (fst announced)) (snd announced).

Definition fetch_of_item (total : Z) (index : label) (item_num p : number)
    (url : string) (st : State W) : option exn :=
  fst (item_download total index item_num p url st).

(** The computation flashes nothing but warnings. *)
Definition only_warnings {A} (m : M W A) : Prop :=
  forall st, exists ws,
    flashes (snd (m st)) = (flashes st ++ ws)%list
    /\ Forall (fun f => fst f = "warning") ws.

End Observations.

(** ** A world for the examples *)

(** A manifest as bytes: its lines, each ended by a newline. *)
Definition csv_text (lines : list string) : string :=
  String.concat "" (map (fun l => l ++ String "010" "") lines).

Definition csv_bytes (lines : list string) : bytes :=
  list_byte_of_string (csv_text lines).

(** The clock is the world: [time.time()] advances it by one second, the
    web is a table from URLs to replies, [send_file] always answers
    [sent], and [pd.read_csv] yields [parsed] on the manifest [lines] (and
    is taken to raise on any other input). *)
Definition example_world (lines : list string) (parsed : exn + DataFrame)
    (web : string -> http_reply) (connected : bool) (sent : send_reply)
  : Externals Z := {|
  strftime := fun w => ("2024-05-01 12:00:00", w);
  time_time := fun w => (w, (w + 1)%Z);
  read_csv := fun b =>
    if String.eqb (string_of_list_byte b) (csv_text lines) then parsed
    else inl (mkExn OtherException "ParserError" "not the example manifest");
  is_connected := fun _ => connected;
  requests_get := fun url w => (web url, w);
  open_wb := fun _ w => (None, w);
  file_write := fun _ _ w => (None, w);
  send_file := fun _ _ w => (sent, w)
|}.

Definition empty_session : Session := mkSession None None None None None false.

Definition logged_in_session : Session :=
  mkSession None (Some true) None None None false.

Definition start_state (s : Session) (client : option TelegramClient) : State Z :=
  mkState s [] client 1714564800%Z [].

(** A web where every URL answers 200 with one chunk, except those that
    end in [missing], which answer 404. *)
Definition example_web (url : string) : http_reply :=
  if String.eqb (Py.item_last (Py.split "/" url)) "missing"
  then GetResponse 404 "Not Found" url [] None
  else GetResponse 200 "OK" url [[Byte.x68; Byte.x69]] None.

Definition sent_ok : send_reply := mkSend [(50, 100); (100, 100)]%Z None.

(** Three rows, the second without a link. *)
Definition three_rows_lines : list string :=
  ["link;caption"; "http://host/a.txt;first"; ";second"; "http://host/c.txt;third"].

Definition three_rows : DataFrame :=
  mkFrame ["link"; "caption"]
    (default_labels
       [[CStr "http://host/a.txt"; CStr "first"];
        [CNaN; CStr "second"];
        [CStr "http://host/c.txt"; CStr "third"]]).

(** Three rows, the second of which answers 404. *)
Definition one_missing_lines : list string :=
  ["link"; "http://host/a.txt"; "http://host/missing"; "http://host/c.txt"].

Definition one_missing : DataFrame :=
  mkFrame ["link"]
    (default_labels
       [[CStr "http://host/a.txt"]; [CStr "http://host/missing"];
        [CStr "http://host/c.txt"]]).

Definition not_found : exn :=
  mkExn RequestException "HTTPError"
    "404 Client Error: Not Found for url: http://host/missing".

(** Rows with one field more than the header: pandas takes the first
    field of every row as its label, and the header names the fields that
    follow it. *)

(** Two rows ended by a separator: the labels are the links, the [link]
    column holds the captions, the [caption] column is empty. *)
Definition trailing_separator_lines : list string :=
  ["link;caption"; "http://host/a.txt;first;"; "http://host/c.txt;third;"].

Definition trailing_separator : DataFrame :=
  mkFrame ["link"; "caption"]
    [(LStr "http://host/a.txt", [CStr "first"; CNaN]);
     (LStr "http://host/c.txt", [CStr "third"; CNaN])].

(** Three rows that start with a name, the second without a link. *)
Definition named_rows_lines : list string :=
  ["link;caption"; "a;http://host/a.txt;first"; "b;;second";
   "c;http://host/c.txt;third"].

Definition named_rows : DataFrame :=
  mkFrame ["link"; "caption"]
    [(LStr "a", [CStr "http://host/a.txt"; CStr "first"]);
     (LStr "b", [CNaN; CStr "second"]);
     (LStr "c", [CStr "http://host/c.txt"; CStr "third"])].

(** Two rows that start with a name, missing in the first: its label is
    NaN.  The link of the first row answers 404. *)
Definition half_named_lines : list string :=
  ["link;caption"; ";http://host/missing;first"; "b;http://host/c.txt;second"].

Definition half_named : DataFrame :=
  mkFrame ["link"; "caption"]
    [(LFloat NaN, [CStr "http://host/missing"; CStr "first"]);
     (LStr "b", [CStr "http://host/c.txt"; CStr "second"])].

(** Two rows that start with a number. *)
Definition numbered_lines : list string :=
  ["link;caption"; "3;http://host/a.txt;first"; "1;http://host/c.txt;third"].

Definition numbered : DataFrame :=
  mkFrame ["link"; "caption"]
    [(LInt 3, [CStr "http://host/a.txt"; CStr "first"]);
     (LInt 1, [CStr "http://host/c.txt"; CStr "third"])].



(** What line 200 raises on a label that is text. *)
Definition cannot_add_to_str : string := exn_str (type_error "str").

(** A header and no row. *)
Definition header_only (cols : list string) : DataFrame := mkFrame cols [].

(** What pandas raises on an empty file. *)
Definition no_columns : exn :=
  mkExn EmptyDataError "EmptyDataError" "No columns to parse from file".


Definition online : State Z := start_state logged_in_session (Some Client).
Definition offline : State Z := start_state empty_session None.

(** ** Observations on the trace *)

Definition progress_pick (e : Event) : list number :=
  match e with SetOverall p => [p] | _ => [] end.

Definition fetch_pick (e : Event) : list string :=
  match e with HttpGet url => [url] | _ => [] end.

Definition publish_pick (e : Event) : list (string * string) :=
  match e with SendFile path caption => [(path, caption)] | _ => [] end.

(** The values assigned to [session['csv_overall_progress']], in order. *)
Definition progress_writes (tr : list Event) : list number :=
  flat_map progress_pick tr.

(** The URLs requested, in order. *)
Definition fetched (tr : list Event) : list string := flat_map fetch_pick tr.

(** The paths opened for writing, in order. *)
Definition opened (tr : list Event) : list string :=
  flat_map (fun e => match e with FileOpen path => [path] | _ => [] end) tr.

(** The [(path, caption)] pairs handed to [send_file], in order. *)
Definition published (tr : list Event) : list (string * string) :=
  flat_map publish_pick tr.

(** The terminal states of a run (section 4.5 of the specification);
    [Faulted] is the run that an exception of lines 200-201 ends. *)
Inductive outcome : Type :=
| ParseFailed
| EmptyTable
| Completed (total_csv_items : Z)
| Faulted (e_csv_main : exn).

Definition run_outcome (parsed : exn + DataFrame) : outcome :=
  match parsed with
  | inl _ => ParseFailed
  | inr df =>
      if negb (has_column "link" df) then ParseFailed
      else if (len df =? 0)%Z then EmptyTable
      else match first_fault (len df) (iterrows df) with
           | None => Completed (len df)
           | Some e => Faulted e
           end
  end.

(** The numbers [k], [k + 1], ... of [m] consecutive items. *)
Fixpoint count_from (k : Z) (m : nat) : list Z :=
  match m with
  | O => []
  | S m' => k :: count_from (k + 1) m'
  end.

(** The item numbers 1, ..., n of a table of [n] rows. *)
Definition item_numbers (n : Z) : list Z := count_from 1 (Z.to_nat n).

(** The double Python computes for [(k / n) * 100]: the quotient rounded,
    its product by 100 rounded again. *)
Definition percent (k n : Z) : Q :=
  double (double (inject_Z k / inject_Z n) * 100).

(** The links of the rows that are not skipped, in order. *)
Definition links_in (cols : list string) (rs : list (list cell)) : list string :=
  flat_map (fun row => match link_of cols row with
                       | Some url => [url]
                       | None => []
                       end) rs.

Definition valid_links (df : DataFrame) : list string :=
  links_in (columns df) (map snd (rows df)).

(** ** The sanitizer is idempotent *)

Lemma kept_plain (c : ascii) :
  kept c = true ->
  Ascii.eqb c "/" = false /\ Ascii.eqb c "?" = false /\ Py.isspace c = false.
Proof.
  destruct c as [[] [] [] [] [] [] [] []]; vm_compute; intuition discriminate.
Qed.

Lemma all_chars_app p s t :
  all_chars p (s ++ t) = all_chars p s && all_chars p t.
Proof.
  induction s as [|c s IH]; simpl; [reflexivity|].
  rewrite IH. apply andb_assoc.
Qed.

Lemma split_without (sep : ascii) (s : string) :
  all_chars (fun c => negb (Ascii.eqb c sep)) s = true -> Py.split sep s = [s].
Proof.
  induction s as [|c s IH]; simpl; [reflexivity|].
  intros H. apply andb_prop in H as [Hc Hs].
  apply negb_true_iff in Hc. rewrite Hc, (IH Hs). reflexivity.
Qed.

Lemma all_chars_weaken (p q : ascii -> bool) (s : string) :
  (forall c, p c = true -> q c = true) ->
  all_chars p s = true -> all_chars q s = true.
Proof.
  intros Hpq. induction s as [|c s IH]; simpl; [reflexivity|].
  intros H. apply andb_prop in H as [Hc Hs].
  rewrite (Hpq _ Hc), (IH Hs). reflexivity.
Qed.


Lemma join_if_kept (p : ascii -> bool) (s : string) :
  all_chars p (Py.join_if p s) = true.
Proof.
  induction s as [|c s IH]; simpl; [reflexivity|].
  destruct (p c) eqn:Hc; simpl; [rewrite Hc|]; exact IH.
Qed.

Lemma lstrip_no_space (s : string) :
  all_chars (fun c => negb (Py.isspace c)) s = true -> Py.lstrip s = s.
Proof.
  destruct s as [|c s]; simpl; [reflexivity|].
  intros H. apply andb_prop in H as [Hc _].
  apply negb_true_iff in Hc. rewrite Hc. reflexivity.
Qed.

Lemma rstrip_no_space (s : string) :
  all_chars (fun c => negb (Py.isspace c)) s = true -> Py.rstrip s = s.
Proof.
  induction s as [|c s IH]; simpl; [reflexivity|].
  intros H. apply andb_prop in H as [Hc Hs].
  apply negb_true_iff in Hc. rewrite (IH Hs), Hc.
  destruct s; reflexivity.
Qed.

Lemma strip_no_space (s : string) :
  all_chars (fun c => negb (Py.isspace c)) s = true -> Py.strip s = s.
Proof.
  intros H. unfold Py.strip. rewrite (lstrip_no_space s H). apply rstrip_no_space, H.
Qed.

Lemma kept_no_space (s : string) :
  all_chars kept s = true -> all_chars (fun c => negb (Py.isspace c)) s = true.
Proof.
  apply all_chars_weaken. intros c Hc.
  destruct (kept_plain c Hc) as (_ & _ & Hs). rewrite Hs. reflexivity.
Qed.


Lemma cleaned_name_kept (url : string) : all_chars kept (cleaned_name url) = true.
Proof.
  unfold cleaned_name.
  rewrite strip_no_space; [apply join_if_kept|].
  apply kept_no_space, join_if_kept.
Qed.

Lemma digits_kept (d : Decimal.uint) :
  all_chars kept (NilEmpty.string_of_uint d) = true.
Proof. induction d; simpl; auto. Qed.

Lemma str_int_kept (z : Z) : all_chars kept (Py.str_int z) = true.
Proof.
  unfold Py.str_int, NilZero.string_of_int, NilZero.string_of_uint.
  destruct (Z.to_int z) as [d|d]; destruct d; simpl; try reflexivity; apply digits_kept.
Qed.

(** The label prints with characters that line 211 keeps; the label of a
    table with default labels does. *)
Definition plain_label (index : label) : Prop :=
  all_chars kept (str_label index) = true.


Lemma bool_label_plain (b : bool) : plain_label (LBool b).
Proof. destruct b; reflexivity. Qed.

Lemma fallback_name_kept (now : Z) (index : label) :
  plain_label index -> all_chars kept (fallback_name now index) = true.
Proof.
  intros Hplain. unfold fallback_name.
  rewrite !all_chars_app, str_int_kept, Hplain. reflexivity.
Qed.

Lemma filename_kept (now : Z) (index : label) (url : string) :
  (cleaned_name url = "" -> plain_label index) ->
  all_chars kept (filename_from_csv_url now index url) = true.
Proof.
  intros Hplain. unfold filename_from_csv_url, Py.truthy.
  destruct (String.eqb_spec (cleaned_name url) "") as [E|E]; cbn [negb].
  - apply fallback_name_kept, Hplain, E.
  - apply cleaned_name_kept.
Qed.




(** ** Rounding to a double *)

Lemma round_half_even_bounds (x : Q) :
  (Qfloor x <= round_half_even x <= Qfloor x + 1)%Z.
Proof.
  unfold round_half_even.
  destruct (Qcompare _ _); [destruct (Z.even _)| |]; lia.
Qed.

Lemma round_half_even_comp (x y : Q) :
  x == y -> round_half_even x = round_half_even y.
Proof.
  intros H. unfold round_half_even.
  rewrite (Qfloor_comp _ _ H).
  now rewrite (Qcompare_comp (x - inject_Z (Qfloor y)) (y - inject_Z (Qfloor y))
                 ltac:(now rewrite H) (1 # 2) (1 # 2) ltac:(reflexivity)).
Qed.

Lemma round_half_even_Z (n : Z) : round_half_even (inject_Z n) = n.
Proof.
  unfold round_half_even. rewrite Qfloor_Z.
  replace (Qcompare (inject_Z n - inject_Z n) (1 # 2)) with Lt; [reflexivity|].
  symmetry. apply Qlt_alt.
  setoid_replace (inject_Z n - inject_Z n) with 0 by ring. reflexivity.
Qed.

Lemma round_half_even_mono (x y : Q) :
  x <= y -> (round_half_even x <= round_half_even y)%Z.
Proof.
  intros H.
  pose proof (Qfloor_resp_le _ _ H) as Hf.
  pose proof (round_half_even_bounds x) as Hx.
  pose proof (round_half_even_bounds y) as Hy.
  destruct (Z.eq_dec (Qfloor x) (Qfloor y)) as [E|E]; [|lia].
  unfold round_half_even in *. rewrite <- E in *.
  assert (Hd : x - inject_Z (Qfloor x) <= y - inject_Z (Qfloor x)).
  { apply Qplus_le_l. exact H. }
  destruct (Qcompare_spec (x - inject_Z (Qfloor x)) (1 # 2)) as [A|A|A];
    destruct (Qcompare_spec (y - inject_Z (Qfloor x)) (1 # 2)) as [B|B|B];
    try destruct (Z.even (Qfloor x)); try lia; exfalso;
    apply (Qlt_irrefl (1 # 2));
    first [ rewrite A in Hd; eapply Qle_lt_trans; eassumption
          | rewrite B in Hd; eapply Qlt_le_trans; eassumption
          | eapply Qlt_trans; [exact A|]; eapply Qle_lt_trans; eassumption ].
Qed.

Lemma two_not_0 : ~ 2 == 0.
Proof. discriminate. Qed.

Lemma pow2_pos (e : Z) : 0 < 2 ^ e.
Proof. now apply Qpower_0_lt. Qed.

Lemma pow2_Z (a : Z) : (0 <= a)%Z -> inject_Z (2 ^ a) == 2 ^ a.
Proof. intros H. now rewrite Zpower_Qpower. Qed.

Lemma ilog2_spec (q : Q) :
  0 < q -> 2 ^ ilog2 q <= q /\ q < 2 ^ (ilog2 q + 1).
Proof.
  intros Hq. destruct q as [n d].
  assert (Hn : (0 < n)%Z).
  { unfold Qlt in Hq. simpl in Hq. lia. }
  unfold ilog2. cbn [Qnum Qden].
  set (a := Z.log2 n). set (b := Z.log2 (Z.pos d)).
  destruct (Z.log2_spec n Hn) as [Ha1 Ha2]. fold a in Ha1, Ha2.
  destruct (Z.log2_spec (Z.pos d) eq_refl) as [Hb1 Hb2]. fold b in Hb1, Hb2.
  assert (Ha0 : (0 <= a)%Z) by apply Z.log2_nonneg.
  assert (Hb0 : (0 <= b)%Z) by apply Z.log2_nonneg.
  rewrite Zle_Qle, pow2_Z in Ha1, Hb1 by lia.
  rewrite Zlt_Qlt, pow2_Z in Ha2, Hb2 by lia.
  replace (Z.succ a) with (a + 1)%Z in Ha2 by lia.
  replace (Z.succ b) with (b + 1)%Z in Hb2 by lia.
  rewrite Qpower_plus in Ha2, Hb2 by apply two_not_0.
  change (2 ^ 1) with 2 in Ha2, Hb2.
  assert (Hd : 0 < inject_Z (Z.pos d)) by reflexivity.
  pose proof (pow2_pos a) as HA. pose proof (pow2_pos b) as HB.
  pose proof (pow2_pos (a - b)) as HX.
  assert (EX : 2 ^ (a - b) * 2 ^ b == 2 ^ a).
  { rewrite <- Qpower_plus by apply two_not_0. now replace (a - b + b)%Z with a by lia. }
  assert (E1 : 2 ^ (a - b + 1) == 2 ^ (a - b) * 2).
  { now rewrite Qpower_plus by apply two_not_0. }
  assert (E2 : 2 ^ (a - b - 1) * 2 == 2 ^ (a - b)).
  { rewrite <- (Qpower_1_r 2) at 2. rewrite <- Qpower_plus by apply two_not_0.
    now replace (a - b - 1 + 1)%Z with (a - b)%Z by lia. }
  assert (Hup : n # d < 2 ^ (a - b + 1)).
  { rewrite (Qmake_Qdiv n d). apply Qlt_shift_div_r; [exact Hd|].
    rewrite E1. nra. }
  destruct (Qle_bool (2 ^ (a - b)) (n # d)) eqn:Hc.
  - split; [now apply Qle_bool_iff|exact Hup].
  - split.
    + rewrite (Qmake_Qdiv n d). apply Qle_shift_div_l; [exact Hd|]. 
      pose proof (pow2_pos (a - b - 1)). nra.
    + replace (a - b - 1 + 1)%Z with (a - b)%Z by lia.
      apply Qnot_le_lt. intros C. apply Qle_bool_iff in C. congruence.
Qed.

Lemma ilog2_mono (p q : Q) : 0 < p -> p <= q -> (ilog2 p <= ilog2 q)%Z.
Proof.
  intros Hp Hpq.
  assert (Hq : 0 < q) by (eapply Qlt_le_trans; eassumption).
  destruct (ilog2_spec p Hp) as [A _]. destruct (ilog2_spec q Hq) as [_ B].
  assert (C : 2 ^ ilog2 p < 2 ^ (ilog2 q + 1)).
  { eapply Qle_lt_trans; [exact A|]. eapply Qle_lt_trans; eassumption. }
  apply Qpower_lt_compat_l_inv in C; [lia|reflexivity].
Qed.

Lemma nearest_nonneg (q : Q) : 0 <= q -> 0 <= nearest q.
Proof.
  intros H. unfold nearest.
  apply Qmult_le_0_compat; [|apply Qlt_le_weak, pow2_pos].
  change 0 with (inject_Z 0). rewrite <- Zle_Qle.
  rewrite <- (round_half_even_Z 0). apply round_half_even_mono.
  apply Qle_shift_div_l; [apply pow2_pos|]. now rewrite Qmult_0_l.
Qed.

Lemma nearest_mono (p q : Q) : 0 < p -> p <= q -> nearest p <= nearest q.
Proof.
  intros Hp Hpq.
  assert (Hq : 0 < q) by (eapply Qlt_le_trans; eassumption).
  pose proof (ilog2_mono p q Hp Hpq) as Hl.
  unfold nearest.
  set (ep := Z.max (ilog2 p - 52) (-1074)).
  set (eq := Z.max (ilog2 q - 52) (-1074)).
  destruct (Z.eq_dec ep eq) as [E|E].
  - rewrite E. apply Qmult_le_compat_r; [|apply Qlt_le_weak, pow2_pos].
    rewrite <- Zle_Qle. apply round_half_even_mono.
    apply Qmult_le_compat_r; [exact Hpq|].
    apply Qlt_le_weak, Qinv_lt_0_compat, pow2_pos.
  - assert (Heq : eq = (ilog2 q - 52)%Z) by lia.
    assert (Hlt : (ep + 53 <= ilog2 q)%Z) by lia.
    destruct (ilog2_spec p Hp) as [_ Up]. destruct (ilog2_spec q Hq) as [Lo _].
    apply Qle_trans with (2 ^ ilog2 q).
    + apply Qle_trans with (2 ^ (ep + 53)).
      * rewrite (Qpower_plus 2 ep 53) by apply two_not_0.
        rewrite (Qmult_comm (2 ^ ep)).
        apply Qmult_le_compat_r; [|apply Qlt_le_weak, pow2_pos].
        rewrite <- (pow2_Z 53) by lia. rewrite <- Zle_Qle.
        rewrite <- (round_half_even_Z (2 ^ 53)). apply round_half_even_mono.
        apply Qle_shift_div_r; [apply pow2_pos|].
        rewrite pow2_Z by lia. rewrite <- Qpower_plus by apply two_not_0.
        apply Qlt_le_weak. eapply Qlt_le_trans; [exact Up|].
        apply Qpower_le_compat_l; [lia|discriminate].
      * apply Qpower_le_compat_l; [lia|discriminate].
    + replace (ilog2 q) with (52 + eq)%Z at 1 by lia.
      rewrite (Qpower_plus 2 52 eq) by apply two_not_0.
      apply Qmult_le_compat_r; [|apply Qlt_le_weak, pow2_pos].
      rewrite <- (pow2_Z 52) by lia. rewrite <- Zle_Qle.
      rewrite <- (round_half_even_Z (2 ^ 52)). apply round_half_even_mono.
      apply Qle_shift_div_l; [apply pow2_pos|].
      rewrite pow2_Z by lia. rewrite <- Qpower_plus by apply two_not_0.
      now replace (52 + eq)%Z with (ilog2 q) by lia.
Qed.

Lemma double_comp (p q : Q) : p == q -> double p = double q.
Proof.
  intros H. unfold double.
  rewrite (Qcompare_comp p q H 0 0 ltac:(reflexivity)).
  rewrite (Qred_complete p q H).
  rewrite (Qred_complete (- p) (- q)) by now rewrite H.
  reflexivity.
Qed.

Lemma double_nonneg (q : Q) : 0 <= q -> 0 <= double q.
Proof.
  intros H. unfold double.
  destruct (Qcompare_spec q 0) as [E|E|E].
  - apply Qle_refl.
  - exfalso. apply (Qlt_irrefl 0). eapply Qle_lt_trans; eassumption.
  - rewrite Qred_correct. apply nearest_nonneg. now rewrite Qred_correct.
Qed.

Lemma double_mono (p q : Q) : 0 <= p -> p <= q -> double p <= double q.
Proof.
  intros Hp Hpq.
  assert (Hq : 0 <= q) by (eapply Qle_trans; eassumption).
  unfold double at 1.
  destruct (Qcompare_spec p 0) as [E|E|E].
  - now apply double_nonneg.
  - exfalso. apply (Qlt_irrefl 0). apply (Qle_lt_trans _ p); assumption.
  - unfold double.
    destruct (Qcompare_spec q 0) as [F|F|F].
    + exfalso. apply (Qlt_irrefl 0). rewrite F in Hpq. apply (Qlt_le_trans _ p); assumption.
    + exfalso. apply (Qlt_irrefl 0). apply (Qle_lt_trans _ q); assumption.
    + apply Qred_le. apply nearest_mono; rewrite ?Qred_correct; assumption.
Qed.

Lemma double_1 : double 1 = 1.
Proof. reflexivity. Qed.

Lemma double_100 : double 100 = 100.
Proof. vm_compute. reflexivity. Qed.

Lemma round_half_even_error (x : Q) :
  Qabs (inject_Z (round_half_even x) - x) <= 1 # 2.
Proof.
  apply Qabs_Qle_condition.
  pose proof (Qfloor_le x) as Hlo. pose proof (Qlt_floor x) as Hhi.
  rewrite inject_Z_plus in Hhi. change (inject_Z 1) with 1 in Hhi.
  unfold round_half_even.
  destruct (Qcompare_spec (x - inject_Z (Qfloor x)) (1 # 2)) as [A|A|A].
  - destruct (Z.even (Qfloor x)); rewrite ?inject_Z_plus;
      change (inject_Z 1) with 1; split; lra.
  - split; lra.
  - rewrite inject_Z_plus. change (inject_Z 1) with 1. split; lra.
Qed.

Lemma nearest_error (q : Q) :
  0 < q -> Qabs (nearest q - q) <= q * 2 ^ (-53) + 2 ^ (-1075).
Proof.
  intros Hq. unfold nearest.
  set (e := Z.max (ilog2 q - 52) (-1074)).
  pose proof (pow2_pos e) as He.
  pose proof (round_half_even_error (q / 2 ^ e)) as Herr.
  apply Qabs_Qle_condition in Herr.
  assert (Hq' : q == q / 2 ^ e * 2 ^ e).
  { field. intros C. rewrite C in He. discriminate. }
  assert (Hbound : 2 ^ e <= q * 2 ^ (-52) + 2 ^ (-1074)).
  { destruct (ilog2_spec q Hq) as [Lo _].
    pose proof (pow2_pos (-52)) as H52. pose proof (pow2_pos (-1074)) as H1074.
    pose proof (pow2_pos (ilog2 q - 52)) as Hl.
    assert (E : 2 ^ (ilog2 q - 52) == 2 ^ ilog2 q * 2 ^ (-52)).
    { rewrite <- Qpower_plus by apply two_not_0. reflexivity. }
    subst e. destruct (Z.max_spec (ilog2 q - 52) (-1074)) as [[_ ->]|[_ ->]].
    - nra.
    - rewrite E. nra. }
  assert (E53 : 2 ^ (-53) * 2 == 2 ^ (-52)) by reflexivity.
  assert (E1075 : 2 ^ (-1075) * 2 == 2 ^ (-1074)) by reflexivity.
  apply Qabs_Qle_condition.
  set (t := q / 2 ^ e) in *. set (r := inject_Z (round_half_even t)) in *.
  set (P := 2 ^ e) in *. set (a := 2 ^ (-53)) in *. set (b := 2 ^ (-1075)) in *.
  set (a2 := 2 ^ (-52)) in *. set (b2 := 2 ^ (-1074)) in *.
  clearbody t r P a b a2 b2. clear e.
  destruct Herr as [H1 H2].
  split; nra.
Qed.

Lemma double_error (q : Q) :
  0 <= q -> Qabs (double q - q) <= q * 2 ^ (-53) + 2 ^ (-1075).
Proof.
  intros Hq. apply Qabs_Qle_condition.
  pose proof (pow2_pos (-53)) as Ha. pose proof (pow2_pos (-1075)) as Hb.
  unfold double.
  destruct (Qcompare_spec q 0) as [E|E|E].
  - rewrite E. split; nra.
  - exfalso. apply (Qlt_irrefl 0). apply (Qle_lt_trans _ q); assumption.
  - pose proof (Qred_correct q) as Hr.
    pose proof (Qred_correct (nearest (Qred q))) as Hn.
    assert (Hpos : 0 < Qred q) by (rewrite Hr; exact E).
    pose proof (nearest_error (Qred q) Hpos) as Herr.
    apply Qabs_Qle_condition in Herr. destruct Herr as [H1 H2].
    set (a := 2 ^ (-53)) in *. set (b := 2 ^ (-1075)) in *. clearbody a b.
    split; nra.
Qed.

Lemma inject_Z_pos (n : Z) : (0 < n)%Z -> 0 < inject_Z n.
Proof. intros H. unfold Qlt. simpl. lia. Qed.

Lemma inject_Z_nonneg (n : Z) : (0 <= n)%Z -> 0 <= inject_Z n.
Proof. intros H. unfold Qle. simpl. lia. Qed.

Lemma quotient_bounds (k n : Z) :
  (0 < n)%Z -> (0 <= k <= n)%Z -> 0 <= inject_Z k / inject_Z n <= 1.
Proof.
  intros Hn Hk.
  assert (Hn' : 0 < inject_Z n) by apply inject_Z_pos, Hn.
  split.
  - apply Qle_shift_div_l; [exact Hn'|]. rewrite Qmult_0_l.
    apply inject_Z_nonneg. lia.
  - apply Qle_shift_div_r; [exact Hn'|]. rewrite Qmult_1_l.
    rewrite <- Zle_Qle. lia.
Qed.

Lemma quotient_rounded_bounds (k n : Z) :
  (0 < n)%Z -> (0 <= k <= n)%Z -> 0 <= double (inject_Z k / inject_Z n) <= 1.
Proof.
  intros Hn Hk. destruct (quotient_bounds k n Hn Hk) as [H0 H1]. split.
  - apply double_nonneg, H0.
  - apply Qle_trans with (double 1); [apply double_mono; assumption|].
    rewrite double_1. apply Qle_refl.
Qed.

Lemma percent_bounds (k n : Z) :
  (0 < n)%Z -> (0 <= k <= n)%Z -> 0 <= percent k n <= 100.
Proof.
  intros Hn Hk. destruct (quotient_rounded_bounds k n Hn Hk) as [H0 H1].
  unfold percent. split.
  - apply double_nonneg. nra.
  - apply Qle_trans with (double 100); [apply double_mono; nra|].
    rewrite double_100. apply Qle_refl.
Qed.

Lemma percent_le (k k' n : Z) :
  (0 < n)%Z -> (0 <= k <= k')%Z -> percent k n <= percent k' n.
Proof.
  intros Hn Hk.
  assert (Hn' : 0 < inject_Z n) by apply inject_Z_pos, Hn.
  assert (H0 : 0 <= inject_Z k / inject_Z n).
  { apply Qle_shift_div_l; [exact Hn'|]. rewrite Qmult_0_l.
    apply inject_Z_nonneg. lia. }
  assert (Hle : inject_Z k / inject_Z n <= inject_Z k' / inject_Z n).
  { unfold Qdiv. apply Qmult_le_compat_r.
    - rewrite <- Zle_Qle. lia.
    - apply Qlt_le_weak, Qinv_lt_0_compat, Hn'. }
  pose proof (double_nonneg _ H0) as Hd0.
  pose proof (double_mono _ _ H0 Hle) as Hd.
  unfold percent. apply double_mono; nra.
Qed.

Lemma percent_zero (n : Z) : percent 0 n = 0.
Proof.
  unfold percent.
  rewrite (double_comp (inject_Z 0 / inject_Z n) 0).
  - reflexivity.
  - unfold Qdiv. apply Qmult_0_l.
Qed.

Lemma percent_full (n : Z) : n <> 0%Z -> percent n n = 100.
Proof.
  intros Hn. unfold percent.
  rewrite (double_comp (inject_Z n / inject_Z n) 1).
  - rewrite double_1. rewrite (double_comp (1 * 100) 100) by reflexivity.
    apply double_100.
  - field. intros H. apply Hn. unfold Qeq in H. simpl in H. lia.
Qed.

(** The stored value is within two roundings of [100 * k / n]. *)
Lemma percent_close (k n : Z) :
  (0 < n)%Z -> (0 <= k <= n)%Z ->
  Qabs (percent k n - 100 * inject_Z k / inject_Z n)
  <= 100 * inject_Z k / inject_Z n * 2 ^ (-51) + 2 ^ (-1067).
Proof.
  intros Hn Hk.
  destruct (quotient_bounds k n Hn Hk) as [H0 H1].
  destruct (quotient_rounded_bounds k n Hn Hk) as [Hd0 Hd1].
  pose proof (double_error _ H0) as E1.
  assert (Hx : 0 <= double (inject_Z k / inject_Z n) * 100) by nra.
  pose proof (double_error _ Hx) as E2.
  apply Qabs_Qle_condition in E1, E2. apply Qabs_Qle_condition.
  unfold percent.
  assert (Eq : 100 * inject_Z k / inject_Z n == 100 * (inject_Z k / inject_Z n)).
  { unfold Qdiv. ring. }
  rewrite Eq.
  assert (E51 : 2 ^ (-51) == 4 * 2 ^ (-53)) by reflexivity.
  assert (E1067 : 2 ^ (-1067) == 256 * 2 ^ (-1075)) by reflexivity.
  assert (Ha1 : 2 ^ (-53) <= 1) by (apply Qle_bool_iff; reflexivity).
  pose proof (pow2_pos (-53)) as Ha. pose proof (pow2_pos (-1075)) as Hb.
  rewrite E51, E1067.
  set (q := inject_Z k / inject_Z n) in *.
  set (d := double q) in *. set (p := double (d * 100)) in *.
  set (a := 2 ^ (-53)) in *. set (b := 2 ^ (-1075)) in *.
  clearbody q d p a b.
  destruct E1 as [L1 U1]. destruct E2 as [L2 U2].
  assert (Hqa : 0 <= q * a) by nra.
  assert (Hda : d * a <= q * a + q * a + b).
  { assert (d <= q + q * a + b) by lra.
    assert (q * a * a <= q * a) by nra.
    assert (b * a <= b) by nra.
    nra. }
  split; nra.
Qed.

(** *** The arithmetic of lines 200-201 on a position *)

Lemma is_negative_nonneg (q : Q) : 0 <= q -> is_negative q = false.
Proof.
  intros H. unfold is_negative. apply negb_false_iff, Qle_bool_iff, H.
Qed.

Lemma fits_a_double (r : Q) :
  0 <= r <= 100 -> Qle_bool (2 ^ 1024) (Qabs r) = false.
Proof.
  intros [H0 H100].
  destruct (Qle_bool (2 ^ 1024) (Qabs r)) eqn:E; [|reflexivity].
  apply Qle_bool_iff in E. rewrite Qabs_pos in E by exact H0.
  assert (H : 2 ^ 7 <= 2 ^ 1024) by (apply Qpower_le_compat_l; [lia|discriminate]).
  change (2 ^ 7) with 128 in H. lra.
Qed.

Lemma to_float_nonneg (q : Q) :
  0 <= q -> double q <= 100 -> to_float q false = Finite (double q).
Proof.
  intros H0 H100. unfold to_float.
  rewrite fits_a_double by (split; [apply double_nonneg, H0|exact H100]).
  rewrite (is_negative_nonneg q H0).
  destruct (Qeq_bool q 0); rewrite andb_false_r; reflexivity.
Qed.

Lemma item_progress_percent (k n : Z) :
  (0 < n)%Z -> (0 <= k <= n)%Z ->
  item_progress (NInt k) n = inr (NFloat (Finite (percent k n))).
Proof.
  intros Hn Hk.
  destruct (quotient_bounds k n Hn Hk) as [H0 H1].
  destruct (quotient_rounded_bounds k n Hn Hk) as [Hd0 Hd1].
  destruct (percent_bounds k n Hn Hk) as [Hp0 Hp100].
  unfold item_progress, true_divide.
  replace (n =? 0)%Z with false by (symmetry; apply Z.eqb_neq; lia).
  replace (k <? 0)%Z with false by (symmetry; apply Z.ltb_ge; lia).
  replace (n <? 0)%Z with false by (symmetry; apply Z.ltb_ge; lia).
  cbn [xorb]. rewrite to_float_nonneg by (try assumption; lra).
  cbn [float_times_100]. rewrite (is_negative_nonneg _ Hd0).
  rewrite to_float_nonneg by (try assumption; nra).
  reflexivity.
Qed.

Lemma item_start_position (n i : Z) :
  (0 <= i < n)%Z ->
  item_start n (LInt i)
  = inr (NInt (i + 1), NFloat (Finite (percent (i + 1) n))).
Proof.
  intros Hi. unfold item_start. cbn [index_plus_1].
  rewrite item_progress_percent by lia. reflexivity.
Qed.

(** The progress of a row is a float, whatever its label. *)
Lemma item_start_float (total : Z) (index : label) (item_num p : number) :
  item_start total index = inr (item_num, p) -> exists x, p = NFloat x.
Proof.
  unfold item_start, item_progress.
  destruct (index_plus_1 index) as [e|n]; [discriminate|].
  destruct (true_divide n total) as [e|x]; [discriminate|].
  intros H. injection H as _ <-. exists (float_times_100 x). reflexivity.
Qed.

(** ** Reasoning about runs *)

Create HintDb quiet.

Section Runs.

Context {W : Type} {ext : Externals W}.

Local Abbreviation preserves := (@preserves W _ _) (only parsing).

Lemma bind_run {A B} (m : M W A) (f : A -> M W B) (st : State W) :
  bind m f st = f (fst (m st)) (snd (m st)).
Proof. unfold bind. destruct (m st). reflexivity. Qed.

Lemma preserves_ret {A X} (obs : State W -> X) (a : A) : preserves obs (ret a).
Proof. intros st. reflexivity. Qed.

Lemma preserves_bind {A B X} (obs : State W -> X) (m : M W A) (f : A -> M W B) :
  preserves obs m -> (forall a, preserves obs (f a)) -> preserves obs (bind m f).
Proof.
  intros Hm Hf st. rewrite bind_run, Hf. apply Hm.
Qed.

(** What [add_log] does to the state: one clock reading, one new entry. *)
Lemma add_log_run (message : string) (st : State W) :
  add_log message st =
  (tt, mkState (session_add_log (log_line (fst (strftime (world st))) message)
                  (session st))
         (flashes st) (telethon_client st) (snd (strftime (world st))) (trace st)).
Proof.
  unfold add_log, bind, ask, upd_session.
  destruct (strftime (world st)). reflexivity.
Qed.

Lemma session_add_log_logs (log_entry : string) (s : Session) :
  logs (session_add_log log_entry s) = Some (firstn 100 (log_entry :: logs_list s)).
Proof. destruct s as [[l|] ? ? ? ? ?]; reflexivity. Qed.

Lemma session_add_log_overall (log_entry : string) (s : Session) :
  csv_overall_progress (session_add_log log_entry s) = csv_overall_progress s.
Proof. destruct s as [[l|] ? ? ? ? ?]; reflexivity. Qed.

Lemma session_add_log_upload (log_entry : string) (s : Session) :
  upload_progress (session_add_log log_entry s) = upload_progress s.
Proof. destruct s as [[l|] ? ? ? ? ?]; reflexivity. Qed.

(** *** Computations that leave the trace alone *)

Lemma add_log_trace message : preserves trace (add_log message).
Proof. intros st. rewrite add_log_run. reflexivity. Qed.

Lemma flash_trace message category : preserves trace (flash message category).
Proof. intros st. reflexivity. Qed.

Lemma upd_session_trace f : preserves trace (upd_session f).
Proof. intros st. reflexivity. Qed.

Lemma ask_trace {A} (call : W -> A * W) : preserves trace (ask call).
Proof. intros st. unfold ask. destruct (call (world st)). reflexivity. Qed.

Hint Resolve add_log_trace flash_trace upd_session_trace : quiet.
Hint Resolve @ask_trace : quiet.

Ltac quiet :=
  repeat first
    [ apply preserves_ret
    | apply preserves_bind; [|intros ?]
    | match goal with
      | |- preserves _ (if ?b then _ else _) => destruct b
      | |- preserves _ (match ?x with _ => _ end) => destruct x
      end
    | solve [auto with quiet] ].

Lemma progress_callback_sync_trace filepath current total :
  preserves trace (progress_callback_sync filepath current total).
Proof. unfold progress_callback_sync. quiet. Qed.

Hint Resolve progress_callback_sync_trace : quiet.

Lemma run_callbacks_trace filepath calls :
  preserves trace (run_callbacks filepath calls).
Proof.
  induction calls as [|[current total] calls IH]; simpl; quiet.
Qed.

Lemma upload_failed_trace filepath e : preserves trace (upload_failed filepath e).
Proof. unfold upload_failed. quiet. Qed.

Lemma choose_filename_trace index url : preserves trace (choose_filename index url).
Proof. unfold choose_filename. quiet. Qed.

Lemma item_failed_trace item_num url e : preserves trace (item_failed item_num url e).
Proof. unfold item_failed. quiet. Qed.

Hint Resolve run_callbacks_trace upload_failed_trace choose_filename_trace
  item_failed_trace : quiet.

Lemma announce_download_trace total index item_num url :
  preserves trace (announce_download total index item_num url).
Proof. unfold announce_download. quiet. Qed.

Hint Resolve announce_download_trace : quiet.

(** *** Computations that extend the trace *)

Lemma select_quiet {A X} (pick : Event -> list X) (m : M W A) :
  preserves trace m -> preserves (select pick) m.
Proof. intros H st. unfold select. rewrite H. reflexivity. Qed.

Lemma select_emit {X} (pick : Event -> list X) (e : Event) (st : State W) :
  select pick (snd (emit e st)) = (select pick st ++ pick e)%list.
Proof.
  unfold select, emit. simpl. rewrite flat_map_app. simpl.
  rewrite app_nil_r. reflexivity.
Qed.

Lemma select_set_overall {X} (pick : Event -> list X) (p : number) (st : State W) :
  select pick (snd (set_overall p st)) = (select pick st ++ pick (SetOverall p))%list.
Proof.
  unfold set_overall. rewrite bind_run, select_emit. reflexivity.
Qed.

Lemma select_ask {A X} (pick : Event -> list X) (call : W -> A * W) :
  preserves (select pick) (ask call).
Proof. apply select_quiet, ask_trace. Qed.

Lemma write_chunks_select {X} (pick : Event -> list X) path chunks :
  blind_to_files pick -> preserves (select pick) (write_chunks path chunks).
Proof.
  intros [_ Hw]. induction chunks as [|chunk chunks IH]; intros st.
  - reflexivity.
  - destruct chunk as [|b chunk]; cbn [write_chunks]; [apply IH|].
    rewrite !bind_run.
    destruct (fst (ask _ _)) as [e|]; cbn.
    + rewrite select_ask, select_emit, Hw. apply app_nil_r.
    + rewrite IH, select_ask, select_emit, Hw. apply app_nil_r.
Qed.

Lemma download_select {X} (pick : Event -> list X) url path (st : State W) :
  blind_to_files pick ->
  select pick (snd (download url path st)) = (select pick st ++ pick (HttpGet url))%list.
Proof.
  intros Hf. unfold download. rewrite !bind_run.
  destruct (fst (ask _ _)) as [e|status_code reason rurl chunks broken]; cbn.
  { rewrite select_ask, select_emit. reflexivity. }
  destruct (raise_for_status _ _ _); cbn.
  { rewrite select_ask, select_emit. reflexivity. }
  rewrite !bind_run.
  destruct (fst (ask (open_wb path) _)); cbn.
  { rewrite select_ask, select_emit, (proj1 Hf), app_nil_r, select_ask, select_emit.
    reflexivity. }
  rewrite bind_run.
  assert (Hend : forall (r : option exn) (s1 : State W),
             select pick (snd (match r with Some e => ret (Some e) | None => ret broken end s1))
             = select pick s1) by (intros [e|] s1; reflexivity).
  rewrite Hend, (write_chunks_select pick path chunks Hf).
  rewrite select_ask, select_emit, (proj1 Hf), app_nil_r, select_ask, select_emit.
  reflexivity.
Qed.

Lemma upload_select {X} (pick : Event -> list X) filepath caption (st : State W) :
  select pick (snd (_upload_file_async filepath caption st)) =
  (select pick st ++ if client_ready st then pick (SendFile filepath caption) else [])%list.
Proof.
  unfold _upload_file_async. destruct (client_ready st); cbn [negb].
  - rewrite !bind_run.
    assert (Hend : forall reply (s1 : State W),
               select pick (snd (match raised reply with
                                 | None =>
                                     add_log ("Async Upload: Completed: " ++ Py.basename filepath) ;;
                                     upd_session (assign_upload_progress 100) ;;
                                     flash ("Successfully uploaded " ++ Py.basename filepath) "success" ;;
                                     ret true
                                 | Some e =>
                                     upload_failed filepath e ;;
                                     upd_session (assign_upload_progress (-1)) ;;
                                     ret false
                                 end s1)) = select pick s1).
    { intros reply s1. apply select_quiet. quiet. }
    rewrite Hend.
    rewrite (select_quiet pick _ (run_callbacks_trace filepath _)).
    rewrite select_ask, select_emit.
    rewrite (select_quiet pick _ (add_log_trace _)).
    reflexivity.
  - rewrite app_nil_r. apply select_quiet. quiet.
Qed.

Lemma after_download_select {X} (pick : Event -> list X) cols ready n item_num row
    name path :
  mute_sends pick ready ->
  preserves (select pick) (after_download cols ready n item_num row name path).
Proof.
  intros Hmute st. unfold after_download. destruct ready.
  - destruct Hmute as [Hoff|Hblind]; [discriminate|].
    rewrite !bind_run. cbn [ret snd]. rewrite upload_select, Hblind.
    destruct (client_ready _); rewrite app_nil_r;
      rewrite !(select_quiet pick _ (add_log_trace _)); reflexivity.
  - apply select_quiet. quiet.
Qed.

Lemma process_url_select {X} (pick : Event -> list X) cols total ready n index
    item_num row url (st : State W) :
  blind_to_files pick -> mute_sends pick ready ->
  select pick (snd (process_url cols total ready n index item_num row url st))
  = (select pick st ++ pick (HttpGet url))%list.
Proof.
  intros Hfiles Hmute. unfold process_url. rewrite !bind_run.
  destruct (fst (download _ _ _)) as [e|]; cbn beta iota.
  - rewrite bind_run. cbn [ret snd].
    rewrite (select_quiet pick _ (item_failed_trace _ _ _)).
    rewrite download_select by assumption.
    rewrite (select_quiet pick _ (announce_download_trace _ _ _ _)). reflexivity.
  - rewrite after_download_select by assumption.
    rewrite download_select by assumption.
    rewrite (select_quiet pick _ (announce_download_trace _ _ _ _)). reflexivity.
Qed.

Lemma csv_item_body_select {X} (pick : Event -> list X) cols total ready n index
    item_num p row (st : State W) :
  blind_to_files pick -> mute_sends pick ready ->
  select pick (snd (csv_item_body cols total ready n index item_num p row st))
  = (select pick st ++ item_events pick cols p row)%list.
Proof.
  intros Hfiles Hmute. unfold csv_item_body, item_events. rewrite !bind_run.
  cbn [fst snd].
  destruct (link_of cols row) as [url|].
  - rewrite process_url_select by assumption.
    rewrite (select_quiet pick _ (upd_session_trace _)), select_set_overall.
    rewrite app_assoc. reflexivity.
  - rewrite bind_run. cbn [ret snd].
    rewrite (select_quiet pick _ (add_log_trace _)).
    rewrite (select_quiet pick _ (upd_session_trace _)), select_set_overall.
    rewrite app_nil_r. reflexivity.
Qed.

(** The loop, one row at a time: an exception of lines 200-201 ends it
    where it stands. *)
Lemma csv_item_run cols total ready n index row (st : State W) :
  csv_item cols total ready n index row st
  = match item_start total index with
    | inl e => (inl e, st)
    | inr (item_num, p) =>
        (inr (fst (csv_item_body cols total ready n index item_num p row st)),
         snd (csv_item_body cols total ready n index item_num p row st))
    end.
Proof.
  unfold csv_item. destruct (item_start total index) as [e|[item_num p]];
    [reflexivity|].
  rewrite bind_run. reflexivity.
Qed.

Lemma csv_loop_cons cols total ready index row items n (st : State W) :
  csv_loop cols total ready ((index, row) :: items) n st
  = match item_start total index with
    | inl e => (inl e, st)
    | inr (item_num, p) =>
        csv_loop cols total ready items
          (fst (csv_item_body cols total ready n index item_num p row st))
          (snd (csv_item_body cols total ready n index item_num p row st))
    end.
Proof.
  cbn [csv_loop]. rewrite bind_run, csv_item_run.
  destruct (item_start total index) as [e|[item_num p]]; reflexivity.
Qed.

Lemma csv_loop_select {X} (pick : Event -> list X) cols total ready items n
    (st : State W) :
  blind_to_files pick -> mute_sends pick ready ->
  select pick (snd (csv_loop cols total ready items n st))
  = (select pick st ++ rows_events pick cols total items)%list.
Proof.
  intros Hfiles Hmute. revert n st.
  induction items as [|[index row] items IH]; intros n st.
  - cbn [csv_loop rows_events]. rewrite app_nil_r. reflexivity.
  - rewrite csv_loop_cons. cbn [rows_events].
    destruct (item_start total index) as [e|[item_num p]].
    + cbn [snd]. rewrite app_nil_r. reflexivity.
    + rewrite IH, csv_item_body_select by assumption.
      rewrite app_assoc. reflexivity.
Qed.

(** The loop returns the exception of the first row whose label makes
    lines 200-201 raise, and a count when there is no such row. *)
Lemma csv_loop_result cols total ready items n (st : State W) :
  match fst (csv_loop cols total ready items n st) with
  | inl e => first_fault total items = Some e
  | inr _ => first_fault total items = None
  end.
Proof.
  revert n st. induction items as [|[index row] items IH]; intros n st.
  - reflexivity.
  - rewrite csv_loop_cons. cbn [first_fault].
    destruct (item_start total index) as [e|[item_num p]]; [reflexivity|].
    apply IH.
Qed.

(** *** The whole run *)

Lemma completed_select {X} (pick : Event -> list X) total n (st : State W) :
  select pick (snd (completed total n st))
  = (select pick st ++ pick (SetOverall (NInt 100)))%list.
Proof.
  unfold completed. rewrite !bind_run. cbn [ret snd].
  rewrite select_set_overall.
  rewrite (select_quiet pick _ (flash_trace _ _)).
  rewrite (select_quiet pick _ (add_log_trace _)). reflexivity.
Qed.

Lemma fatal_select {X} (pick : Event -> list X) e (st : State W) :
  select pick (snd (fatal e st))
  = (select pick st ++ pick (SetOverall (NInt (-1))))%list.
Proof.
  unfold fatal. rewrite !bind_run. cbn [ret snd].
  rewrite select_set_overall. f_equal.
  apply select_quiet. destruct (exn_kind e); quiet.
Qed.

Lemma process_rows_select {X} (pick : Event -> list X) ready df (st : State W) :
  blind_to_files pick -> mute_sends pick ready ->
  select pick (snd (process_rows ready df st))
  = (select pick st ++ loop_events pick (columns df) (len df) (iterrows df))%list.
Proof.
  intros Hfiles Hmute. unfold process_rows, loop_events. rewrite !bind_run.
  set (started := snd (add_log _ st)).
  pose proof (csv_loop_result (columns df) (len df) ready (iterrows df) 0%Z started)
    as Hres.
  pose proof (csv_loop_select pick (columns df) (len df) ready (iterrows df) 0%Z
                started Hfiles Hmute) as Hsel.
  assert (Hstart : select pick started = select pick st).
  { subst started. apply (select_quiet pick _ (add_log_trace _)). }
  destruct (fst (csv_loop _ _ _ _ _ started)) as [e|n].
  - rewrite fatal_select, Hsel, Hstart, Hres, <- app_assoc. reflexivity.
  - rewrite completed_select, Hsel, Hstart, Hres, <- app_assoc. reflexivity.
Qed.

Lemma reset_progress_select {X} (pick : Event -> list X) (st : State W) :
  select pick (snd (reset_progress st))
  = (select pick st ++ pick (SetOverall (NInt 0)))%list.
Proof.
  unfold reset_progress. rewrite !bind_run.
  rewrite !(select_quiet pick _ (upd_session_trace _)). apply select_set_overall.
Qed.

Lemma announce_mode_trace ready : preserves trace (announce_mode ready).
Proof. unfold announce_mode. quiet. Qed.

Lemma run_select {X} (pick : Event -> list X) csv_file_bytes (st : State W) :
  blind_to_files pick -> mute_sends pick (client_ready st) ->
  select pick (snd (_run_csv_process_async csv_file_bytes st))
  = (select pick st ++ run_events pick (read_csv csv_file_bytes))%list.
Proof.
  intros Hfiles Hmute. unfold _run_csv_process_async, run_events.
  rewrite !bind_run.
  set (st1 := snd (reset_progress _)).
  assert (H1 : select pick st1 = (select pick st ++ pick (SetOverall (NInt 0)))%list).
  { subst st1. rewrite reset_progress_select.
    rewrite (select_quiet pick _ (announce_mode_trace _)). reflexivity. }
  destruct (read_csv csv_file_bytes) as [e_parse|df].
  - unfold parse_failed. rewrite !bind_run. cbn [ret snd].
    rewrite select_set_overall, (select_quiet pick _ (flash_trace _ _)),
      (select_quiet pick _ (add_log_trace _)), H1, app_assoc. reflexivity.
  - destruct (has_column "link" df); cbn [negb].
    + destruct (len df =? 0)%Z.
      * unfold empty_table. rewrite !bind_run. cbn [ret snd].
        rewrite (select_quiet pick _ (flash_trace _ _)),
          (select_quiet pick _ (add_log_trace _)), H1, app_nil_r. reflexivity.
      * rewrite process_rows_select, H1 by assumption.
        rewrite <- !app_assoc. reflexivity.
    + unfold missing_link. rewrite !bind_run. cbn [ret snd].
      rewrite select_set_overall, (select_quiet pick _ (flash_trace _ _)),
        (select_quiet pick _ (add_log_trace _)), H1, app_assoc. reflexivity.
Qed.

Lemma completed_result total n (st : State W) : fst (completed total n st) = true.
Proof. unfold completed. rewrite !bind_run. reflexivity. Qed.

Lemma fatal_result e (st : State W) : fst (fatal e st) = false.
Proof. unfold fatal. rewrite !bind_run. reflexivity. Qed.

Lemma process_rows_result ready df (st : State W) :
  fst (process_rows ready df st)
  = match first_fault (len df) (iterrows df) with
    | None => true
    | Some _ => false
    end.
Proof.
  unfold process_rows. rewrite !bind_run.
  set (started := snd (add_log _ st)).
  pose proof (csv_loop_result (columns df) (len df) ready (iterrows df) 0%Z started)
    as Hres.
  destruct (fst (csv_loop _ _ _ _ _ started)) as [e|n]; rewrite Hres.
  - apply fatal_result.
  - apply completed_result.
Qed.

(** The value the run returns. *)
Lemma run_result csv_file_bytes (st : State W) :
  fst (_run_csv_process_async csv_file_bytes st)
  = match run_outcome (read_csv csv_file_bytes) with
    | ParseFailed | Faulted _ => false
    | EmptyTable | Completed _ => true
    end.
Proof.
  unfold _run_csv_process_async, run_outcome. rewrite !bind_run.
  destruct (read_csv csv_file_bytes) as [e_parse|df].
  - unfold parse_failed. rewrite !bind_run. reflexivity.
  - destruct (has_column "link" df); cbn [negb].
    + destruct (len df =? 0)%Z.
      * unfold empty_table. rewrite !bind_run. reflexivity.
      * rewrite process_rows_result.
        destruct (first_fault _ _); reflexivity.
    + unfold missing_link. rewrite !bind_run. reflexivity.
Qed.

(** *** The session and the flashed messages *)

Lemma add_log_overall message : preserves overall (add_log message).
Proof.
  intros st. rewrite add_log_run. apply session_add_log_overall.
Qed.

Lemma flash_overall message category : preserves overall (flash message category).
Proof. intros st. reflexivity. Qed.

Lemma emit_overall e : preserves overall (emit e).
Proof. intros st. reflexivity. Qed.

Lemma add_log_flashes message : preserves flashes (add_log message).
Proof. intros st. rewrite add_log_run. reflexivity. Qed.

Lemma upd_session_flashes f : preserves flashes (upd_session f).
Proof. intros st. reflexivity. Qed.

Lemma emit_flashes e : preserves flashes (emit e).
Proof. intros st. reflexivity. Qed.

Lemma ask_flashes {A} (call : W -> A * W) : preserves flashes (ask call).
Proof. intros st. unfold ask. destruct (call (world st)). reflexivity. Qed.

Lemma set_overall_flashes p : preserves flashes (set_overall p).
Proof. intros st. reflexivity. Qed.

Lemma reset_progress_flashes : preserves flashes reset_progress.
Proof. intros st. reflexivity. Qed.

Lemma flash_flashes message category (st : State W) :
  flashes (snd (flash message category st)) = (flashes st ++ [(category, message)])%list.
Proof. reflexivity. Qed.

Lemma add_log_newest message (st : State W) :
  newest_log (snd (add_log message st))
  = Some (log_line (fst (strftime (world st))) message).
Proof.
  rewrite add_log_run. unfold newest_log, logs_list. cbn [snd session].
  rewrite session_add_log_logs. reflexivity.
Qed.

Lemma flash_newest message category : preserves newest_log (flash message category).
Proof. intros st. reflexivity. Qed.

Lemma set_overall_newest p : preserves newest_log (set_overall p).
Proof. intros st. reflexivity. Qed.

Hint Resolve add_log_overall flash_overall emit_overall add_log_flashes
  upd_session_flashes emit_flashes set_overall_flashes reset_progress_flashes
  flash_newest set_overall_newest : quiet.
Hint Resolve @ask_flashes : quiet.

Lemma announce_mode_flashes ready (st : State W) :
  flashes (snd (announce_mode ready st)) = (flashes st ++ mode_notice ready)%list.
Proof.
  unfold announce_mode, mode_notice. destruct ready; cbn [negb].
  - rewrite app_nil_r. reflexivity.
  - rewrite bind_run, flash_flashes, add_log_flashes. reflexivity.
Qed.

(** ** The session log *)

(** C10.  After a call to [add_log] the log list starts with the new
    entry, followed by the 99 newest of the entries it held before: it
    never holds more than 100 entries, the oldest are the ones dropped. *)
Theorem add_log_keeps_newest_100 (message : string) (st : State W) :
  let st' := snd (add_log message st) in
  let log_entry := log_line (fst (strftime (world st))) message in
  logs (session st') = Some (log_entry :: firstn 99 (logs_list (session st)))
  /\ (length (logs_list (session st')) <= 100)%nat.
Proof.
  cbv zeta. rewrite add_log_run. unfold logs_list. cbn [snd session].
  rewrite session_add_log_logs. split; [reflexivity|].
  apply firstn_le_length.
Qed.

(** ** The publisher *)

Lemma client_ready_false (st : State W) :
  client_ready st = false <->
  session_active (session st) <> Some true
  \/ telethon_client st = None
  \/ is_connected (world st) = false.
Proof.
  unfold client_ready.
  destruct (session_active (session st)) as [[|]|];
    destruct (telethon_client st) as [[]|];
    destruct (is_connected (world st)); split; intros H;
    try reflexivity; try discriminate; auto;
    try (left; discriminate);
    try (destruct H as [H|[H|H]]; congruence).
Qed.

(** C9.  When the session is not marked active, or there is no client,
    or the client is not connected (the guard of line 126),
    [_upload_file_async] returns [False] at once: it logs and flashes the
    not-connected error, and neither calls [send_file] nor touches the
    upload progress; the only outside call is the clock reading of
    [add_log]. *)
Theorem upload_refused_when_not_connected (filepath caption : string) (st : State W) :
  session_active (session st) <> Some true
  \/ telethon_client st = None
  \/ is_connected (world st) = false ->
  let r := _upload_file_async filepath caption st in
  fst r = false
  /\ trace (snd r) = trace st
  /\ world (snd r) = snd (strftime (world st))
  /\ flashes (snd r) = (flashes st ++ [("danger", "Upload Error: Not connected.")])%list
  /\ newest_log (snd r)
     = Some (log_line (fst (strftime (world st))) "Upload Error: Not connected.")
  /\ upload_progress (session (snd r)) = upload_progress (session st).
Proof.
  intros Hoff. apply client_ready_false in Hoff. cbv zeta.
  unfold _upload_file_async. rewrite Hoff. cbn [negb].
  rewrite !bind_run. cbn [ret fst snd].
  repeat split.
  - rewrite flash_trace. apply add_log_trace.
  - rewrite add_log_run. reflexivity.
  - rewrite flash_flashes, add_log_flashes. reflexivity.
  - rewrite flash_newest. apply add_log_newest.
  - rewrite add_log_run. apply session_add_log_upload.
Qed.

(** ** Runs that stop before the loop *)

Lemma has_column_In (name : string) (df : DataFrame) :
  has_column name df = true <-> In name (columns df).
Proof.
  unfold has_column. rewrite existsb_exists. split.
  - intros (c & Hin & Heq). apply String.eqb_eq in Heq. subst c. exact Hin.
  - intros Hin. exists name. split; [exact Hin|apply String.eqb_refl].
Qed.

Lemma run_unfold csv_file_bytes (st : State W) :
  _run_csv_process_async csv_file_bytes st
  = (announce_mode (client_ready st) ;;
     reset_progress ;;
     match read_csv csv_file_bytes with
     | inl e_parse => parse_failed e_parse
     | inr dataframe =>
         if negb (has_column "link" dataframe) then missing_link
         else if (len dataframe =? 0)%Z then empty_table
         else process_rows (client_ready st) dataframe
     end) st.
Proof. reflexivity. Qed.

Lemma reset_progress_overall (st : State W) :
  overall (snd (reset_progress st)) = Some (NInt 0).
Proof. reflexivity. Qed.

Lemma reset_progress_trace (st : State W) :
  trace (snd (reset_progress st)) = (trace st ++ [SetOverall (NInt 0)])%list.
Proof. reflexivity. Qed.

(** C6.  A parsed table without a column named exactly [link] makes the
    run fail: it returns [False], the only effects are the two progress
    assignments 0 and -1 (nothing is fetched or uploaded), the progress is
    left at -1, and the missing-column error is logged and flashed. *)
Theorem missing_link_column_fails (csv_file_bytes : bytes) (df : DataFrame)
    (st : State W) :
  read_csv csv_file_bytes = inr df ->
  ~ In "link" (columns df) ->
  let r := _run_csv_process_async csv_file_bytes st in
  fst r = false
  /\ trace (snd r) = (trace st ++ [SetOverall (NInt 0); SetOverall (NInt (-1))])%list
  /\ overall (snd r) = Some (NInt (-1))
  /\ flashes (snd r)
     = (flashes st ++ mode_notice (client_ready st)
        ++ [("danger", "CSV Error: CSV file must contain a 'link' column.")])%list
  /\ logged_last "CSV Error: CSV file must contain a 'link' column (lowercase)." (snd r).
Proof.
  intros Hparse Hlink. cbv zeta.
  assert (Hcol : has_column "link" df = false).
  { destruct (has_column "link" df) eqn:E; [|reflexivity].
    apply has_column_In in E. contradiction. }
  rewrite run_unfold, Hparse, Hcol. cbn [negb].
  unfold missing_link. rewrite !bind_run. cbn [ret fst snd].
  repeat split.
  - cbn [set_overall]. unfold set_overall at 1. rewrite bind_run.
    unfold emit at 1. cbn [snd trace].
    rewrite upd_session_trace, flash_trace, add_log_trace, reset_progress_trace,
      announce_mode_trace, <- app_assoc. reflexivity.
  - rewrite set_overall_flashes, flash_flashes, add_log_flashes,
      reset_progress_flashes, announce_mode_flashes, <- app_assoc. reflexivity.
  - eexists. rewrite set_overall_newest, flash_newest. apply add_log_newest.
Qed.

(** C5, as the code has it.  A parsed table with a [link] column and no
    row is a successful run that does nothing: it returns [True], its only
    effect is the initial progress assignment 0, the progress stays 0 and
    never becomes -1, and the empty-file notice is logged and flashed as
    information. *)
Theorem header_only_manifest_succeeds (csv_file_bytes : bytes) (df : DataFrame)
    (st : State W) :
  read_csv csv_file_bytes = inr df ->
  In "link" (columns df) ->
  rows df = [] ->
  let r := _run_csv_process_async csv_file_bytes st in
  fst r = true
  /\ trace (snd r) = (trace st ++ [SetOverall (NInt 0)])%list
  /\ overall (snd r) = Some (NInt 0)
  /\ flashes (snd r)
     = (flashes st ++ mode_notice (client_ready st)
        ++ [("info", "CSV Info: File is empty.")])%list
  /\ logged_last "CSV Info: The CSV file is empty (no data rows)." (snd r).
Proof.
  intros Hparse Hlink Hrows. cbv zeta.
  apply has_column_In in Hlink.
  assert (Hlen : (len df =? 0)%Z = true) by (unfold len; rewrite Hrows; reflexivity).
  rewrite run_unfold, Hparse, Hlink, Hlen. cbn [negb].
  unfold empty_table. rewrite !bind_run. cbn [ret fst snd].
  repeat split.
  - rewrite flash_trace, add_log_trace, reset_progress_trace, announce_mode_trace.
    reflexivity.
  - rewrite flash_overall, add_log_overall. apply reset_progress_overall.
  - rewrite flash_flashes, add_log_flashes, reset_progress_flashes,
      announce_mode_flashes, <- app_assoc. reflexivity.
  - eexists. rewrite flash_newest. apply add_log_newest.
Qed.

(** ** The progress indicator *)

(** The progress of the items, then 100, is a non-decreasing sequence
    that starts above the progress of the item before. *)
Lemma progress_sorted_from (n : Z) (m : nat) (k : Z) :
  (0 < n)%Z -> (1 <= k)%Z -> (k + Z.of_nat m = n + 1)%Z ->
  Sorted Qle (map (fun j => percent j n) (count_from k m) ++ [100])%list
  /\ HdRel Qle (percent (k - 1) n)
       (map (fun j => percent j n) (count_from k m) ++ [100])%list.
Proof.
  intros Hn. revert k. induction m as [|m IH]; intros k Hk1 Hk; simpl.
  - split; [repeat constructor|]. constructor.
    replace (k - 1)%Z with n by lia.
    rewrite percent_full by lia. apply Qle_refl.
  - destruct (IH (k + 1)%Z) as [Hs Hh]; [lia|lia|].
    replace (k + 1 - 1)%Z with k in Hh by lia.
    split.
    + constructor; assumption.
    + constructor. apply percent_le; [assumption|lia].
Qed.

Lemma progress_sorted (n : Z) :
  (0 < n)%Z ->
  Sorted Qle (0 :: map (fun j => percent j n) (item_numbers n) ++ [100])%list.
Proof.
  intros Hn. unfold item_numbers.
  destruct (progress_sorted_from n (Z.to_nat n) 1 Hn) as [Hs Hh]; [lia|lia|].
  constructor; [exact Hs|].
  change (1 - 1)%Z with 0%Z in Hh. rewrite percent_zero in Hh. exact Hh.
Qed.

Lemma item_numbers_range (n k : Z) : In k (item_numbers n) -> (1 <= k <= n)%Z.
Proof.
  unfold item_numbers. intros H.
  assert (G : forall m j, In k (count_from j m) -> (j <= k < j + Z.of_nat m)%Z).
  { induction m as [|m IH]; intros j; [contradiction|].
    cbn [count_from]. intros [<-|Hin]; [lia|]. apply IH in Hin. lia. }
  apply G in H. lia.
Qed.

(** The rows of a table with default labels: none makes lines 200-201
    raise, and the row at position [i] gets the progress of item
    [i + 1]. *)
Lemma default_no_fault (total i : Z) (rs : list (list cell)) :
  (0 <= i)%Z -> (i + Z.of_nat (length rs) <= total)%Z ->
  first_fault total (labelled_from i rs) = None.
Proof.
  revert i. induction rs as [|row rs IH]; intros i Hi Hlen; [reflexivity|].
  cbn [labelled_from first_fault]. cbn [length] in Hlen.
  rewrite item_start_position by lia. apply IH; lia.
Qed.

Lemma default_rows_progress cols (total i : Z) (rs : list (list cell)) :
  (0 <= i)%Z -> (i + Z.of_nat (length rs) <= total)%Z ->
  rows_events progress_pick cols total (labelled_from i rs)
  = map (fun k => NFloat (Finite (percent k total))) (count_from (i + 1) (length rs)).
Proof.
  revert i. induction rs as [|row rs IH]; intros i Hi Hlen; [reflexivity|].
  cbn [labelled_from rows_events length count_from map]. cbn [length] in Hlen.
  rewrite item_start_position by lia. rewrite IH by lia.
  unfold item_events. cbn [progress_pick].
  destruct (link_of cols row); reflexivity.
Qed.

Lemma rows_progress_floats cols total (items : list (label * list cell)) :
  exists vs, rows_events progress_pick cols total items = map NFloat vs.
Proof.
  induction items as [|[index row] items [vs IH]]; [exists []; reflexivity|].
  cbn [rows_events].
  destruct (item_start total index) as [e|[item_num p]] eqn:E;
    [exists []; reflexivity|].
  destruct (item_start_float _ _ _ _ E) as [x ->].
  exists (x :: vs). rewrite IH. unfold item_events. cbn [progress_pick].
  destruct (link_of cols row); reflexivity.
Qed.

Lemma rows_fetched cols total (items : list (label * list cell)) :
  first_fault total items = None ->
  rows_events fetch_pick cols total items = links_in cols (map snd items).
Proof.
  induction items as [|[index row] items IH]; [reflexivity|].
  cbn [first_fault rows_events map snd].
  destruct (item_start total index) as [e|[item_num p]]; [discriminate|].
  intros H. rewrite (IH H). unfold links_in, item_events.
  cbn [fetch_pick flat_map app]. destruct (link_of cols row); reflexivity.
Qed.

Lemma rows_published cols total (items : list (label * list cell)) :
  rows_events publish_pick cols total items = [].
Proof.
  induction items as [|[index row] items IH]; [reflexivity|].
  cbn [rows_events]. destruct (item_start total index) as [e|[item_num p]];
    [reflexivity|].
  rewrite IH. unfold item_events. cbn [publish_pick].
  destruct (link_of cols row); reflexivity.
Qed.

Lemma labelled_from_rows (i : Z) (rs : list (list cell)) :
  map snd (labelled_from i rs) = rs.
Proof.
  revert i. induction rs as [|row rs IH]; intros i; [reflexivity|].
  cbn [labelled_from map snd]. rewrite IH. reflexivity.
Qed.

Lemma default_labels_length (df : DataFrame) :
  length (map snd (rows df)) = length (rows df).
Proof. apply length_map. Qed.

Lemma default_labels_no_fault (df : DataFrame) :
  has_default_labels df -> first_fault (len df) (iterrows df) = None.
Proof.
  intros Hdef. unfold iterrows. rewrite Hdef. apply default_no_fault; [lia|].
  rewrite default_labels_length. unfold len. lia.
Qed.

Lemma default_labels_progress (df : DataFrame) :
  has_default_labels df ->
  rows_events progress_pick (columns df) (len df) (iterrows df)
  = map (fun k => NFloat (Finite (percent k (len df)))) (item_numbers (len df)).
Proof.
  intros Hdef. unfold has_default_labels in Hdef. unfold iterrows.
  rewrite Hdef at 1. unfold default_labels. rewrite default_rows_progress.
  - rewrite default_labels_length. unfold item_numbers, len.
    rewrite Nat2Z.id. reflexivity.
  - lia.
  - rewrite default_labels_length. unfold len. lia.
Qed.

Lemma progress_pick_blind : blind_to_files progress_pick.
Proof. split; reflexivity. Qed.

Lemma fetch_pick_blind : blind_to_files fetch_pick.
Proof. split; reflexivity. Qed.

Lemma publish_pick_blind : blind_to_files publish_pick.
Proof. split; reflexivity. Qed.

Lemma completed_overall total n (st : State W) :
  overall (snd (completed total n st)) = Some (NInt 100).
Proof. unfold completed. rewrite !bind_run. reflexivity. Qed.

Lemma fatal_overall e (st : State W) :
  overall (snd (fatal e st)) = Some (NInt (-1)).
Proof. unfold fatal. rewrite !bind_run. reflexivity. Qed.

Lemma process_rows_overall ready df (st : State W) :
  overall (snd (process_rows ready df st))
  = Some (NInt match first_fault (len df) (iterrows df) with
               | None => 100
               | Some _ => -1
               end).
Proof.
  unfold process_rows. rewrite !bind_run.
  set (started := snd (add_log _ st)).
  pose proof (csv_loop_result (columns df) (len df) ready (iterrows df) 0%Z started)
    as Hres.
  destruct (fst (csv_loop _ _ _ _ _ started)) as [e|n]; rewrite Hres.
  - apply fatal_overall.
  - apply completed_overall.
Qed.

Lemma run_final_overall csv_file_bytes (st : State W) :
  overall (snd (_run_csv_process_async csv_file_bytes st))
  = Some (NInt match run_outcome (read_csv csv_file_bytes) with
               | ParseFailed | Faulted _ => -1
               | EmptyTable => 0
               | Completed _ => 100
               end).
Proof.
  rewrite run_unfold, !bind_run. unfold run_outcome.
  destruct (read_csv csv_file_bytes) as [e_parse|df].
  - unfold parse_failed. rewrite !bind_run. reflexivity.
  - destruct (has_column "link" df); cbn [negb].
    + destruct (len df =? 0)%Z.
      * unfold empty_table. rewrite !bind_run. cbn [ret snd].
        rewrite flash_overall, add_log_overall, reset_progress_overall. reflexivity.
      * rewrite process_rows_overall.
        destruct (first_fault _ _); reflexivity.
    + unfold missing_link. rewrite !bind_run. reflexivity.
Qed.

Lemma rows_not_empty (df : DataFrame) : rows df <> [] <-> (len df =? 0)%Z = false.
Proof.
  unfold len. rewrite Z.eqb_neq. destruct (rows df); cbn [length]; split;
    intros H; try lia; try discriminate; contradiction.
Qed.

(** C1, as the code has it.  The values assigned to the overall progress
    during a run are the integer 0 first; then, on a parse error or a
    missing [link] column, the integer -1 and nothing more; on an empty
    table nothing more; otherwise one float for every row the loop
    starts, then the integer 100 when the loop ends, or the integer -1
    when an exception of lines 200-201 ends it; and the session keeps
    the last value assigned.  When the rows carry the default labels the
    loop never raises, and the float of item k of n is the double
    [(k / n) * 100] (the quotient rounded, its product by 100 rounded
    again): it lies between 0 and 100, within two roundings of
    [100 * k / n], and the sequence 0, the floats, 100 is
    non-decreasing. *)
Theorem progress_of_a_run (csv_file_bytes : bytes) (st : State W) :
  let r := _run_csv_process_async csv_file_bytes st in
  exists ps : list number,
    progress_writes (trace (snd r)) = (progress_writes (trace st) ++ NInt 0 :: ps)%list
    /\ overall (snd r) = Some (last ps (NInt 0))
    /\ match run_outcome (read_csv csv_file_bytes) with
       | ParseFailed => ps = [NInt (-1)] /\ fst r = false
       | EmptyTable => ps = [] /\ fst r = true
       | Faulted _ =>
           fst r = false /\ exists vs, ps = (map NFloat vs ++ [NInt (-1)])%list
       | Completed _ =>
           fst r = true /\ exists vs, ps = (map NFloat vs ++ [NInt 100])%list
       end
    /\ forall df,
         read_csv csv_file_bytes = inr df ->
         In "link" (columns df) ->
         rows df <> [] ->
         has_default_labels df ->
         let n := len df in
         run_outcome (read_csv csv_file_bytes) = Completed n
         /\ ps = (map (fun k => NFloat (Finite (percent k n))) (item_numbers n)
                  ++ [NInt 100])%list
         /\ Forall (fun k =>
                      0 <= percent k n <= 100
                      /\ Qabs (percent k n - 100 * inject_Z k / inject_Z n)
                         <= 100 * inject_Z k / inject_Z n * 2 ^ (-51) + 2 ^ (-1067))
              (item_numbers n)
         /\ Sorted Qle (0 :: map (fun k => percent k n) (item_numbers n) ++ [100])%list.
Proof.
  cbv zeta.
  pose proof (run_select progress_pick csv_file_bytes st progress_pick_blind
                (or_intror (fun _ _ => eq_refl))) as Hsel.
  pose proof (run_final_overall csv_file_bytes st) as Hfin.
  pose proof (run_result csv_file_bytes st) as Hres.
  unfold select in Hsel. fold (progress_writes (trace st)) in Hsel.
  unfold progress_writes at 1. rewrite Hsel, Hfin, Hres. clear Hsel Hfin Hres.
  unfold run_events, run_outcome.
  destruct (read_csv csv_file_bytes) as [e_parse|df].
  { exists [NInt (-1)].
    split; [reflexivity|]. split; [reflexivity|]. split; [split; reflexivity|].
    intros df' H. discriminate. }
  destruct (has_column "link" df) eqn:Hcol; cbn [negb].
  2:{ exists [NInt (-1)].
      split; [reflexivity|]. split; [reflexivity|]. split; [split; reflexivity|].
      intros df' H Hlink. injection H as <-. apply has_column_In in Hlink.
      congruence. }
  destruct (len df =? 0)%Z eqn:Hlen.
  { exists [].
    split; [reflexivity|]. split; [reflexivity|]. split; [split; reflexivity|].
    intros df' H _ Hrows. injection H as <-. apply rows_not_empty in Hrows.
    congruence. }
  unfold loop_events.
  destruct (rows_progress_floats (columns df) (len df) (iterrows df)) as [vs Hvs].
  exists (rows_events progress_pick (columns df) (len df) (iterrows df)
          ++ [NInt match first_fault (len df) (iterrows df) with
                   | None => 100
                   | Some _ => -1
                   end])%list.
  split; [reflexivity|]. split; [rewrite last_last; destruct (first_fault _ _); reflexivity|].
  split.
  - rewrite Hvs. destruct (first_fault _ _); (split; [reflexivity|]); exists vs; reflexivity.
  - intros df' H _ _ Hdef. injection H as <-.
    apply Z.eqb_neq in Hlen.
    assert (Hpos : (0 < len df)%Z) by (unfold len in *; lia).
    rewrite (default_labels_no_fault df Hdef), (default_labels_progress df Hdef).
    split; [reflexivity|]. split; [reflexivity|]. split.
    + apply Forall_forall. intros k Hk. apply item_numbers_range in Hk.
      split; [apply percent_bounds; lia|apply percent_close; lia].
    + apply progress_sorted, Hpos.
Qed.

(** ** Rows of the table *)

Lemma link_of_blank (cols : list string) (row_data : list cell) :
  blank_link cols row_data <-> link_of cols row_data = None.
Proof.
  unfold blank_link, link_of, Py.truthy.
  destruct (series_get cols row_data "link") as [[s| | | |]|];
    try (split; [reflexivity|intros _ s' H; discriminate]).
  destruct (String.eqb_spec (Py.strip s) ""); cbn [negb]; split.
  - reflexivity.
  - intros _ s' H. injection H as <-. assumption.
  - intros H. exfalso. apply n. apply H. reflexivity.
  - discriminate.
Qed.

Lemma labelled_from_In (i : Z) (index : label) (row : list cell) (rs : list (list cell)) :
  In (index, row) (labelled_from i rs) ->
  exists k, index = LInt (k - 1) /\ In row rs
            /\ In k (count_from (i + 1) (length rs)).
Proof.
  revert i. induction rs as [|r rs IH]; intros i; [contradiction|].
  cbn [labelled_from length count_from]. intros [Heq|Hin].
  - injection Heq as <- <-. exists (i + 1)%Z.
    replace (i + 1 - 1)%Z with i by lia. repeat split; left; reflexivity.
  - apply IH in Hin as (k & Hk & Hrow & Hnum). exists k.
    repeat split; [exact Hk|right; exact Hrow|right; exact Hnum].
Qed.

Lemma labelled_from_length (i : Z) (rs : list (list cell)) :
  length (labelled_from i rs) = length rs.
Proof.
  rewrite <- (labelled_from_rows i rs) at 2. symmetry. apply length_map.
Qed.

(** The rows that follow a row of a table with default labels carry the
    positions that follow its own. *)
Lemma labelled_from_split (j i : Z) (row : list cell) (rs : list (list cell))
    (before rest : list (label * list cell)) :
  labelled_from j rs = (before ++ (LInt i, row) :: rest)%list ->
  i = (j + Z.of_nat (length before))%Z
  /\ rest = labelled_from (i + 1) (map snd rest)
  /\ length rs = (length before + 1 + length rest)%nat.
Proof.
  revert j rs. induction before as [|b before IH]; intros j rs H.
  - destruct rs as [|r rs]; [discriminate|].
    cbn [labelled_from app] in H. injection H as <- _ <-.
    rewrite labelled_from_rows. cbn [length]. repeat split; [lia|].
    rewrite labelled_from_length. lia.
  - destruct rs as [|r rs]; [discriminate|].
    cbn [labelled_from app] in H. injection H as _ H.
    apply IH in H as (Hi & Hrest & Hlen). cbn [length].
    repeat split; [lia|exact Hrest|lia].
Qed.

Lemma run_progress_writes csv_file_bytes (df : DataFrame) (st : State W) :
  read_csv csv_file_bytes = inr df ->
  In "link" (columns df) ->
  rows df <> [] ->
  has_default_labels df ->
  progress_writes (trace (snd (_run_csv_process_async csv_file_bytes st)))
  = (progress_writes (trace st)
     ++ NInt 0 :: map (fun k => NFloat (Finite (percent k (len df))))
                    (item_numbers (len df))
     ++ [NInt 100])%list.
Proof.
  intros Hparse Hlink Hrows Hdef.
  pose proof (run_select progress_pick csv_file_bytes st progress_pick_blind
                (or_intror (fun _ _ => eq_refl))) as Hsel.
  unfold select in Hsel. unfold progress_writes. rewrite Hsel.
  unfold run_events, loop_events. rewrite Hparse.
  apply has_column_In in Hlink. rewrite Hlink. cbn [negb].
  apply rows_not_empty in Hrows. rewrite Hrows.
  rewrite (default_labels_no_fault df Hdef), (default_labels_progress df Hdef).
  reflexivity.
Qed.

Lemma run_fetched csv_file_bytes (df : DataFrame) (st : State W) :
  read_csv csv_file_bytes = inr df ->
  In "link" (columns df) ->
  rows df <> [] ->
  first_fault (len df) (iterrows df) = None ->
  fetched (trace (snd (_run_csv_process_async csv_file_bytes st)))
  = (fetched (trace st) ++ valid_links df)%list.
Proof.
  intros Hparse Hlink Hrows Hfault.
  pose proof (run_select fetch_pick csv_file_bytes st fetch_pick_blind
                (or_intror (fun _ _ => eq_refl))) as Hsel.
  unfold select in Hsel. unfold fetched. rewrite Hsel.
  unfold run_events, loop_events. rewrite Hparse.
  apply has_column_In in Hlink. rewrite Hlink. cbn [negb].
  apply rows_not_empty in Hrows. rewrite Hrows.
  rewrite (rows_fetched _ _ _ Hfault). cbn [fetch_pick app].
  rewrite !app_nil_r. reflexivity.
Qed.

Lemma run_completes csv_file_bytes (df : DataFrame) (st : State W) :
  read_csv csv_file_bytes = inr df ->
  In "link" (columns df) ->
  rows df <> [] ->
  first_fault (len df) (iterrows df) = None ->
  fst (_run_csv_process_async csv_file_bytes st) = true
  /\ overall (snd (_run_csv_process_async csv_file_bytes st)) = Some (NInt 100).
Proof.
  intros Hparse Hlink Hrows Hfault.
  rewrite run_result, run_final_overall. unfold run_outcome. rewrite Hparse.
  apply has_column_In in Hlink. rewrite Hlink. cbn [negb].
  apply rows_not_empty in Hrows. rewrite Hrows, Hfault. split; reflexivity.
Qed.

(** X26.  A row of a table with default labels whose [link] cell is not
    a string, or is blank once trimmed, is skipped: the loop body assigns
    the progress of the row, logs the skip and does nothing else (no
    request, no upload, no flashed failure, the count of successes
    unchanged).  The row still counts: the run assigns the progress of
    every item number 1, ..., n, the skipped row's among them, and
    requests the links of the other rows only. *)
Theorem blank_link_row_is_skipped (csv_file_bytes : bytes) (df : DataFrame)
    (index : label) (row_data : list cell) (is_client_ready : bool)
    (successful_uploads : Z) (st_item st : State W) :
  read_csv csv_file_bytes = inr df ->
  In "link" (columns df) ->
  has_default_labels df ->
  In (index, row_data) (iterrows df) ->
  blank_link (columns df) row_data ->
  let item := csv_item (columns df) (len df) is_client_ready successful_uploads
                index row_data st_item in
  let r := _run_csv_process_async csv_file_bytes st in
  (exists k,
      index = LInt (k - 1)
      /\ In k (item_numbers (len df))
      /\ fst item = inr successful_uploads
      /\ trace (snd item)
         = (trace st_item ++ [SetOverall (NFloat (Finite (percent k (len df))))])%list
      /\ flashes (snd item) = flashes st_item
      /\ world (snd item) = snd (strftime (world st_item))
      /\ logged_last (item_tag (NInt k) ++ "/" ++ Py.str_int (len df)
                        ++ ": Skipped (empty or invalid URL in 'link' column).")
           (snd item))
  /\ progress_writes (trace (snd r))
     = (progress_writes (trace st)
        ++ NInt 0 :: map (fun k => NFloat (Finite (percent k (len df))))
                       (item_numbers (len df))
        ++ [NInt 100])%list
  /\ length (item_numbers (len df)) = length (rows df)
  /\ fetched (trace (snd r)) = (fetched (trace st) ++ valid_links df)%list
  /\ fst r = true.
Proof.
  intros Hparse Hlink Hdef Hin Hblank. cbv zeta.
  apply link_of_blank in Hblank.
  assert (Hrows : rows df <> []).
  { unfold iterrows in Hin. destruct (rows df); [contradiction|discriminate]. }
  pose proof (default_labels_no_fault df Hdef) as Hfault.
  split; [|split; [|split; [|split]]].
  - unfold iterrows in Hin. rewrite Hdef in Hin.
    apply labelled_from_In in Hin as (k & -> & _ & Hk).
    rewrite default_labels_length in Hk. cbn [Z.add] in Hk.
    assert (Hnum : In k (item_numbers (len df))).
    { unfold item_numbers, len. rewrite Nat2Z.id. exact Hk. }
    pose proof (item_numbers_range _ _ Hnum) as Hrange.
    exists k. split; [reflexivity|]. split; [exact Hnum|].
    rewrite csv_item_run, item_start_position by lia.
    replace (k - 1 + 1)%Z with k by lia. cbn [fst snd].
    unfold csv_item_body. rewrite Hblank, !bind_run. cbn [ret fst snd].
    repeat split.
    + rewrite add_log_trace, upd_session_trace. reflexivity.
    + rewrite add_log_flashes. reflexivity.
    + rewrite add_log_run. reflexivity.
    + eexists. apply add_log_newest.
  - apply run_progress_writes; assumption.
  - unfold item_numbers, len. rewrite Nat2Z.id. clear.
    generalize 1%Z. induction (length (rows df)) as [|m IH]; intros k;
      [reflexivity|]. cbn [count_from length]. rewrite IH. reflexivity.
  - apply run_fetched; assumption.
  - apply (run_completes csv_file_bytes df st); assumption.
Qed.

(** ** A fetch that fails *)

Lemma choose_filename_flashes index url : preserves flashes (choose_filename index url).
Proof. unfold choose_filename. quiet. Qed.

Hint Resolve choose_filename_flashes : quiet.

Lemma announce_download_flashes total index item_num url :
  preserves flashes (announce_download total index item_num url).
Proof. unfold announce_download. quiet. Qed.

Lemma write_chunks_flashes path chunks : preserves flashes (write_chunks path chunks).
Proof.
  induction chunks as [|chunk chunks IH]; cbn [write_chunks]; [quiet|].
  destruct chunk; [exact IH|]. quiet.
Qed.

Hint Resolve announce_download_flashes write_chunks_flashes : quiet.

Lemma download_flashes url path : preserves flashes (download url path).
Proof. unfold download. quiet. Qed.

Hint Resolve download_flashes : quiet.

Lemma csv_item_body_fetch_failed cols total ready n index item_num p row url e
    (st : State W) :
  link_of cols row = Some url ->
  fetch_of_item total index item_num p url st = Some e ->
  csv_item_body cols total ready n index item_num p row st
  = (n, snd (item_failed item_num url e
               (snd (item_download total index item_num p url st)))).
Proof.
  intros Hlink Hfetch. unfold fetch_of_item, item_download in *.
  unfold csv_item_body. rewrite Hlink, !bind_run.
  unfold process_url. rewrite !bind_run, Hfetch, bind_run. reflexivity.
Qed.

Lemma item_download_flashes total index item_num p url (st : State W) :
  flashes (snd (item_download total index item_num p url st)) = flashes st.
Proof.
  unfold item_download. rewrite download_flashes, announce_download_flashes.
  reflexivity.
Qed.

Lemma item_download_select {X} (pick : Event -> list X) total index item_num p url
    (st : State W) :
  blind_to_files pick ->
  select pick (snd (item_download total index item_num p url st))
  = (select pick st ++ pick (SetOverall p) ++ pick (HttpGet url))%list.
Proof.
  intros Hfiles. unfold item_download.
  rewrite download_select by assumption.
  rewrite (select_quiet pick _ (announce_download_trace _ _ _ _)).
  rewrite (select_quiet pick _ (upd_session_trace _)), select_set_overall.
  rewrite app_assoc. reflexivity.
Qed.

(** An HTTP error status makes [raise_for_status] raise, and what it
    raises is a [RequestException]. *)
Lemma raise_for_status_error (status_code : Z) (reason url : string) :
  (400 <= status_code < 600)%Z ->
  exists e, raise_for_status status_code reason url = Some e
            /\ is_request_exception e = true.
Proof.
  intros Hrange. unfold raise_for_status.
  destruct ((400 <=? status_code) && (status_code <? 500))%Z eqn:Hclient.
  - eexists. split; reflexivity.
  - destruct ((500 <=? status_code) && (status_code <? 600))%Z eqn:Hserver.
    + eexists. split; reflexivity.
    + apply andb_false_iff in Hclient, Hserver. lia.
Qed.

Lemma link_of_column (cols : list string) (row_data : list cell) (url : string) :
  link_of cols row_data = Some url -> In "link" cols.
Proof.
  unfold link_of, series_get. intros H.
  destruct (column_index "link" cols) as [j|] eqn:E; [clear H|discriminate].
  revert j E. induction cols as [|c cols IH]; intros j E; [discriminate|].
  cbn [column_index] in E. destruct (String.eqb_spec "link" c) as [->|Hne].
  - left. reflexivity.
  - destruct (column_index "link" cols) as [k|]; [|discriminate].
    right. apply (IH k). reflexivity.
Qed.

(** X25.  In a table with default labels, when the fetch of an item
    raises a [RequestException] (an HTTP error status among them), the
    loop body returns as usual: the failure is logged and flashed as a
    warning, nothing is uploaded and the count of successes is unchanged.
    The loop goes on with the rows that follow, none of which ends it:
    each gets its progress update and, if its link is usable, its
    request; and the run returns [True] with the progress at 100. *)
Theorem fetch_failure_is_contained (csv_file_bytes : bytes) (df : DataFrame)
    (i : Z) (row_data : list cell) (rest : list (label * list cell))
    (is_client_ready : bool) (successful_uploads : Z) (url_from_row : string)
    (e_dl : exn) (st_item st : State W) :
  read_csv csv_file_bytes = inr df ->
  has_default_labels df ->
  (exists before, iterrows df = before ++ (LInt i, row_data) :: rest)%list ->
  link_of (columns df) row_data = Some url_from_row ->
  let item_num := NInt (i + 1) in
  let p := NFloat (Finite (percent (i + 1) (len df))) in
  fetch_of_item (len df) (LInt i) item_num p url_from_row st_item = Some e_dl ->
  is_request_exception e_dl = true ->
  let item := csv_item (columns df) (len df) is_client_ready successful_uploads
                (LInt i) row_data st_item in
  let later := csv_loop (columns df) (len df) is_client_ready rest successful_uploads
                 (snd item) in
  let r := _run_csv_process_async csv_file_bytes st in
  (fst item = inr successful_uploads
   /\ flashes (snd item)
      = (flashes st_item
         ++ [("warning",
              (item_tag item_num ++ " Download failed: " ++ exn_str e_dl)%string)])%list
   /\ logged_last (item_tag item_num ++ ": Download failed for '" ++ url_from_row
                     ++ "' - " ++ exn_str e_dl) (snd item)
   /\ published (trace (snd item)) = published (trace st_item))
  /\ csv_loop (columns df) (len df) is_client_ready ((LInt i, row_data) :: rest)
       successful_uploads st_item = later
  /\ (exists n, fst later = inr n)
  /\ progress_writes (trace (snd later))
     = (progress_writes (trace (snd item))
        ++ map (fun k => NFloat (Finite (percent k (len df))))
             (count_from (i + 2) (length rest)))%list
  /\ fetched (trace (snd later))
     = (fetched (trace (snd item)) ++ links_in (columns df) (map snd rest))%list
  /\ fst r = true
  /\ overall (snd r) = Some (NInt 100).
Proof.
  intros Hparse Hdef [before Hbefore] Hurl item_num p Hfetch Hreq. cbv zeta.
  pose proof (link_of_column _ _ _ Hurl) as Hlink.
  assert (Hrows : rows df <> []).
  { unfold iterrows in Hbefore. destruct (rows df); [destruct before|]; discriminate. }
  pose proof (default_labels_no_fault df Hdef) as Hfault.
  unfold iterrows in Hbefore. rewrite Hdef in Hbefore.
  apply labelled_from_split in Hbefore as (Hi & Hrest & Hlen).
  rewrite default_labels_length in Hlen.
  assert (Hbound : (0 <= i /\ i + 1 + Z.of_nat (length rest) <= len df)%Z)
    by (unfold len; lia).
  assert (Hstart : item_start (len df) (LInt i) = inr (item_num, p))
    by (apply item_start_position; lia).
  assert (Hitem : csv_item (columns df) (len df) is_client_ready successful_uploads
                    (LInt i) row_data st_item
                  = (inr successful_uploads,
                     snd (item_failed item_num url_from_row e_dl
                            (snd (item_download (len df) (LInt i) item_num p
                                    url_from_row st_item))))).
  { rewrite csv_item_run, Hstart.
    rewrite (csv_item_body_fetch_failed _ _ _ _ _ _ _ _ _ _ _ Hurl Hfetch).
    reflexivity. }
  assert (Hrest_fault : first_fault (len df) rest = None).
  { rewrite Hrest. apply default_no_fault; [lia|]. rewrite length_map. lia. }
  rewrite Hitem. cbn [fst snd].
  split; [|split; [|split; [|split; [|split]]]].
  - split; [reflexivity|]. unfold item_failed. rewrite Hreq, bind_run.
    repeat split.
    + rewrite flash_flashes, add_log_flashes, item_download_flashes. reflexivity.
    + eexists. rewrite flash_newest. apply add_log_newest.
    + unfold published. fold (select publish_pick st_item).
      rewrite flash_trace, add_log_trace.
      fold (select publish_pick
              (snd (item_download (len df) (LInt i) item_num p url_from_row st_item))).
      rewrite item_download_select by apply publish_pick_blind.
      cbn [publish_pick]. rewrite !app_nil_r. reflexivity.
  - rewrite csv_loop_cons, Hstart.
    rewrite (csv_item_body_fetch_failed _ _ _ _ _ _ _ _ _ _ _ Hurl Hfetch).
    reflexivity.
  - match goal with
    | |- exists n, fst (csv_loop ?c ?t ?b ?it ?n0 ?s) = inr n =>
        pose proof (csv_loop_result c t b it n0 s) as Hres;
        destruct (fst (csv_loop c t b it n0 s)) as [e|n];
        [congruence|exists n; reflexivity]
    end.
  - unfold progress_writes.
    pose proof (csv_loop_select progress_pick (columns df) (len df) is_client_ready rest)
      as Hsel.
    unfold select in Hsel. rewrite Hsel.
    + rewrite Hrest at 1. rewrite default_rows_progress by (rewrite ?length_map; lia).
      rewrite length_map. replace (i + 1 + 1)%Z with (i + 2)%Z by lia. reflexivity.
    + apply progress_pick_blind.
    + right. intros ? ?. reflexivity.
  - unfold fetched.
    pose proof (csv_loop_select fetch_pick (columns df) (len df) is_client_ready rest)
      as Hsel.
    unfold select in Hsel. rewrite Hsel.
    + rewrite (rows_fetched _ _ _ Hrest_fault). reflexivity.
    + apply fetch_pick_blind.
    + right. intros ? ?. reflexivity.
  - apply (run_completes csv_file_bytes df st); assumption.
Qed.

(** ** Runs without a session *)

Lemma only_warnings_quiet {A} (m : M W A) : preserves flashes m -> only_warnings m.
Proof.
  intros H st. exists []. rewrite H, app_nil_r. split; constructor.
Qed.

Lemma only_warnings_bind {A B} (m : M W A) (f : A -> M W B) :
  only_warnings m -> (forall a, only_warnings (f a)) -> only_warnings (bind m f).
Proof.
  intros Hm Hf st. rewrite bind_run.
  destruct (Hm st) as (ws1 & E1 & F1).
  destruct (Hf (fst (m st)) (snd (m st))) as (ws2 & E2 & F2).
  exists (ws1 ++ ws2)%list. rewrite E2, E1, app_assoc.
  split; [reflexivity|]. apply Forall_app. split; assumption.
Qed.

Lemma item_failed_warns item_num url e : only_warnings (item_failed item_num url e).
Proof.
  intros st. unfold item_failed.
  destruct (is_request_exception e); rewrite bind_run, flash_flashes, add_log_flashes;
    eexists; (split; [reflexivity|]); repeat constructor.
Qed.

Lemma after_download_offline_flashes cols n item_num row name path :
  preserves flashes (after_download cols false n item_num row name path).
Proof. unfold after_download. quiet. Qed.

Lemma csv_item_body_offline_warns cols total n index item_num p row :
  only_warnings (csv_item_body cols total false n index item_num p row).
Proof.
  unfold csv_item_body.
  apply only_warnings_bind; [apply only_warnings_quiet; quiet|intros _].
  apply only_warnings_bind; [apply only_warnings_quiet; quiet|intros _].
  destruct (link_of cols row) as [url|]; [|apply only_warnings_quiet; quiet].
  unfold process_url.
  apply only_warnings_bind; [apply only_warnings_quiet; quiet|intros name].
  apply only_warnings_bind; [apply only_warnings_quiet; quiet|intros [e|]].
  - apply only_warnings_bind; [apply item_failed_warns|intros _].
    apply only_warnings_quiet. quiet.
  - apply only_warnings_quiet, after_download_offline_flashes.
Qed.

Lemma csv_item_offline_warns cols total n index row :
  only_warnings (csv_item cols total false n index row).
Proof.
  unfold csv_item. destruct (item_start total index) as [e|[item_num p]].
  - apply only_warnings_quiet. quiet.
  - apply only_warnings_bind; [apply csv_item_body_offline_warns|intros n'].
    apply only_warnings_quiet. quiet.
Qed.

Lemma csv_loop_offline_warns cols total items n :
  only_warnings (csv_loop cols total false items n).
Proof.
  revert n. induction items as [|[index row] items IH]; intros n; cbn [csv_loop].
  - apply only_warnings_quiet. quiet.
  - apply only_warnings_bind; [apply csv_item_offline_warns|intros [e|n']].
    + apply only_warnings_quiet. quiet.
    + apply IH.
Qed.

(** ** The caption of a publish *)



End Runs.

(** ** Concrete runs *)

(** The run of the three-row manifest with a session: two requests, two
    uploads, five progress assignments. *)
Lemma three_rows_run :
  let ext := example_world three_rows_lines (inr three_rows) example_web true sent_ok in
  let r := _run_csv_process_async (ext := ext) (csv_bytes three_rows_lines) online in
  fst r = true
  /\ fetched (trace (snd r)) = ["http://host/a.txt"; "http://host/c.txt"]
  /\ published (trace (snd r))
     = [("downloads_colab_ui_async/a.txt", "first");
        ("downloads_colab_ui_async/c.txt", "third")]
  /\ progress_writes (trace (snd r))
     = [NInt 0; NFloat (Finite (percent 1 3)); NFloat (Finite (percent 2 3));
        NFloat (Finite (percent 3 3)); NInt 100].
Proof. vm_compute. repeat split. Qed.

(** *** The progress of a run *)

Lemma progress_of_a_run_witness :
  let ext := example_world three_rows_lines (inr three_rows) example_web true sent_ok in
  let r := _run_csv_process_async (ext := ext) (csv_bytes three_rows_lines) online in
  fst r = true
  /\ progress_writes (trace (snd r))
     = [NInt 0; NFloat (Finite (percent 1 3)); NFloat (Finite (percent 2 3));
        NFloat (Finite (percent 3 3)); NInt 100]
  /\ overall (snd r) = Some (NInt 100)
  /\ Sorted Qle [0; percent 1 3; percent 2 3; percent 3 3; 100].
Proof.
  cbv zeta.
  destruct (progress_of_a_run
              (ext := example_world three_rows_lines (inr three_rows) example_web
                        true sent_ok)
              (csv_bytes three_rows_lines) online)
    as (ps & Hwrites & Hlast & Hout & Hdefault).
  destruct (Hdefault three_rows) as (Hdone & Hps & _ & Hsorted).
  - reflexivity.
  - left. reflexivity.
  - discriminate.
  - reflexivity.
  - rewrite Hdone in Hout. destruct Hout as [Hok _].
    rewrite Hps in Hwrites, Hlast.
    split; [exact Hok|]. split; [exact Hwrites|]. split; [exact Hlast|exact Hsorted].
Defined.

(** The first item of three gets the double [(1 / 3) * 100], which is not
    [100 / 3], nor the double nearest to it.  And the progress follows the
    labels, not the positions: on the manifest [link;caption /
    3;http://host/a.txt;first / 1;http://host/c.txt;third], whose rows are
    labelled 3 and 1, the run assigns 0, 200.0, 100.0, 100. *)
Lemma progress_is_rounded_and_follows_the_labels :
  let r := _run_csv_process_async
             (ext := example_world three_rows_lines (inr three_rows) example_web
                       true sent_ok)
             (csv_bytes three_rows_lines) online in
  let r' := _run_csv_process_async
              (ext := example_world numbered_lines (inr numbered) example_web
                        true sent_ok)
              (csv_bytes numbered_lines) online in
  nth 1 (progress_writes (trace (snd r))) (NInt 0)
  = NFloat (Finite (2345624805922133 # 70368744177664))
  /\ ~ (2345624805922133 # 70368744177664) == 100 * 1 / 3
  /\ ~ (2345624805922133 # 70368744177664) == double (100 * 1 / 3)
  /\ fst r' = true
  /\ progress_writes (trace (snd r'))
     = [NInt 0; NFloat (Finite 200); NFloat (Finite 100); NInt 100]
  /\ ~ Sorted Qle [0; 200; 100; 100].
Proof.
  cbv zeta. split; [vm_compute; reflexivity|].
  split; [vm_compute; discriminate|].
  split; [vm_compute; discriminate|].
  split; [vm_compute; reflexivity|].
  split; [vm_compute; reflexivity|].
  intros H. apply Sorted_inv in H as [H _]. apply Sorted_inv in H as [_ H].
  apply HdRel_inv in H. vm_compute in H. apply H. reflexivity.
Qed.

(** *** A fetch that fails: the 404 of the second row *)

Lemma fetch_failure_is_contained_witness :
  let ext := example_world one_missing_lines (inr one_missing) example_web true sent_ok in
  let item := csv_item (ext := ext) ["link"] 3 true 1 (LInt 1)
                [CStr "http://host/missing"] online in
  let r := _run_csv_process_async (ext := ext) (csv_bytes one_missing_lines) online in
  fst item = inr 1%Z
  /\ flashes (snd item)
     = [("warning",
         "CSV Item 2 Download failed: 404 Client Error: Not Found for url: http://host/missing")]
  /\ fetched (trace (snd (csv_loop (ext := ext) ["link"] 3 true
                            [(LInt 2, [CStr "http://host/c.txt"])] 1 (snd item))))
     = (fetched (trace (snd item)) ++ ["http://host/c.txt"])%list
  /\ fst r = true
  /\ overall (snd r) = Some (NInt 100).
Proof.
  cbv zeta.
  destruct (fetch_failure_is_contained
              (ext := example_world one_missing_lines (inr one_missing) example_web
                        true sent_ok)
              (csv_bytes one_missing_lines) one_missing 1
              [CStr "http://host/missing"] [(LInt 2, [CStr "http://host/c.txt"])]
              true 1 "http://host/missing" not_found online online)
    as ((Hcount & Hflash & _ & _) & _ & _ & _ & Hfetched & Hok & Hfinal).
  - reflexivity.
  - reflexivity.
  - exists [(LInt 0, [CStr "http://host/a.txt"])]. reflexivity.
  - reflexivity.
  - vm_compute. reflexivity.
  - reflexivity.
  - split; [exact Hcount|]. split; [exact Hflash|]. split; [exact Hfetched|].
    split; [exact Hok|exact Hfinal].
Defined.

(** C2, where the code departs from it.  The manifest [link;caption /
    ;http://host/missing;first / b;http://host/c.txt;second] has rows of
    three fields under a header of two: pandas labels them NaN and [b].
    The fetch of the first row answers 404; the failure is caught and
    flashed as a warning.  Line 200 then raises on the label of the second
    row: the second link is never requested, the run flashes the failure
    of the whole batch, leaves the progress at -1 and returns [False]. *)
Theorem fetch_failure_then_a_text_label :
  let ext := example_world half_named_lines (inr half_named) example_web true sent_ok in
  let r := _run_csv_process_async (ext := ext) (csv_bytes half_named_lines) online in
  read_csv (csv_bytes half_named_lines) = inr half_named
  /\ fst r = false
  /\ overall (snd r) = Some (NInt (-1))
  /\ fetched (trace (snd r)) = ["http://host/missing"]
  /\ progress_writes (trace (snd r)) = [NInt 0; NFloat NaN; NInt (-1)]
  /\ flashes (snd r)
     = [("warning",
         "CSV Item nan Download failed: 404 Client Error: Not Found for url: http://host/missing");
        ("danger", "CSV processing failed: " ++ cannot_add_to_str)].
Proof. vm_compute. repeat split. Qed.

(** *** A row without a link *)

Lemma blank_link_row_is_skipped_witness :
  let ext := example_world three_rows_lines (inr three_rows) example_web true sent_ok in
  let item := csv_item (ext := ext) ["link"; "caption"] 3 true 1 (LInt 1)
                [CNaN; CStr "second"] online in
  let r := _run_csv_process_async (ext := ext) (csv_bytes three_rows_lines) online in
  fst item = inr 1%Z
  /\ trace (snd item) = [SetOverall (NFloat (Finite (percent 2 3)))]
  /\ flashes (snd item) = []
  /\ progress_writes (trace (snd r))
     = [NInt 0; NFloat (Finite (percent 1 3)); NFloat (Finite (percent 2 3));
        NFloat (Finite (percent 3 3)); NInt 100]
  /\ fetched (trace (snd r)) = ["http://host/a.txt"; "http://host/c.txt"]
  /\ fst r = true.
Proof.
  cbv zeta.
  destruct (blank_link_row_is_skipped
              (ext := example_world three_rows_lines (inr three_rows) example_web
                        true sent_ok)
              (csv_bytes three_rows_lines) three_rows (LInt 1) [CNaN; CStr "second"]
              true 1 online online)
    as ((k & Hk & _ & Hcount & Htrace & Hflash & _ & _) & Hprog & _ & Hfetched & Hok).
  - reflexivity.
  - left. reflexivity.
  - reflexivity.
  - right. left. reflexivity.
  - intros s Hs. discriminate Hs.
  - assert (k = 2%Z) as -> by (injection Hk as Hk; lia).
    split; [exact Hcount|]. split; [exact Htrace|]. split; [exact Hflash|].
    split; [exact Hprog|]. split; [exact Hfetched|exact Hok].
Defined.

(** C3, where the code departs from it.  The manifest [link;caption /
    a;http://host/a.txt;first / b;;second / c;http://host/c.txt;third] has
    three rows, the second with a blank link, each of three fields under a
    header of two: pandas labels the rows [a], [b] and [c].  Line 200
    raises on the first label: no row is processed, skipped or counted,
    nothing is requested, the run flashes the failure of the whole batch,
    leaves the progress at -1 and returns [False]. *)
Theorem blank_link_row_under_text_labels :
  let ext := example_world named_rows_lines (inr named_rows) example_web true sent_ok in
  let r := _run_csv_process_async (ext := ext) (csv_bytes named_rows_lines) online in
  read_csv (csv_bytes named_rows_lines) = inr named_rows
  /\ blank_link (columns named_rows) [CNaN; CStr "second"]
  /\ fst r = false
  /\ overall (snd r) = Some (NInt (-1))
  /\ fetched (trace (snd r)) = []
  /\ progress_writes (trace (snd r)) = [NInt 0; NInt (-1)]
  /\ flashes (snd r) = [("danger", "CSV processing failed: " ++ cannot_add_to_str)]
  /\ map (fun entry => substring 22 100 entry) (logs_list (session (snd r)))
     = ["CSV processing failed: " ++ cannot_add_to_str;
        "Starting CSV processing for 3 items..."].
Proof.
  cbv zeta. split; [reflexivity|]. split; [intros s H; discriminate H|].
  vm_compute. repeat split.
Qed.

(** *** The caption of a publish *)



(** *** Tables that stop the run before the loop *)

(** The manifest [name;caption] with no data row: a header row and zero
    data rows, and the run fails with the progress at -1. *)
Lemma header_only_without_link_fails :
  let df := header_only ["name"; "caption"] in
  let ext := example_world ["name;caption"] (inr df) example_web true sent_ok in
  let r := _run_csv_process_async (ext := ext) (csv_bytes ["name;caption"]) online in
  read_csv (csv_bytes ["name;caption"]) = inr df
  /\ rows df = []
  /\ fst r = false
  /\ overall (snd r) = Some (NInt (-1))
  /\ progress_writes (trace (snd r)) = [NInt 0; NInt (-1)].
Proof. vm_compute. repeat split. Qed.

Lemma header_only_manifest_succeeds_witness :
  let df := header_only ["link"; "caption"] in
  let ext := example_world ["link;caption"] (inr df) example_web true sent_ok in
  let r := _run_csv_process_async (ext := ext) (csv_bytes ["link;caption"]) online in
  fst r = true
  /\ trace (snd r) = [SetOverall (NInt 0)]
  /\ overall (snd r) = Some (NInt 0)
  /\ flashes (snd r) = [("info", "CSV Info: File is empty.")].
Proof.
  cbv zeta.
  destruct (header_only_manifest_succeeds
              (ext := example_world ["link;caption"]
                        (inr (header_only ["link"; "caption"])) example_web true sent_ok)
              (csv_bytes ["link;caption"]) (header_only ["link"; "caption"]) online)
    as (Hok & Htrace & Hfinal & Hflash & _).
  - reflexivity.
  - left. reflexivity.
  - reflexivity.
  - split; [exact Hok|]. split; [exact Htrace|]. split; [exact Hfinal|exact Hflash].
Defined.

Lemma missing_link_column_fails_witness :
  let lines := ["Link;caption"; "http://host/a.txt;first"] in
  let df := mkFrame ["Link"; "caption"]
              (default_labels [[CStr "http://host/a.txt"; CStr "first"]]) in
  let ext := example_world lines (inr df) example_web true sent_ok in
  let r := _run_csv_process_async (ext := ext) (csv_bytes lines) online in
  fst r = false
  /\ trace (snd r) = [SetOverall (NInt 0); SetOverall (NInt (-1))]
  /\ overall (snd r) = Some (NInt (-1))
  /\ flashes (snd r) = [("danger", "CSV Error: CSV file must contain a 'link' column.")].
Proof.
  cbv zeta.
  destruct (missing_link_column_fails
              (ext := example_world ["Link;caption"; "http://host/a.txt;first"]
                        (inr (mkFrame ["Link"; "caption"]
                                (default_labels
                                   [[CStr "http://host/a.txt"; CStr "first"]])))
                        example_web true sent_ok)
              (csv_bytes ["Link;caption"; "http://host/a.txt;first"])
              (mkFrame ["Link"; "caption"]
              (default_labels [[CStr "http://host/a.txt"; CStr "first"]]))
              online)
    as (Hok & Htrace & Hfinal & Hflash & _).
  - reflexivity.
  - intros [H|[H|[]]]; discriminate H.
  - split; [exact Hok|]. split; [exact Htrace|]. split; [exact Hfinal|exact Hflash].
Defined.

(** *** An upload without a session *)

Lemma upload_refused_when_not_connected_witness :
  let ext := example_world [] (inl no_columns) example_web false sent_ok in
  let r := _upload_file_async (ext := ext) "downloads_colab_ui_async/a.txt" "first"
             offline in
  fst r = false
  /\ trace (snd r) = []
  /\ flashes (snd r) = [("danger", "Upload Error: Not connected.")].
Proof.
  cbv zeta.
  destruct (upload_refused_when_not_connected
              (ext := example_world [] (inl no_columns) example_web false sent_ok)
              "downloads_colab_ui_async/a.txt" "first" offline)
    as (Hno & Htrace & _ & Hflash & _).
  - right. left. reflexivity.
  - split; [exact Hno|]. split; [exact Htrace|exact Hflash].
Defined.

(** * Further properties of the code *)

(** ** More on the file name of a download (lines 210-214) *)

Lemma split_not_nil (sep : ascii) (s : string) : Py.split sep s <> [].
Proof.
  destruct s as [|c s]; simpl; [discriminate|].
  destruct (Ascii.eqb c sep); [discriminate|].
  destruct (Py.split sep s); discriminate.
Qed.

(** Splitting a string that has a separator at a known place. *)
Lemma split_at_separator (sep : ascii) (u w : string) :
  Py.split sep (u ++ String sep w) = (Py.split sep u ++ Py.split sep w)%list.
Proof.
  induction u as [|c u IH]; simpl.
  - rewrite Ascii.eqb_refl. reflexivity.
  - destruct (Ascii.eqb c sep); rewrite IH; [reflexivity|].
    destruct (Py.split sep u) as [|piece rest] eqn:E; [|reflexivity].
    exfalso. exact (split_not_nil sep u E).
Qed.

(** Appending text without separator extends the last piece. *)
Lemma split_append_plain (sep : ascii) (u v : string) :
  all_chars (fun c => negb (Ascii.eqb c sep)) v = true ->
  Py.split sep (u ++ v)
  = (removelast (Py.split sep u) ++ [(last (Py.split sep u) "" ++ v)%string])%list.
Proof.
  intros Hv. induction u as [|c u IH].
  - simpl. apply split_without, Hv.
  - cbn [append Py.split]. rewrite IH.
    pose proof (split_not_nil sep u) as Hne.
    destruct (Py.split sep u) as [|piece rest]; [contradiction|].
    destruct (Ascii.eqb c sep); destruct rest; reflexivity.
Qed.

Lemma last_of_split_append (sep : ascii) (u v : string) :
  all_chars (fun c => negb (Ascii.eqb c sep)) v = true ->
  Py.item_last (Py.split sep (u ++ v)) = Py.item_last (Py.split sep u) ++ v.
Proof.
  intros Hv. unfold Py.item_last.
  rewrite (split_append_plain sep u v Hv). apply last_last.
Qed.

Lemma kept_no_slash (s : string) :
  all_chars kept s = true -> all_chars (fun c => negb (Ascii.eqb c "/")) s = true.
Proof.
  apply all_chars_weaken. intros c Hc.
  destruct (kept_plain c Hc) as (Hs & _ & _). rewrite Hs. reflexivity.
Qed.

Lemma fallback_name_not_empty (now : Z) (index : label) : fallback_name now index <> "".
Proof. unfold fallback_name. discriminate. Qed.

(** No ['/'] in the text of a number. *)
Definition no_slash (c : ascii) : bool := negb (Ascii.eqb c "/").

Lemma str_int_no_slash (z : Z) : all_chars no_slash (Py.str_int z) = true.
Proof. apply kept_no_slash, str_int_kept. Qed.

Lemma zeros_no_slash (n : nat) : all_chars no_slash (zeros n) = true.
Proof. induction n as [|n IH]; [reflexivity|exact IH]. Qed.

Lemma rstrip_zeros_no_slash (s : string) :
  all_chars no_slash s = true -> all_chars no_slash (rstrip_zeros s) = true.
Proof.
  induction s as [|c s IH]; [reflexivity|].
  cbn [all_chars rstrip_zeros]. intros H. apply andb_prop in H as [Hc Hs].
  specialize (IH Hs). destruct (rstrip_zeros s) as [|c' r].
  - destruct (Ascii.eqb c "0"); [reflexivity|]. cbn [all_chars]. rewrite Hc. reflexivity.
  - cbn [all_chars] in *. rewrite Hc, IH. reflexivity.
Qed.

Lemma substring_no_slash (n m : nat) (s : string) :
  all_chars no_slash s = true -> all_chars no_slash (substring n m s) = true.
Proof.
  revert n m. induction s as [|c s IH]; intros n m H.
  - destruct n, m; reflexivity.
  - cbn [all_chars] in H. apply andb_prop in H as [Hc Hs].
    destruct n as [|n]; destruct m as [|m]; cbn [substring]; try reflexivity.
    + cbn [all_chars]. rewrite Hc. apply (IH 0%nat m Hs).
    + apply (IH n 0%nat Hs).
    + apply (IH n (S m) Hs).
Qed.

Lemma repr_positive_no_slash (x : Q) : all_chars no_slash (repr_positive x) = true.
Proof.
  unfold repr_positive. destruct (shortest_decimal x 1 16) as [d s].
  pose proof (rstrip_zeros_no_slash _ (str_int_no_slash d)) as Hdigits.
  repeat match goal with
         | |- context [if ?b then _ else _] => destruct b
         end;
    rewrite ?all_chars_app; cbn [all_chars];
    rewrite ?zeros_no_slash, ?Hdigits, ?str_int_no_slash,
      ?(substring_no_slash _ _ _ Hdigits); reflexivity.
Qed.

Lemma float_repr_no_slash (x : pyfloat) : all_chars no_slash (float_repr x) = true.
Proof.
  destruct x as [q| |[|]|]; try reflexivity.
  unfold float_repr. destruct (Qeq_bool q 0); [reflexivity|].
  destruct (is_negative q); [cbn [append all_chars]|]; apply repr_positive_no_slash.
Qed.

(** A label that line 200 accepts prints without ['/']. *)
Lemma counted_label_no_slash (index : label) (item_num : number) :
  index_plus_1 index = inr item_num -> all_chars no_slash (str_label index) = true.
Proof.
  destruct index as [z|x|[|]|t|shown]; cbn [index_plus_1 str_label]; intros H;
    try discriminate; try reflexivity.
  - apply str_int_no_slash.
  - apply float_repr_no_slash.
Qed.

Lemma filename_no_slash (now : Z) (index : label) (item_num : number) (url : string) :
  index_plus_1 index = inr item_num ->
  all_chars no_slash (filename_from_csv_url now index url) = true.
Proof.
  intros Hcounted. unfold filename_from_csv_url.
  destruct (Py.truthy (cleaned_name url)).
  - apply kept_no_slash, cleaned_name_kept.
  - unfold fallback_name. rewrite !all_chars_app, str_int_no_slash.
    rewrite (counted_label_no_slash index item_num Hcounted). reflexivity.
Qed.

(** X1.  The name under which the file of a row is stored (the label of
    the row being one that line 200 accepts) is never empty and has no
    ['/']: the last component of [os.path.join(DOWNLOAD_FOLDER_UI, name)]
    is the name itself.  The name consists of letters, digits, ['.'],
    ['_'] and ['-'] only when it comes from the URL, or from a label that
    prints with such characters.  Nothing more keeps the file inside the
    folder: the URL [http://host/..] gives the name [..]. *)
Theorem download_name_has_no_separator (now : Z) (index : label) (item_num : number)
    (url_from_row : string) :
  index_plus_1 index = inr item_num ->
  let name := filename_from_csv_url now index url_from_row in
  name <> ""
  /\ all_chars no_slash name = true
  /\ Py.basename (Py.path_join DOWNLOAD_FOLDER_UI name) = name
  /\ ((cleaned_name url_from_row = "" -> plain_label index) ->
      all_chars kept name = true)
  /\ Py.path_join DOWNLOAD_FOLDER_UI (filename_from_csv_url now index "http://host/..")
     = "downloads_colab_ui_async/..".
Proof.
  intros Hcounted. cbv zeta. split; [|split; [|split; [|split]]].
  - unfold filename_from_csv_url, Py.truthy.
    destruct (String.eqb_spec (cleaned_name url_from_row) ""); cbn [negb].
    + apply fallback_name_not_empty.
    + assumption.
  - apply (filename_no_slash now index item_num), Hcounted.
  - unfold Py.basename, Py.path_join.
    change ("/" ++ filename_from_csv_url now index url_from_row)
      with (String "/" (filename_from_csv_url now index url_from_row)).
    rewrite split_at_separator.
    rewrite (split_without "/" (filename_from_csv_url now index url_from_row))
      by apply (filename_no_slash now index item_num), Hcounted.
    unfold Py.item_last. apply last_last.
  - apply filename_kept.
  - reflexivity.
Qed.

Lemma download_name_has_no_separator_witness :
  let name := filename_from_csv_url 1714564800 (LFloat (Finite (5 # 2))) "http://host/?x" in
  name = "csv_dl_1714564800_2.5"
  /\ Py.basename (Py.path_join DOWNLOAD_FOLDER_UI name) = name.
Proof.
  cbv zeta.
  destruct (download_name_has_no_separator 1714564800 (LFloat (Finite (5 # 2)))
              (NFloat (Finite (7 # 2))) "http://host/?x")
    as (_ & _ & Hbase & _).
  - vm_compute. reflexivity.
  - split; [vm_compute; reflexivity|exact Hbase].
Defined.

(** X2.  A query string without ['/'] has no influence on the name: the
    name derived from [url?query] is the name derived from [url]. *)
Theorem query_string_is_dropped (now : Z) (index : label) (url query : string) :
  all_chars (fun c => negb (Ascii.eqb c "/")) query = true ->
  filename_from_csv_url now index (url ++ "?" ++ query)
  = filename_from_csv_url now index url.
Proof.
  intros Hq.
  assert (Hpart : url_file_part (url ++ "?" ++ query) = url_file_part url).
  { unfold url_file_part.
    change ("?" ++ query) with (String "?" query).
    rewrite (last_of_split_append "/" url (String "?" query)).
    - rewrite split_at_separator. unfold Py.item_first.
      pose proof (split_not_nil "?" (Py.item_last (Py.split "/" url))) as Hne.
      destruct (Py.split "?" (Py.item_last (Py.split "/" url))); [contradiction|].
      reflexivity.
    - cbn [all_chars]. rewrite Hq. reflexivity. }
  unfold filename_from_csv_url, cleaned_name. rewrite Hpart. reflexivity.
Qed.

Lemma query_string_is_dropped_witness :
  filename_from_csv_url 5 (LInt 0) "https://host/path/report.pdf?token=abc&v=2"
  = filename_from_csv_url 5 (LInt 0) "https://host/path/report.pdf".
Proof.
  apply (query_string_is_dropped 5 (LInt 0) "https://host/path/report.pdf"
           "token=abc&v=2").
  reflexivity.
Defined.

(** ** More on the publisher and the orchestrator *)

(** The number of calls to [send_file] so far. *)
Definition uploads_asked {W : Type} (st : State W) : Z :=
  Z.of_nat (length (published (trace st))).

(** The number of flashed messages of category [success]. *)
Definition successes (fs : list (string * string)) : Z :=
  Z.of_nat (length (filter (fun f => String.eqb (fst f) "success") fs)).

(** The chunks that line 222 writes: the non-empty ones. *)
Definition written_chunks (chunks : list bytes) : list bytes :=
  filter (fun chunk => match chunk with [] => false | _ => true end) chunks.

(** At most 100 entries in [session['logs']]. *)
Definition log_bounded {W : Type} (st : State W) : Prop :=
  (length (logs_list (session st)) <= 100)%nat.

Create HintDb logs.
Create HintDb grows.

Section MoreRuns.

Context {W : Type} {ext : Externals W}.

Local Abbreviation preserves := (@preserves W _ _) (only parsing).

Hint Resolve add_log_trace flash_trace upd_session_trace add_log_flashes
  upd_session_flashes emit_flashes set_overall_flashes : quiet.
Hint Resolve @ask_trace @ask_flashes : quiet.

Ltac quiet :=
  repeat first
    [ apply preserves_ret
    | apply preserves_bind; [|intros ?]
    | match goal with
      | |- preserves _ (if ?b then _ else _) => destruct b
      | |- preserves _ (match ?x with _ => _ end) => destruct x
      end
    | solve [auto with quiet] ].

Lemma ask_value {A} (call : W -> A * W) (st : State W) :
  fst (ask call st) = fst (call (world st)).
Proof. unfold ask. destruct (call (world st)). reflexivity. Qed.

Lemma ask_world {A} (call : W -> A * W) (st : State W) :
  world (snd (ask call st)) = snd (call (world st)).
Proof. unfold ask. destruct (call (world st)). reflexivity. Qed.

Lemma progress_callback_sync_flashes filepath current total :
  preserves flashes (progress_callback_sync filepath current total).
Proof. unfold progress_callback_sync. quiet. Qed.

Hint Resolve progress_callback_sync_flashes : quiet.

Lemma run_callbacks_flashes filepath calls :
  preserves flashes (run_callbacks filepath calls).
Proof. induction calls as [|[current total] calls IH]; simpl; quiet. Qed.

Lemma upload_failed_flash filepath e (st : State W) :
  exists f, flashes (snd (upload_failed filepath e st)) = (flashes st ++ [f])%list
            /\ fst f <> "success".
Proof.
  unfold upload_failed.
  destruct (exn_kind e); rewrite bind_run, flash_flashes, add_log_flashes;
    eexists; (split; [reflexivity|discriminate]).
Qed.

(** X3.  With a connected session, [_upload_file_async] calls [send_file]
    exactly once, with the path and the caption it was given.  It returns
    [True] exactly when [send_file] raised nothing; the upload progress is
    then 100, and -1 otherwise, whatever the progress callback stored in
    between; and it flashes one message, of category [success] exactly
    when it returns [True]. *)
Theorem upload_outcome (filepath caption : string) (st : State W) :
  client_ready st = true ->
  let r := _upload_file_async filepath caption st in
  let reply := fst (send_file filepath caption (snd (strftime (world st)))) in
  fst r = match raised reply with None => true | Some _ => false end
  /\ published (trace (snd r)) = (published (trace st) ++ [(filepath, caption)])%list
  /\ upload_progress (session (snd r)) = Some (if fst r then 100 else -1)
  /\ exists f, flashes (snd r) = (flashes st ++ [f])%list
               /\ (fst f = "success" <-> fst r = true).
Proof.
  intros Hready. cbv zeta.
  split; [|split].
  - unfold _upload_file_async. rewrite Hready. cbn [negb]. rewrite !bind_run.
    rewrite ask_value.
    replace (world (snd (emit (SendFile filepath caption) _)))
      with (snd (strftime (world st))) by (rewrite add_log_run; reflexivity).
    destruct (raised _); rewrite !bind_run; reflexivity.
  - pose proof (upload_select publish_pick filepath caption st) as Hsel.
    unfold select in Hsel. unfold published. rewrite Hsel, Hready. reflexivity.
  - unfold _upload_file_async. rewrite Hready. cbn [negb]. rewrite !bind_run.
    destruct (raised _) as [e|]; rewrite !bind_run; cbn [ret fst snd].
    + split; [reflexivity|].
      match goal with
      | |- context [upload_failed filepath e ?s] =>
          destruct (upload_failed_flash filepath e s) as (f & Hf & Hcat)
      end.
      exists f. rewrite upd_session_flashes, Hf.
      rewrite run_callbacks_flashes, ask_flashes, emit_flashes, add_log_flashes.
      split; [reflexivity|]. split; [intros H; contradiction|discriminate].
    + split; [reflexivity|].
      eexists. rewrite flash_flashes, upd_session_flashes, add_log_flashes.
      rewrite run_callbacks_flashes, ask_flashes, emit_flashes, add_log_flashes.
      split; [reflexivity|]. split; reflexivity.
Qed.

(** X4.  The progress callback of an upload writes no log line when the
    total is not positive (it then does nothing at all, so it never
    divides by zero) and when the transfer is complete; in the second
    case it stores the percentage. *)
Theorem progress_callback_is_silent (filepath : string) (current total : Z)
    (st : State W) :
  (total <= 0 \/ total <= current)%Z ->
  let r := progress_callback_sync filepath current total st in
  logs (session (snd r)) = logs (session st)
  /\ world (snd r) = world st
  /\ trace (snd r) = trace st
  /\ upload_progress (session (snd r))
     = if (0 <? total)%Z then Some (inject_Z current / inject_Z total * 100)
       else upload_progress (session st).
Proof.
  intros Hcase. cbv zeta. unfold progress_callback_sync.
  destruct (0 <? total)%Z eqn:Hpos; [|repeat split].
  apply Z.ltb_lt in Hpos.
  destruct Hcase as [Hnone|Hdone]; [lia|].
  assert (Hfull : 100 <= inject_Z current / inject_Z total * 100).
  { assert (H1 : 1 <= inject_Z current / inject_Z total).
    { apply Qle_shift_div_l; [apply inject_Z_pos, Hpos|].
      rewrite Qmult_1_l, <- Zle_Qle. exact Hdone. }
    lra. }
  assert (Hint : (100 <= int_of (inject_Z current / inject_Z total * 100))%Z).
  { unfold int_of.
    assert (H0 : Qle_bool 0 (inject_Z current / inject_Z total * 100) = true).
    { apply Qle_bool_iff. eapply Qle_trans; [|exact Hfull]. discriminate. }
    rewrite H0. change 100%Z with (Qfloor 100). apply Qfloor_resp_le, Hfull. }
  assert (Hlt : (int_of (inject_Z current / inject_Z total * 100) <? 100)%Z = false)
    by (apply Z.ltb_ge; exact Hint).
  rewrite Hlt, andb_false_r, !bind_run. repeat split.
Qed.

(** *** Successful uploads *)

Lemma upload_counts filepath caption (st : State W) :
  let r := _upload_file_async filepath caption st in
  uploads_asked (snd r) = (uploads_asked st + if client_ready st then 1 else 0)%Z
  /\ (fst r = true -> client_ready st = true).
Proof.
  cbv zeta. split.
  - pose proof (upload_select publish_pick filepath caption st) as Hsel.
    unfold select in Hsel. unfold uploads_asked, published. rewrite Hsel.
    rewrite length_app. destruct (client_ready st); cbn [publish_pick length]; lia.
  - unfold _upload_file_async. destruct (client_ready st); [reflexivity|].
    cbn [negb]. rewrite !bind_run. discriminate.
Qed.

Lemma asked_quiet {A} (m : M W A) :
  preserves trace m -> preserves uploads_asked m.
Proof. intros H st. unfold uploads_asked. rewrite H. reflexivity. Qed.

Lemma after_download_counts cols ready n item_num row name path (st : State W) :
  let r := after_download cols ready n item_num row name path st in
  (n <= fst r)%Z
  /\ (fst r - n <= uploads_asked (snd r) - uploads_asked st)%Z
  /\ (uploads_asked (snd r) - uploads_asked st <= 1)%Z.
Proof.
  cbv zeta. unfold after_download. destruct ready.
  - rewrite !bind_run. cbn [ret fst snd].
    match goal with
    | |- context [_upload_file_async path ?c ?s] =>
        destruct (upload_counts path c s) as [Hasked Hready]
    end.
    cbv zeta in Hasked, Hready. rewrite Hasked.
    rewrite !(asked_quiet _ (add_log_trace _)).
    destruct (fst (_upload_file_async _ _ _)).
    + rewrite Hready by reflexivity. lia.
    + destruct (client_ready _); lia.
  - rewrite !bind_run. cbn [ret fst snd].
    rewrite !(asked_quiet _ (add_log_trace _)). lia.
Qed.

Lemma download_asked url path : preserves uploads_asked (download url path).
Proof.
  intros st. pose proof (download_select publish_pick url path st publish_pick_blind)
    as Hsel.
  unfold select in Hsel. unfold uploads_asked, published. rewrite Hsel.
  cbn [publish_pick]. rewrite app_nil_r. reflexivity.
Qed.

Lemma csv_item_body_counts cols total ready n index item_num p row (st : State W) :
  let r := csv_item_body cols total ready n index item_num p row st in
  (n <= fst r)%Z
  /\ (fst r - n <= uploads_asked (snd r) - uploads_asked st)%Z
  /\ (uploads_asked (snd r) - uploads_asked st
      <= Z.of_nat (length (links_in cols [row])))%Z.
Proof.
  cbv zeta. unfold csv_item_body, links_in. cbn [flat_map]. rewrite !bind_run.
  assert (Hstart : forall s : State W,
             uploads_asked
               (snd (upd_session assign_modified (snd (set_overall p s))))
             = uploads_asked s).
  { intros s. unfold uploads_asked, published.
    fold (select publish_pick s).
    rewrite upd_session_trace.
    fold (select publish_pick (snd (set_overall p s))).
    rewrite select_set_overall. cbn [publish_pick]. rewrite app_nil_r. reflexivity. }
  destruct (link_of cols row) as [url|].
  - unfold process_url. rewrite !bind_run.
    destruct (fst (download _ _ _)) as [e|].
    + rewrite bind_run. cbn [ret fst snd length app].
      rewrite (asked_quiet _ (item_failed_trace _ _ _)), download_asked.
      rewrite (asked_quiet _ (announce_download_trace _ _ _ _)), Hstart. lia.
    + match goal with
      | |- context [after_download cols ready n ?k row ?name ?path ?s] =>
          destruct (after_download_counts cols ready n k row name path s)
            as (H1 & H2 & H3)
      end.
      cbv zeta in H1, H2, H3. revert H1 H2 H3.
      rewrite download_asked, (asked_quiet _ (announce_download_trace _ _ _ _)), Hstart.
      cbn [length app]. lia.
  - rewrite bind_run. cbn [ret fst snd length].
    rewrite (asked_quiet _ (add_log_trace _)), Hstart. lia.
Qed.

Lemma links_in_cons cols row rs :
  links_in cols (row :: rs) = (links_in cols [row] ++ links_in cols rs)%list.
Proof. unfold links_in. cbn [flat_map]. rewrite app_nil_r. reflexivity. Qed.

Lemma csv_loop_counts cols total ready items n (st : State W) :
  let r := csv_loop cols total ready items n st in
  (forall k, fst r = inr k ->
             (n <= k)%Z /\ (k - n <= uploads_asked (snd r) - uploads_asked st)%Z)
  /\ (0 <= uploads_asked (snd r) - uploads_asked st
      <= Z.of_nat (length (links_in cols (map snd items))))%Z.
Proof.
  cbv zeta. revert n st.
  induction items as [|[index row] items IH]; intros n st.
  - cbn. split; [intros k H; injection H as <-|]; lia.
  - rewrite csv_loop_cons. cbn [map snd]. rewrite links_in_cons, length_app.
    destruct (item_start total index) as [e|[item_num p]].
    + cbn [fst snd]. split; [intros k H; discriminate H|]. lia.
    + destruct (csv_item_body_counts cols total ready n index item_num p row st)
        as (H1 & H2 & H3).
      destruct (IH (fst (csv_item_body cols total ready n index item_num p row st))
                  (snd (csv_item_body cols total ready n index item_num p row st)))
        as (H4 & H5).
      cbv zeta in H1, H2, H3. split; [|lia].
      intros k Hk. destruct (H4 k Hk). lia.
Qed.

Lemma links_in_length cols rs : (length (links_in cols rs) <= length rs)%nat.
Proof.
  induction rs as [|row rs IH]; [apply Nat.le_refl|].
  rewrite links_in_cons, length_app. unfold links_in at 1. cbn [flat_map length].
  destruct (link_of cols row); cbn [length app]; lia.
Qed.

(** X5.  The loop counts an item as a successful upload only when it
    called [send_file] for it, and it calls [send_file] at most once for
    each row with a usable link: the count never decreases, its increase
    is at most the number of calls, and the number of calls is at most the
    number of usable links (also when an exception ends the loop). *)
Theorem successes_need_uploads (cols : list string) (total_csv_items : Z)
    (is_client_ready : bool) (items : list (label * list cell))
    (successful_uploads : Z) (st : State W) :
  let r := csv_loop cols total_csv_items is_client_ready items successful_uploads st in
  (forall counted, fst r = inr counted ->
     (successful_uploads <= counted)%Z
     /\ (counted - successful_uploads <= uploads_asked (snd r) - uploads_asked st)%Z)
  /\ (0 <= uploads_asked (snd r) - uploads_asked st
      <= Z.of_nat (length (links_in cols (map snd items))))%Z.
Proof. apply csv_loop_counts. Qed.

(** *** The summary of a run *)

Lemma successes_app (fs gs : list (string * string)) :
  successes (fs ++ gs) = (successes fs + successes gs)%Z.
Proof.
  unfold successes. rewrite filter_app, length_app. lia.
Qed.

(** [_upload_file_async] flashes one message, of category [success]
    exactly when it returns [True]. *)
Lemma upload_flashes_once filepath caption (st : State W) :
  let r := _upload_file_async filepath caption st in
  exists f, flashes (snd r) = (flashes st ++ [f])%list
            /\ successes [f] = if fst r then 1%Z else 0%Z.
Proof.
  cbv zeta. unfold _upload_file_async. destruct (client_ready st); cbn [negb].
  - rewrite !bind_run.
    destruct (raised _) as [e|]; rewrite !bind_run; cbn [ret fst snd].
    + match goal with
      | |- context [upload_failed filepath e ?s] =>
          destruct (upload_failed_flash filepath e s) as (f & Hf & Hcat)
      end.
      exists f. rewrite upd_session_flashes, Hf.
      rewrite run_callbacks_flashes, ask_flashes, emit_flashes, add_log_flashes.
      split; [reflexivity|]. unfold successes. cbn [filter].
      destruct (String.eqb_spec (fst f) "success"); [contradiction|reflexivity].
    + eexists. rewrite flash_flashes, upd_session_flashes, add_log_flashes.
      rewrite run_callbacks_flashes, ask_flashes, emit_flashes, add_log_flashes.
      split; reflexivity.
  - rewrite !bind_run. cbn [ret fst snd]. eexists.
    rewrite flash_flashes, add_log_flashes. split; reflexivity.
Qed.

Lemma csv_item_body_successes cols total ready n index item_num p row (st : State W) :
  let r := csv_item_body cols total ready n index item_num p row st in
  exists news, flashes (snd r) = (flashes st ++ news)%list
               /\ fst r = (n + successes news)%Z.
Proof.
  cbv zeta. unfold csv_item_body. rewrite !bind_run.
  set (s1 := snd (upd_session assign_modified _)).
  assert (H1 : flashes s1 = flashes st) by reflexivity.
  destruct (link_of cols row) as [url|].
  - unfold process_url. rewrite !bind_run.
    set (s2 := snd (download _ _ _)).
    assert (H2 : flashes s2 = flashes st).
    { subst s2. rewrite download_flashes, announce_download_flashes. exact H1. }
    destruct (fst (download _ _ _)) as [e|].
    + rewrite bind_run. cbn [ret fst snd].
      destruct (item_failed_warns item_num url e s2) as (ws & Hws & Fws).
      exists ws. rewrite Hws, H2. split; [reflexivity|].
      assert (Hnone : successes ws = 0%Z).
      { clear Hws. unfold successes. induction Fws as [|f ws Hf _ IH]; [reflexivity|].
        cbn [filter]. rewrite Hf. exact IH. }
      lia.
    + unfold after_download. destruct ready.
      * rewrite !bind_run. cbn [ret fst snd].
        match goal with
        | |- context [_upload_file_async ?path ?c ?s] =>
            destruct (upload_flashes_once path c s) as (f & Hf & Hcount)
        end.
        cbv zeta in Hf, Hcount. exists [f].
        rewrite Hf, !add_log_flashes, H2. split; [reflexivity|].
        rewrite Hcount. destruct (fst (_upload_file_async _ _ _)); lia.
      * rewrite !bind_run. cbn [ret fst snd]. exists [].
        rewrite !add_log_flashes, H2, app_nil_r. split; [reflexivity|].
        unfold successes. cbn. lia.
  - rewrite bind_run. cbn [ret fst snd]. exists [].
    rewrite add_log_flashes, H1, app_nil_r. split; [reflexivity|].
    unfold successes. cbn. lia.
Qed.

Lemma csv_loop_successes cols total ready items n (st : State W) :
  let r := csv_loop cols total ready items n st in
  exists news, flashes (snd r) = (flashes st ++ news)%list
               /\ forall k, fst r = inr k -> k = (n + successes news)%Z.
Proof.
  cbv zeta. revert n st.
  induction items as [|[index row] items IH]; intros n st.
  - exists []. cbn. rewrite app_nil_r. split; [reflexivity|].
    intros k H. injection H as <-. unfold successes. cbn. lia.
  - rewrite csv_loop_cons.
    destruct (item_start total index) as [e|[item_num p]].
    + exists []. cbn [fst snd]. rewrite app_nil_r. split; [reflexivity|].
      intros k H. discriminate H.
    + destruct (csv_item_body_successes cols total ready n index item_num p row st)
        as (news1 & Hf1 & Hn1).
      destruct (IH (fst (csv_item_body cols total ready n index item_num p row st))
                  (snd (csv_item_body cols total ready n index item_num p row st)))
        as (news2 & Hf2 & Hn2).
      cbv zeta in Hf1, Hn1. exists (news1 ++ news2)%list.
      rewrite Hf2, Hf1, app_assoc. split; [reflexivity|].
      intros k Hk. rewrite (Hn2 k Hk), Hn1, successes_app. lia.
Qed.

Lemma set_overall_asked p : preserves uploads_asked (set_overall p).
Proof.
  intros st. unfold uploads_asked, published.
  fold (select publish_pick st). fold (select publish_pick (snd (set_overall p st))).
  rewrite select_set_overall. cbn [publish_pick]. rewrite app_nil_r. reflexivity.
Qed.

(** X6.  A run over a table with a [link] column and at least one row, in
    which no label makes lines 200-201 raise (the default labels never
    do), ends with the summary: the last flashed message and the newest
    log line report [k] of [n], where [n] is the number of rows and [k]
    the number of uploads that succeeded, that is, of the [success]
    messages flashed before the summary; [k] is at most the number of
    calls to [send_file], which is at most the number of usable links. *)
Theorem summary_counts_the_successful_uploads (csv_file_bytes : bytes)
    (df : DataFrame) (st : State W) :
  read_csv csv_file_bytes = inr df ->
  In "link" (columns df) ->
  rows df <> [] ->
  first_fault (len df) (iterrows df) = None ->
  let r := _run_csv_process_async csv_file_bytes st in
  exists (k : Z) (news : list (string * string)),
    flashes (snd r)
    = (flashes st ++ mode_notice (client_ready st) ++ news
       ++ [("success",
            ("CSV processing completed. " ++ Py.str_int k ++ "/"
               ++ Py.str_int (len df)
               ++ " items successfully uploaded (if connected).")%string)])%list
    /\ k = successes news
    /\ (0 <= k <= uploads_asked (snd r) - uploads_asked st)%Z
    /\ (uploads_asked (snd r) - uploads_asked st
        <= Z.of_nat (length (valid_links df)) <= len df)%Z
    /\ logged_last ("CSV processing completed. " ++ Py.str_int k ++ " of "
                      ++ Py.str_int (len df) ++ " items processed for potential upload.")
         (snd r).
Proof.
  intros Hparse Hlink Hrows Hfault. cbv zeta.
  apply has_column_In in Hlink. apply rows_not_empty in Hrows.
  rewrite run_unfold, Hparse, Hlink, Hrows. cbn [negb].
  rewrite !bind_run. unfold process_rows. rewrite !bind_run.
  set (s0 := snd (add_log _ (snd (reset_progress (snd (announce_mode _ st)))))).
  assert (Hs0 : flashes s0 = (flashes st ++ mode_notice (client_ready st))%list).
  { subst s0. rewrite add_log_flashes, reset_progress_flashes.
    apply announce_mode_flashes. }
  assert (Ha0 : uploads_asked s0 = uploads_asked st).
  { subst s0. rewrite (asked_quiet _ (add_log_trace _)).
    unfold uploads_asked, published. rewrite reset_progress_trace, announce_mode_trace.
    rewrite flat_map_app. cbn. rewrite app_nil_r. reflexivity. }
  pose proof (csv_loop_result (columns df) (len df) (client_ready st) (iterrows df)
                0%Z s0) as Hres.
  destruct (csv_loop_counts (columns df) (len df) (client_ready st) (iterrows df)
              0%Z s0) as (Hcount & Hasked).
  destruct (csv_loop_successes (columns df) (len df) (client_ready st) (iterrows df)
              0%Z s0) as (news & Hnews & Hk).
  cbv zeta in Hcount, Hasked, Hnews, Hk.
  destruct (fst (csv_loop _ _ _ _ _ s0)) as [e|k] eqn:Hloop; [congruence|].
  destruct (Hcount k eq_refl) as [Hk0 Hk1]. specialize (Hk k eq_refl).
  exists k, news. unfold completed. rewrite !bind_run. cbn [ret fst snd].
  split; [|split; [|split; [|split]]].
  - rewrite set_overall_flashes, flash_flashes, add_log_flashes, Hnews, Hs0.
    rewrite <- !app_assoc. reflexivity.
  - lia.
  - rewrite set_overall_asked, (asked_quiet _ (flash_trace _ _)),
      (asked_quiet _ (add_log_trace _)). lia.
  - rewrite set_overall_asked, (asked_quiet _ (flash_trace _ _)),
      (asked_quiet _ (add_log_trace _)).
    unfold valid_links, iterrows in *.
    pose proof (links_in_length (columns df) (map snd (rows df))) as Hl.
    pose proof (length_map snd (rows df)) as Hm.
    assert (Hlen : len df = Z.of_nat (length (rows df))) by reflexivity. lia.
  - eexists. rewrite set_overall_newest, flash_newest. apply add_log_newest.
Qed.

(** *** The download of one file *)

Lemma emit_trace e (st : State W) : trace (snd (emit e st)) = (trace st ++ [e])%list.
Proof. reflexivity. Qed.

Lemma emit_world e (st : State W) : world (snd (emit e st)) = world st.
Proof. reflexivity. Qed.

(** X7.  When the server answers with an error status (400 to 599), the
    download block raises a [RequestException] and touches no file: the
    request is its only effect. *)
Theorem http_error_writes_no_file (url_from_row dl_item_path : string)
    (status_code : Z) (reason url : string) (chunks : list bytes)
    (broken : option exn) (st : State W) :
  fst (requests_get url_from_row (world st))
  = GetResponse status_code reason url chunks broken ->
  (400 <= status_code < 600)%Z ->
  let r := download url_from_row dl_item_path st in
  (exists e, fst r = Some e /\ is_request_exception e = true)
  /\ trace (snd r) = (trace st ++ [HttpGet url_from_row])%list.
Proof.
  intros Hreply Hstatus. cbv zeta. unfold download. rewrite !bind_run.
  rewrite ask_value, emit_world, Hreply.
  destruct (raise_for_status_error status_code reason url Hstatus) as (e & He & Hreq).
  rewrite He. cbn [ret fst snd]. split.
  - exists e. split; [reflexivity|exact Hreq].
  - rewrite ask_trace. apply emit_trace.
Qed.

Lemma write_chunks_all path chunks (st : State W) :
  (forall p c w, fst (file_write p c w) = None) ->
  fst (write_chunks path chunks st) = None
  /\ trace (snd (write_chunks path chunks st))
     = (trace st ++ map (FileWrite path) (written_chunks chunks))%list.
Proof.
  intros Hwrite. revert st.
  induction chunks as [|chunk chunks IH]; intros st; cbn [write_chunks written_chunks filter map].
  - rewrite app_nil_r. split; reflexivity.
  - destruct chunk as [|b chunk]; [apply IH|].
    rewrite !bind_run, ask_value, Hwrite.
    destruct (IH (snd (ask (file_write path (b :: chunk))
                         (snd (emit (FileWrite path (b :: chunk)) st)))))
      as [Hnone Htrace].
    fold (written_chunks chunks).
    rewrite Hnone, Htrace, ask_trace, emit_trace. cbn [map].
    rewrite <- app_assoc. split; reflexivity.
Qed.

Lemma download_with_working_files (url_from_row dl_item_path : string)
    (status_code : Z) (reason url : string) (chunks : list bytes)
    (broken : option exn) (st : State W) :
  (forall p w, fst (open_wb p w) = None) ->
  (forall p c w, fst (file_write p c w) = None) ->
  fst (requests_get url_from_row (world st))
  = GetResponse status_code reason url chunks broken ->
  ~ (400 <= status_code < 600)%Z ->
  let r := download url_from_row dl_item_path st in
  fst r = broken
  /\ trace (snd r)
     = (trace st
        ++ HttpGet url_from_row :: FileOpen dl_item_path
           :: map (FileWrite dl_item_path) (written_chunks chunks))%list.
Proof.
  intros Hopen Hwrite Hreply Hstatus. cbv zeta. unfold download. rewrite !bind_run.
  rewrite ask_value, emit_world, Hreply.
  assert (Hok : raise_for_status status_code reason url = None).
  { unfold raise_for_status.
    destruct ((400 <=? status_code) && (status_code <? 500))%Z eqn:Hc;
      [apply andb_prop in Hc; lia|].
    destruct ((500 <=? status_code) && (status_code <? 600))%Z eqn:Hs;
      [apply andb_prop in Hs; lia|reflexivity]. }
  rewrite Hok, !bind_run, ask_value, Hopen, bind_run.
  match goal with
  | |- context [write_chunks dl_item_path chunks ?s] =>
      destruct (write_chunks_all dl_item_path chunks s Hwrite) as [Hnone Htrace]
  end.
  rewrite Hnone. cbn [ret fst snd]. split; [reflexivity|].
  rewrite Htrace, ask_trace, emit_trace, ask_trace, emit_trace.
  rewrite <- !app_assoc. reflexivity.
Qed.

(** X8.  When the server answers with another status and the file system
    does not fail, the download block opens the destination once and
    writes the non-empty chunks of the body to it, in the order of their
    arrival; it raises only what the stream raised. *)
Theorem download_stores_the_body (url_from_row dl_item_path : string)
    (status_code : Z) (reason url : string) (chunks : list bytes)
    (broken : option exn) (st : State W) :
  (forall p w, fst (open_wb p w) = None) ->
  (forall p c w, fst (file_write p c w) = None) ->
  fst (requests_get url_from_row (world st))
  = GetResponse status_code reason url chunks broken ->
  ~ (400 <= status_code < 600)%Z ->
  let r := download url_from_row dl_item_path st in
  fst r = broken
  /\ trace (snd r)
     = (trace st
        ++ HttpGet url_from_row :: FileOpen dl_item_path
           :: map (FileWrite dl_item_path) (written_chunks chunks))%list.
Proof. apply download_with_working_files. Qed.

(** *** The size of the log *)

Definition keeps_log_bounded {A} (m : M W A) : Prop :=
  forall st, log_bounded st -> log_bounded (snd (m st)).

Definition bounds_log {A} (m : M W A) : Prop :=
  forall st, log_bounded (snd (m st)).

Lemma add_log_bounds message : bounds_log (add_log message).
Proof.
  intros st. unfold log_bounded, logs_list. rewrite add_log_run. cbn [snd session].
  rewrite session_add_log_logs. apply firstn_le_length.
Qed.

Lemma bounds_keeps {A} (m : M W A) : bounds_log m -> keeps_log_bounded m.
Proof. intros H st _. apply H. Qed.

Lemma same_logs_keeps {A} (m : M W A) :
  preserves (fun st => logs (session st)) m -> keeps_log_bounded m.
Proof.
  intros H st. unfold log_bounded, logs_list. rewrite (H st). trivial.
Qed.

Lemma keeps_bind {A B} (m : M W A) (f : A -> M W B) :
  keeps_log_bounded m -> (forall a, keeps_log_bounded (f a)) ->
  keeps_log_bounded (bind m f).
Proof. intros Hm Hf st Hst. rewrite bind_run. apply Hf, Hm, Hst. Qed.

Lemma bounds_bind_left {A B} (m : M W A) (f : A -> M W B) :
  bounds_log m -> (forall a, keeps_log_bounded (f a)) -> bounds_log (bind m f).
Proof. intros Hm Hf st. rewrite bind_run. apply Hf, Hm. Qed.

Lemma bounds_bind_right {A B} (m : M W A) (f : A -> M W B) :
  (forall a, bounds_log (f a)) -> bounds_log (bind m f).
Proof. intros Hf st. rewrite bind_run. apply Hf. Qed.

Lemma keeps_ret {A} (a : A) : keeps_log_bounded (ret (W := W) a).
Proof. intros st H. exact H. Qed.

Lemma keeps_flash message category : keeps_log_bounded (flash message category).
Proof. intros st H. exact H. Qed.

Lemma keeps_emit e : keeps_log_bounded (emit e).
Proof. intros st H. exact H. Qed.

Lemma keeps_set_overall p : keeps_log_bounded (set_overall p).
Proof. intros st H. exact H. Qed.

Lemma keeps_ask {A} (call : W -> A * W) : keeps_log_bounded (ask call).
Proof. intros st H. unfold ask. destruct (call (world st)). exact H. Qed.

Lemma keeps_modified : keeps_log_bounded (upd_session assign_modified).
Proof. intros st H. exact H. Qed.

Lemma keeps_upload_progress p :
  keeps_log_bounded (upd_session (assign_upload_progress p)).
Proof. intros st H. exact H. Qed.

Lemma keeps_current_item p :
  keeps_log_bounded (upd_session (assign_csv_current_item_progress p)).
Proof. intros st H. exact H. Qed.

Lemma keeps_add_log message : keeps_log_bounded (add_log message).
Proof. apply bounds_keeps, add_log_bounds. Qed.

Hint Resolve keeps_flash keeps_emit keeps_set_overall keeps_modified
  keeps_upload_progress keeps_current_item keeps_add_log : logs.
Hint Resolve @keeps_ask @keeps_ret : logs.

Ltac keeps :=
  repeat first
    [ solve [auto with logs]
    | apply keeps_bind; [|intros ?]
    | match goal with
      | |- keeps_log_bounded (if ?b then _ else _) => destruct b
      | |- keeps_log_bounded (match ?x with _ => _ end) => destruct x
      end ].

Lemma keeps_callback filepath current total :
  keeps_log_bounded (progress_callback_sync filepath current total).
Proof.
  unfold progress_callback_sync.
  keeps.
Qed.

Hint Resolve keeps_callback : logs.

Lemma keeps_callbacks filepath calls :
  keeps_log_bounded (run_callbacks filepath calls).
Proof. induction calls as [|[current total] calls IH]; cbn [run_callbacks]; keeps. Qed.

Lemma keeps_upload_failed filepath e : keeps_log_bounded (upload_failed filepath e).
Proof. unfold upload_failed. keeps. Qed.

Hint Resolve keeps_callbacks keeps_upload_failed : logs.

Lemma upload_bounds filepath caption : bounds_log (_upload_file_async filepath caption).
Proof.
  intros st. unfold _upload_file_async. destruct (client_ready st); cbn [negb].
  - apply bounds_bind_right; intros _. apply bounds_bind_right; intros _.
    apply bounds_bind_left; [apply add_log_bounds|intros _]. keeps.
  - apply bounds_bind_left; [apply add_log_bounds|intros _]. keeps.
Qed.

Lemma keeps_upload filepath caption :
  keeps_log_bounded (_upload_file_async filepath caption).
Proof. apply bounds_keeps, upload_bounds. Qed.

Lemma keeps_write_chunks path chunks : keeps_log_bounded (write_chunks path chunks).
Proof.
  induction chunks as [|chunk chunks IH]; cbn [write_chunks]; [keeps|].
  destruct chunk; [exact IH|]. keeps.
Qed.

Hint Resolve keeps_upload keeps_write_chunks : logs.

Lemma keeps_download url path : keeps_log_bounded (download url path).
Proof. unfold download. keeps. Qed.

Lemma keeps_choose_filename index url : keeps_log_bounded (choose_filename index url).
Proof. unfold choose_filename. keeps. Qed.

Hint Resolve keeps_download keeps_choose_filename : logs.

Lemma keeps_announce_download total index item_num url :
  keeps_log_bounded (announce_download total index item_num url).
Proof. unfold announce_download. keeps. Qed.

Lemma keeps_after_download cols ready n item_num row name path :
  keeps_log_bounded (after_download cols ready n item_num row name path).
Proof. unfold after_download. keeps. Qed.

Lemma keeps_item_failed item_num url e : keeps_log_bounded (item_failed item_num url e).
Proof. unfold item_failed. keeps. Qed.

Hint Resolve keeps_announce_download keeps_after_download keeps_item_failed : logs.

Lemma keeps_csv_item_body cols total ready n index item_num p row :
  keeps_log_bounded (csv_item_body cols total ready n index item_num p row).
Proof. unfold csv_item_body, process_url. keeps. Qed.

Hint Resolve keeps_csv_item_body : logs.

Lemma keeps_csv_item cols total ready n index row :
  keeps_log_bounded (csv_item cols total ready n index row).
Proof.
  unfold csv_item. destruct (item_start total index) as [e|[item_num p]]; keeps.
Qed.

Hint Resolve keeps_csv_item : logs.

Lemma keeps_csv_loop cols total ready items n :
  keeps_log_bounded (csv_loop cols total ready items n).
Proof.
  revert n. induction items as [|[index row] items IH]; intros n; cbn [csv_loop]; keeps.
Qed.

Lemma keeps_completed total n : keeps_log_bounded (completed total n).
Proof. unfold completed. keeps. Qed.

Lemma keeps_fatal e : keeps_log_bounded (fatal e).
Proof. unfold fatal. keeps. Qed.

Hint Resolve keeps_csv_loop keeps_completed keeps_fatal : logs.

Lemma run_bounds csv_file_bytes : bounds_log (_run_csv_process_async csv_file_bytes).
Proof.
  intros st. rewrite run_unfold.
  apply bounds_bind_right; intros _. apply bounds_bind_right; intros _.
  destruct (read_csv csv_file_bytes) as [e_parse|df].
  - unfold parse_failed.
    apply bounds_bind_left; [apply add_log_bounds|intros _]. keeps.
  - destruct (has_column "link" df); cbn [negb].
    + destruct (len df =? 0)%Z.
      * unfold empty_table.
        apply bounds_bind_left; [apply add_log_bounds|intros _]. keeps.
      * unfold process_rows.
        apply bounds_bind_left; [apply add_log_bounds|intros _]. keeps.
    + unfold missing_link.
      apply bounds_bind_left; [apply add_log_bounds|intros _]. keeps.
Qed.

(** X9.  Whatever the session held before, even a log of more than 100
    entries, the log holds at most 100 entries after a run of the
    orchestrator and after a call of the publisher: every path through
    them writes a log line, and nothing but [add_log] touches the log. *)
Theorem log_is_bounded_after_use (csv_file_bytes : bytes) (filepath caption : string)
    (st : State W) :
  log_bounded (snd (_run_csv_process_async csv_file_bytes st))
  /\ log_bounded (snd (_upload_file_async filepath caption st)).
Proof. split; [apply run_bounds|apply upload_bounds]. Qed.

(** *** Runs without a session *)

(** The computation only adds to the trace. *)
Definition extends_trace {A} (m : M W A) : Prop :=
  forall st, exists tr, trace (snd (m st)) = (trace st ++ tr)%list.

Lemma extends_quiet {A} (m : M W A) : preserves trace m -> extends_trace m.
Proof. intros H st. exists []. rewrite H, app_nil_r. reflexivity. Qed.

Lemma extends_bind {A B} (m : M W A) (f : A -> M W B) :
  extends_trace m -> (forall a, extends_trace (f a)) -> extends_trace (bind m f).
Proof.
  intros Hm Hf st. rewrite bind_run.
  destruct (Hm st) as [tr1 H1]. destruct (Hf (fst (m st)) (snd (m st))) as [tr2 H2].
  exists (tr1 ++ tr2)%list. rewrite H2, H1, app_assoc. reflexivity.
Qed.

Lemma extends_emit e : extends_trace (emit e).
Proof. intros st. exists [e]. reflexivity. Qed.

Lemma extends_set_overall p : extends_trace (set_overall p).
Proof. intros st. exists [SetOverall p]. reflexivity. Qed.

Hint Resolve extends_emit extends_set_overall : grows.
Hint Resolve run_callbacks_trace upload_failed_trace choose_filename_trace
  item_failed_trace announce_download_trace : quiet.

Ltac grows :=
  repeat first
    [ solve [auto with grows]
    | solve [apply extends_quiet; quiet]
    | apply extends_bind; [|intros ?]
    | match goal with
      | |- extends_trace (if ?b then _ else _) => destruct b
      | |- extends_trace (match ?x with _ => _ end) => destruct x
      end ].

Lemma extends_write_chunks path chunks : extends_trace (write_chunks path chunks).
Proof.
  induction chunks as [|chunk chunks IH]; cbn [write_chunks]; [grows|].
  destruct chunk; [exact IH|]. grows.
Qed.

Hint Resolve extends_write_chunks : grows.

Lemma extends_download url path : extends_trace (download url path).
Proof. unfold download. grows. Qed.

Lemma extends_upload filepath caption :
  extends_trace (_upload_file_async filepath caption).
Proof.
  intros st. unfold _upload_file_async. destruct (client_ready st); cbn [negb].
  - refine ((_ : extends_trace _) st). grows.
  - refine ((_ : extends_trace _) st). grows.
Qed.

Hint Resolve extends_download extends_upload : grows.

Lemma extends_csv_item_body cols total ready n index item_num p row :
  extends_trace (csv_item_body cols total ready n index item_num p row).
Proof. unfold csv_item_body, process_url, after_download. grows. Qed.

Lemma extends_csv_loop cols total ready items n :
  extends_trace (csv_loop cols total ready items n).
Proof.
  revert n. induction items as [|[index row] items IH]; intros n st.
  - exists []. cbn. rewrite app_nil_r. reflexivity.
  - rewrite csv_loop_cons. destruct (item_start total index) as [e|[item_num p]].
    + exists []. cbn. rewrite app_nil_r. reflexivity.
    + destruct (extends_csv_item_body cols total ready n index item_num p row st)
        as [tr1 H1].
      destruct (IH (fst (csv_item_body cols total ready n index item_num p row st))
                  (snd (csv_item_body cols total ready n index item_num p row st)))
        as [tr2 H2].
      exists (tr1 ++ tr2)%list. rewrite H2, H1, app_assoc. reflexivity.
Qed.

(** Every row of a loop that no exception ends has its turn: the trace
    of the loop holds the events of the row, after those of the rows
    before it. *)
Lemma csv_loop_contains cols total ready items n (st : State W) index row :
  first_fault total items = None ->
  In (index, row) items ->
  exists item_num p n' st',
    item_start total index = inr (item_num, p)
    /\ (exists before, trace st' = (trace st ++ before)%list)
    /\ exists after,
         trace (snd (csv_loop cols total ready items n st))
         = (trace (snd (csv_item_body cols total ready n' index item_num p row st'))
            ++ after)%list.
Proof.
  revert n st. induction items as [|[index0 row0] items IH]; intros n st Hfault Hin;
    [contradiction|].
  cbn [first_fault] in Hfault. rewrite csv_loop_cons.
  destruct (item_start total index0) as [e|[item_num0 p0]] eqn:Hstart; [discriminate|].
  destruct Hin as [Heq|Hin].
  - injection Heq as <- <-. exists item_num0, p0, n, st.
    split; [exact Hstart|]. split; [exists []; rewrite app_nil_r; reflexivity|].
    apply extends_csv_loop.
  - destruct (IH (fst (csv_item_body cols total ready n index0 item_num0 p0 row0 st))
                (snd (csv_item_body cols total ready n index0 item_num0 p0 row0 st))
                Hfault Hin)
      as (item_num & p & n' & st' & Hs & [before Hb] & Hafter).
    destruct (extends_csv_item_body cols total ready n index0 item_num0 p0 row0 st)
      as [tr0 H0].
    exists item_num, p, n', st'. split; [exact Hs|]. split; [|exact Hafter].
    exists (tr0 ++ before)%list. rewrite Hb, H0, app_assoc. reflexivity.
Qed.

(** The server answers every request for [url] with a status that is not
    an error and with the body [chunks], unbroken. *)
Definition serves (url : string) (chunks : list bytes) : Prop :=
  forall w, exists status_code reason final_url,
    fst (requests_get url w) = GetResponse status_code reason final_url chunks None
    /\ ~ (400 <= status_code < 600)%Z.

(** Opening and writing files never fails. *)
Definition files_work : Prop :=
  (forall path w, fst (open_wb path w) = None)
  /\ (forall path chunk w, fst (file_write path chunk w) = None).

Lemma choose_filename_value index url (st : State W) :
  exists now, fst (choose_filename index url st) = filename_from_csv_url now index url.
Proof.
  unfold choose_filename, filename_from_csv_url.
  destruct (Py.truthy (cleaned_name url)).
  - exists 0%Z. reflexivity.
  - rewrite bind_run. eexists. reflexivity.
Qed.

(** Without a session, the events of a row whose link is served: the
    progress, the request, the file opened under the name of the row, and
    every chunk of the body that is not empty written to it. *)
Lemma offline_item_stores_the_body cols total n index item_num p row url chunks
    (st : State W) :
  link_of cols row = Some url ->
  serves url chunks -> files_work ->
  exists now,
    trace (snd (csv_item_body cols total false n index item_num p row st))
    = (trace st
       ++ SetOverall p :: HttpGet url
          :: FileOpen (Py.path_join DOWNLOAD_FOLDER_UI
                         (filename_from_csv_url now index url))
          :: map (FileWrite (Py.path_join DOWNLOAD_FOLDER_UI
                               (filename_from_csv_url now index url)))
               (written_chunks chunks))%list.
Proof.
  intros Hlink Hserves [Hopen Hwrite].
  unfold csv_item_body. rewrite Hlink, !bind_run. unfold process_url.
  rewrite !bind_run.
  set (s1 := snd (upd_session assign_modified (snd (set_overall p st)))).
  assert (H1 : trace s1 = (trace st ++ [SetOverall p])%list) by reflexivity.
  unfold announce_download. rewrite !bind_run. cbn [ret fst snd].
  set (s2 := snd (add_log _ s1)).
  destruct (choose_filename_value index url s2) as [now Hname].
  exists now. rewrite Hname.
  set (path := Py.path_join DOWNLOAD_FOLDER_UI (filename_from_csv_url now index url)).
  set (s3 := snd (add_log _ (snd (choose_filename index url s2)))).
  assert (H3 : trace s3 = (trace st ++ [SetOverall p])%list).
  { subst s3 s2. rewrite add_log_trace, choose_filename_trace, add_log_trace. exact H1. }
  destruct (Hserves (world s3)) as (status_code & reason & final_url & Hreply & Hstatus).
  destruct (download_with_working_files url path status_code reason final_url chunks
              None s3 Hopen Hwrite Hreply Hstatus) as [Hnone Htrace].
  cbv zeta in Hnone, Htrace. rewrite Hnone.
  unfold after_download. rewrite !bind_run. cbn [ret snd].
  rewrite !add_log_trace, Htrace, H3, <- app_assoc. reflexivity.
Qed.

(** C7, as the code has it.  A run that starts without a connected,
    authorized session, on a table that has a [link] column, at least one
    row and the default labels, flashes the download-only notice once,
    requests the link of every row that is not skipped, in order, hands
    nothing to [send_file], and returns [True] with the progress at 100.
    It stores the file of every such row whose link is served, if the
    file system works: the trace holds the request, followed by the file
    opened in the download folder under the name of the row and by the
    writes of the chunks of the body. *)
Theorem offline_run_downloads_only (csv_file_bytes : bytes) (df : DataFrame)
    (st : State W) :
  client_ready st = false ->
  read_csv csv_file_bytes = inr df ->
  In "link" (columns df) ->
  rows df <> [] ->
  has_default_labels df ->
  let r := _run_csv_process_async csv_file_bytes st in
  fst r = true
  /\ overall (snd r) = Some (NInt 100)
  /\ fetched (trace (snd r)) = (fetched (trace st) ++ valid_links df)%list
  /\ published (trace (snd r)) = published (trace st)
  /\ (exists rest,
        flashes (snd r)
        = (flashes st
           ++ ("info", "Not connected to Telegram. Files will only be downloaded.")
           :: rest)%list
        /\ Forall (fun f => fst f <> "info") rest)
  /\ forall index row_data url_from_row chunks,
       In (index, row_data) (rows df) ->
       link_of (columns df) row_data = Some url_from_row ->
       serves url_from_row chunks ->
       files_work ->
       exists now before after,
         let dl_item_path :=
           Py.path_join DOWNLOAD_FOLDER_UI
             (filename_from_csv_url now index url_from_row) in
         trace (snd r)
         = (before
            ++ HttpGet url_from_row :: FileOpen dl_item_path
               :: map (FileWrite dl_item_path) (written_chunks chunks)
            ++ after)%list.
Proof.
  intros Hoff Hparse Hlink Hrows Hdef. cbv zeta.
  pose proof (default_labels_no_fault df Hdef) as Hfault.
  destruct (run_completes csv_file_bytes df st Hparse Hlink Hrows Hfault)
    as [Hok Hfinal].
  assert (Hcol := proj2 (has_column_In "link" df) Hlink).
  assert (Hlen := proj1 (rows_not_empty df) Hrows).
  split; [exact Hok|]. split; [exact Hfinal|].
  split; [apply run_fetched; assumption|].
  split; [|split].
  - pose proof (run_select publish_pick csv_file_bytes st publish_pick_blind) as Hsel.
    unfold select in Hsel. unfold published. rewrite Hsel by (left; exact Hoff).
    unfold run_events, loop_events. rewrite Hparse, Hcol, Hlen, Hfault.
    cbn [negb publish_pick app].
    rewrite rows_published. apply app_nil_r.
  - rewrite run_unfold, Hparse, Hcol, Hlen, Hoff. cbn [negb].
    rewrite !bind_run. unfold process_rows. rewrite !bind_run.
    set (s0 := snd (add_log _ (snd (reset_progress (snd (announce_mode false st)))))).
    pose proof (csv_loop_result (columns df) (len df) false (iterrows df) 0%Z s0)
      as Hres.
    destruct (csv_loop_offline_warns (columns df) (len df) (iterrows df) 0%Z s0)
      as (ws & Ews & Fws).
    destruct (fst (csv_loop _ _ _ _ _ s0)) as [e|k]; [congruence|].
    unfold completed. rewrite !bind_run. cbn [ret snd].
    rewrite set_overall_flashes, flash_flashes, add_log_flashes, Ews.
    subst s0. rewrite add_log_flashes, reset_progress_flashes, announce_mode_flashes.
    cbn [mode_notice]. rewrite <- !app_assoc. cbn [app].
    eexists. split; [reflexivity|].
    apply Forall_app. split.
    + revert Fws. apply Forall_impl. intros f Hf. rewrite Hf. discriminate.
    + repeat constructor. discriminate.
  - intros index row_data url_from_row chunks Hin Hurl Hserves Hfiles.
    rewrite run_unfold, Hparse, Hcol, Hlen, Hoff. cbn [negb].
    rewrite !bind_run. unfold process_rows. rewrite !bind_run.
    set (s0 := snd (add_log _ (snd (reset_progress (snd (announce_mode false st)))))).
    pose proof (csv_loop_result (columns df) (len df) false (iterrows df) 0%Z s0)
      as Hres.
    destruct (csv_loop_contains (columns df) (len df) false (iterrows df) 0%Z s0
                index row_data Hfault Hin)
      as (item_num & p & n' & st' & _ & [before Hbefore] & [after Hafter]).
    destruct (offline_item_stores_the_body (columns df) (len df) n' index item_num p
                row_data url_from_row chunks st' Hurl Hserves Hfiles)
      as [now Hitem].
    rewrite Hitem, Hbefore in Hafter.
    destruct (fst (csv_loop _ _ _ _ _ s0)) as [e|k]; [congruence|].
    unfold completed. rewrite !bind_run. cbn [ret snd].
    exists now, (trace s0 ++ before ++ [SetOverall p])%list,
      (after ++ [SetOverall (NInt 100)])%list.
    cbv zeta.
    change (trace (snd (set_overall (NInt 100) ?s)))
      with (trace s ++ [SetOverall (NInt 100)])%list.
    rewrite flash_trace, add_log_trace, Hafter.
    rewrite <- !app_assoc. cbn [app]. rewrite <- ?app_assoc. reflexivity.
Qed.

(** *** A label that lines 200-201 cannot count *)

Lemma first_fault_at total (before rest : list (label * list cell)) index row e :
  first_fault total before = None ->
  item_start total index = inl e ->
  first_fault total (before ++ (index, row) :: rest) = Some e.
Proof.
  intros Hbefore Hstart. induction before as [|[i r] before IH].
  - cbn [app first_fault]. rewrite Hstart. reflexivity.
  - cbn [app first_fault] in *.
    destruct (item_start total i) as [e'|[item_num p]]; [discriminate|].
    apply IH, Hbefore.
Qed.

Lemma rows_events_until_fault {X} (pick : Event -> list X) cols total
    (before rest : list (label * list cell)) index row e :
  item_start total index = inl e ->
  rows_events pick cols total (before ++ (index, row) :: rest)
  = rows_events pick cols total before.
Proof.
  intros Hstart. induction before as [|[i r] before IH].
  - cbn [app rows_events]. rewrite Hstart. reflexivity.
  - cbn [app rows_events].
    destruct (item_start total i) as [e'|[item_num p]]; [reflexivity|].
    rewrite IH. reflexivity.
Qed.

(** What lines 200-201 raise is no [EmptyDataError]. *)
Lemma item_start_raises_other total index e :
  item_start total index = inl e -> exn_kind e = OtherException.
Proof.
  unfold item_start, item_progress, true_divide, float_of_int.
  destruct index as [z|x|b|t|shown]; cbn [index_plus_1]; intros H;
    try (injection H as <-; reflexivity);
    repeat match type of H with
           | context [if ?c then _ else _] => destruct c
           | context [match to_float ?q ?z with _ => _ end] => destruct (to_float q z)
           end;
    try discriminate; injection H as <-; reflexivity.
Qed.

(** X27.  When the label of a row is one that lines 200-201 cannot count
    (text, a tuple: then line 200 raises a [TypeError]) and the rows
    before it are counted, the run stops at that row: it requests the
    links of the rows before it and nothing more, logs and flashes the
    failure of the whole batch with the text of the exception, leaves the
    progress at -1, assigned last, and returns [False].  No row after
    that one is looked at. *)
Theorem uncountable_label_ends_the_run (csv_file_bytes : bytes) (df : DataFrame)
    (before rest : list (label * list cell)) (index : label) (row_data : list cell)
    (e_csv_main : exn) (st : State W) :
  read_csv csv_file_bytes = inr df ->
  In "link" (columns df) ->
  rows df = (before ++ (index, row_data) :: rest)%list ->
  first_fault (len df) before = None ->
  item_start (len df) index = inl e_csv_main ->
  let r := _run_csv_process_async csv_file_bytes st in
  fst r = false
  /\ overall (snd r) = Some (NInt (-1))
  /\ fetched (trace (snd r))
     = (fetched (trace st) ++ links_in (columns df) (map snd before))%list
  /\ (exists vs,
        progress_writes (trace (snd r))
        = (progress_writes (trace st) ++ NInt 0 :: map NFloat vs ++ [NInt (-1)])%list
        /\ length vs = length before)
  /\ (exists earlier,
        flashes (snd r)
        = (earlier
           ++ [("danger", ("CSV processing failed: " ++ exn_str e_csv_main)%string)])%list)
  /\ logged_last ("CSV processing failed: " ++ exn_str e_csv_main) (snd r)
  /\ (forall s, index = LStr s -> e_csv_main = type_error "str")
  /\ (forall shown, index = LTuple shown -> e_csv_main = type_error "tuple").
Proof.
  intros Hparse Hlink Hrows Hbefore Hstart. cbv zeta.
  assert (Hcol := proj2 (has_column_In "link" df) Hlink).
  assert (Hlen : (len df =? 0)%Z = false).
  { apply rows_not_empty. rewrite Hrows. destruct before; discriminate. }
  assert (Hfault : first_fault (len df) (iterrows df) = Some e_csv_main).
  { unfold iterrows. rewrite Hrows. apply first_fault_at; assumption. }
  split; [|split; [|split; [|split; [|split; [|split; [|split]]]]]].
  - rewrite run_result. unfold run_outcome. rewrite Hparse, Hcol, Hlen, Hfault.
    reflexivity.
  - rewrite run_final_overall. unfold run_outcome.
    rewrite Hparse, Hcol, Hlen, Hfault. reflexivity.
  - pose proof (run_select fetch_pick csv_file_bytes st fetch_pick_blind
                  (or_intror (fun _ _ => eq_refl))) as Hsel.
    unfold select in Hsel. unfold fetched. rewrite Hsel.
    unfold run_events, loop_events. rewrite Hparse, Hcol, Hlen. cbn [negb].
    unfold iterrows. rewrite Hrows.
    rewrite (rows_events_until_fault fetch_pick _ _ _ _ _ _ _ Hstart).
    rewrite (rows_fetched _ _ _ Hbefore). cbn [fetch_pick app].
    rewrite !app_nil_r. reflexivity.
  - pose proof (run_select progress_pick csv_file_bytes st progress_pick_blind
                  (or_intror (fun _ _ => eq_refl))) as Hsel.
    unfold select in Hsel. unfold progress_writes. rewrite Hsel.
    unfold run_events, loop_events. rewrite Hparse, Hcol, Hlen, Hfault. cbn [negb].
    unfold iterrows. rewrite Hrows.
    rewrite (rows_events_until_fault progress_pick _ _ _ _ _ _ _ Hstart).
    assert (Hvs : exists vs,
               rows_events progress_pick (columns df) (len df) before = map NFloat vs
               /\ length vs = length before).
    { clear Hrows. induction before as [|[i r] before IH]; [exists []; split; reflexivity|].
      cbn [first_fault rows_events] in *.
      destruct (item_start (len df) i) as [e'|[item_num p]] eqn:E; [discriminate|].
      destruct (item_start_float _ _ _ _ E) as [x ->].
      destruct (IH Hbefore) as (vs & Hvs & Hl). exists (x :: vs).
      rewrite Hvs. unfold item_events. cbn [progress_pick length].
      split; [destruct (link_of (columns df) r); reflexivity|rewrite Hl; reflexivity]. }
    destruct Hvs as (vs & Hvs & Hl). exists vs. rewrite Hvs.
    split; [reflexivity|exact Hl].
  - rewrite run_unfold, Hparse, Hcol, Hlen. cbn [negb].
    rewrite !bind_run. unfold process_rows. rewrite !bind_run.
    match goal with
    | |- context [csv_loop ?c ?t ?b ?items 0%Z ?s] =>
        pose proof (csv_loop_result c t b items 0%Z s) as Hres;
        destruct (fst (csv_loop c t b items 0%Z s)) as [e|k]; [|congruence]
    end.
    rewrite Hfault in Hres. injection Hres as <-.
    unfold fatal. rewrite (item_start_raises_other _ _ _ Hstart).
    rewrite !bind_run. cbn [ret snd].
    rewrite set_overall_flashes, flash_flashes. eexists. reflexivity.
  - rewrite run_unfold, Hparse, Hcol, Hlen. cbn [negb].
    rewrite !bind_run. unfold process_rows. rewrite !bind_run.
    match goal with
    | |- context [csv_loop ?c ?t ?b ?items 0%Z ?s] =>
        pose proof (csv_loop_result c t b items 0%Z s) as Hres;
        destruct (fst (csv_loop c t b items 0%Z s)) as [e|k]; [|congruence]
    end.
    rewrite Hfault in Hres. injection Hres as <-.
    unfold fatal. rewrite (item_start_raises_other _ _ _ Hstart).
    rewrite !bind_run. cbn [ret snd].
    eexists. rewrite set_overall_newest, flash_newest. apply add_log_newest.
  - intros t ->. cbn in Hstart. injection Hstart as <-. reflexivity.
  - intros shown ->. cbn in Hstart. injection Hstart as <-. reflexivity.
Qed.

End MoreRuns.

(** ** Concrete instances *)

(** An upload that [send_file] rejects with a flood wait. *)
Definition flood_wait : exn :=
  mkExn (FloodWaitError 30) "FloodWaitError" "A wait of 30 seconds is required".

Lemma upload_outcome_witness :
  let ext := example_world [] (inl no_columns) example_web true
               (mkSend [(50, 100)]%Z (Some flood_wait)) in
  let r := _upload_file_async (ext := ext) "downloads_colab_ui_async/a.txt" "first"
             online in
  fst r = false
  /\ published (trace (snd r)) = [("downloads_colab_ui_async/a.txt", "first")]
  /\ upload_progress (session (snd r)) = Some (-1)
  /\ flashes (snd r)
     = [("warning", "Upload Error (Telegram Flood Wait): Please wait 30s.")].
Proof.
  cbv zeta.
  destruct (upload_outcome
              (ext := example_world [] (inl no_columns) example_web true
                        (mkSend [(50, 100)]%Z (Some flood_wait)))
              "downloads_colab_ui_async/a.txt" "first" online)
    as (Hret & Hsent & Hprogress & f & Hflash & _).
  - reflexivity.
  - split; [exact Hret|]. split; [exact Hsent|].
    split; [rewrite Hprogress, Hret; reflexivity|].
    vm_compute. reflexivity.
Defined.

Lemma progress_callback_is_silent_witness :
  let ext := example_world [] (inl no_columns) example_web true sent_ok in
  let r := progress_callback_sync (ext := ext) "downloads_colab_ui_async/a.txt"
             2048 2048 online in
  logs (session (snd r)) = None
  /\ trace (snd r) = []
  /\ upload_progress (session (snd r)) = Some (inject_Z 2048 / inject_Z 2048 * 100).
Proof.
  cbv zeta.
  destruct (progress_callback_is_silent
              (ext := example_world [] (inl no_columns) example_web true sent_ok)
              "downloads_colab_ui_async/a.txt" 2048 2048 online)
    as (Hlogs & _ & Htrace & Hprogress).
  - right. lia.
  - split; [exact Hlogs|]. split; [exact Htrace|exact Hprogress].
Defined.

Lemma summary_counts_the_successful_uploads_witness :
  let ext := example_world three_rows_lines (inr three_rows) example_web true sent_ok in
  let r := _run_csv_process_async (ext := ext) (csv_bytes three_rows_lines) online in
  exists (k : Z) (news : list (string * string)),
    flashes (snd r)
    = (news
       ++ [("success",
            ("CSV processing completed. " ++ Py.str_int k ++ "/" ++ Py.str_int 3
               ++ " items successfully uploaded (if connected).")%string)])%list
    /\ k = successes news
    /\ (0 <= k <= 2)%Z.
Proof.
  cbv zeta.
  destruct (summary_counts_the_successful_uploads
              (ext := example_world three_rows_lines (inr three_rows) example_web
                        true sent_ok)
              (csv_bytes three_rows_lines) three_rows online)
    as (k & news & Hflash & Hk & Hk0 & Hasked & _).
  - reflexivity.
  - left. reflexivity.
  - discriminate.
  - reflexivity.
  - exists k, news. split; [exact Hflash|]. split; [exact Hk|].
    change (Z.of_nat (length (valid_links three_rows))) with 2%Z in Hasked. lia.
Defined.

Lemma http_error_writes_no_file_witness :
  let ext := example_world [] (inl no_columns) example_web true sent_ok in
  let r := download (ext := ext) "http://host/missing"
             "downloads_colab_ui_async/missing" online in
  (exists e, fst r = Some e /\ is_request_exception e = true)
  /\ trace (snd r) = [HttpGet "http://host/missing"].
Proof.
  cbv zeta.
  apply (http_error_writes_no_file
           (ext := example_world [] (inl no_columns) example_web true sent_ok)
           "http://host/missing" "downloads_colab_ui_async/missing"
           404 "Not Found" "http://host/missing" [] None online).
  - reflexivity.
  - lia.
Defined.

Lemma download_stores_the_body_witness :
  let ext := example_world [] (inl no_columns) example_web true sent_ok in
  let r := download (ext := ext) "http://host/a.txt"
             "downloads_colab_ui_async/a.txt" online in
  fst r = None
  /\ trace (snd r)
     = [HttpGet "http://host/a.txt"; FileOpen "downloads_colab_ui_async/a.txt";
        FileWrite "downloads_colab_ui_async/a.txt" [Byte.x68; Byte.x69]].
Proof.
  cbv zeta.
  apply (download_stores_the_body
           (ext := example_world [] (inl no_columns) example_web true sent_ok)
           "http://host/a.txt" "downloads_colab_ui_async/a.txt"
           200 "OK" "http://host/a.txt" [[Byte.x68; Byte.x69]] None online).
  - intros p w. reflexivity.
  - intros p c w. reflexivity.
  - reflexivity.
  - lia.
Defined.

(** *** Runs without a session *)

Lemma example_web_serves (lines : list string) (parsed : exn + DataFrame)
    (connected : bool) (sent : send_reply) (url : string) :
  Py.item_last (Py.split "/" url) <> "missing" ->
  serves (ext := example_world lines parsed example_web connected sent) url
    [[Byte.x68; Byte.x69]].
Proof.
  intros Hurl w. exists 200%Z, "OK", url. split; [|lia].
  cbn. unfold example_web.
  destruct (String.eqb_spec (Py.item_last (Py.split "/" url)) "missing");
    [contradiction|reflexivity].
Qed.

Lemma offline_run_downloads_only_witness :
  let ext := example_world three_rows_lines (inr three_rows) example_web false sent_ok in
  let r := _run_csv_process_async (ext := ext) (csv_bytes three_rows_lines) offline in
  fst r = true
  /\ overall (snd r) = Some (NInt 100)
  /\ fetched (trace (snd r)) = ["http://host/a.txt"; "http://host/c.txt"]
  /\ published (trace (snd r)) = []
  /\ exists before after,
       trace (snd r)
       = (before
          ++ HttpGet "http://host/c.txt" :: FileOpen "downloads_colab_ui_async/c.txt"
             :: FileWrite "downloads_colab_ui_async/c.txt" [Byte.x68; Byte.x69]
             :: after)%list.
Proof.
  cbv zeta.
  destruct (offline_run_downloads_only
              (ext := example_world three_rows_lines (inr three_rows) example_web
                        false sent_ok)
              (csv_bytes three_rows_lines) three_rows offline)
    as (Hok & Hfinal & Hfetched & Hnone & _ & Hstored).
  - reflexivity.
  - reflexivity.
  - left. reflexivity.
  - discriminate.
  - reflexivity.
  - split; [exact Hok|]. split; [exact Hfinal|]. split; [exact Hfetched|].
    split; [exact Hnone|].
    destruct (Hstored (LInt 2) [CStr "http://host/c.txt"; CStr "third"]
                "http://host/c.txt" [[Byte.x68; Byte.x69]])
      as (now & before & after & Htrace).
    + right. right. left. reflexivity.
    + reflexivity.
    + apply example_web_serves. vm_compute. discriminate.
    + split; intros; reflexivity.
    + exists before, after. exact Htrace.
Defined.

(** Without a session, the manifest [link;caption] with no data row ends
    with the progress at 0, an empty file ends with a failure and the
    progress at -1, and so does the manifest [name;caption / a;b] that has
    no [link] column: none of these runs ends with the progress at 100.
    The run of the manifest whose second link answers 404 ends with the
    progress at 100, but only two of its three files are stored.  And the
    run of the manifest [link;caption / http://host/a.txt;first; /
    http://host/c.txt;third;], whose rows end with a separator and so
    are labelled by their first field, requests nothing and ends with a
    failure and the progress at -1. *)
Lemma offline_run_may_miss_a_file_or_100 :
  let empty := header_only ["link"; "caption"] in
  let unnamed := mkFrame ["name"; "caption"] (default_labels [[CStr "a"; CStr "b"]]) in
  let r1 := _run_csv_process_async
              (ext := example_world ["link;caption"] (inr empty) example_web false sent_ok)
              (csv_bytes ["link;caption"]) offline in
  let r2 := _run_csv_process_async
              (ext := example_world [] (inl no_columns) example_web false sent_ok)
              (csv_bytes []) offline in
  let r3 := _run_csv_process_async
              (ext := example_world ["name;caption"; "a;b"] (inr unnamed) example_web
                        false sent_ok)
              (csv_bytes ["name;caption"; "a;b"]) offline in
  let r4 := _run_csv_process_async
              (ext := example_world one_missing_lines (inr one_missing) example_web
                        false sent_ok)
              (csv_bytes one_missing_lines) offline in
  let r5 := _run_csv_process_async
              (ext := example_world trailing_separator_lines (inr trailing_separator)
                        example_web false sent_ok)
              (csv_bytes trailing_separator_lines) offline in
  client_ready (ext := example_world [] (inl no_columns) example_web false sent_ok)
    offline = false
  /\ (fst r1 = true /\ overall (snd r1) = Some (NInt 0))
  /\ (fst r2 = false /\ overall (snd r2) = Some (NInt (-1)))
  /\ (fst r3 = false /\ overall (snd r3) = Some (NInt (-1)))
  /\ (fst r4 = true /\ overall (snd r4) = Some (NInt 100)
      /\ valid_links one_missing
         = ["http://host/a.txt"; "http://host/missing"; "http://host/c.txt"]
      /\ opened (trace (snd r4))
         = ["downloads_colab_ui_async/a.txt"; "downloads_colab_ui_async/c.txt"])
  /\ (fst r5 = false /\ overall (snd r5) = Some (NInt (-1))
      /\ valid_links trailing_separator = ["first"; "third"]
      /\ fetched (trace (snd r5)) = []
      /\ flashes (snd r5)
         = [("info", "Not connected to Telegram. Files will only be downloaded.");
            ("danger", "CSV processing failed: " ++ cannot_add_to_str)]).
Proof. vm_compute. repeat split. Qed.

(** *** A label that lines 200-201 cannot count *)

Lemma uncountable_label_ends_the_run_witness :
  let ext := example_world half_named_lines (inr half_named) example_web true sent_ok in
  let r := _run_csv_process_async (ext := ext) (csv_bytes half_named_lines) online in
  fst r = false
  /\ overall (snd r) = Some (NInt (-1))
  /\ fetched (trace (snd r)) = ["http://host/missing"]
  /\ exists earlier,
       flashes (snd r)
       = (earlier
          ++ [("danger", ("CSV processing failed: " ++ cannot_add_to_str)%string)])%list.
Proof.
  cbv zeta.
  destruct (uncountable_label_ends_the_run
              (ext := example_world half_named_lines (inr half_named) example_web
                        true sent_ok)
              (csv_bytes half_named_lines) half_named
              [(LFloat NaN, [CStr "http://host/missing"; CStr "first"])] []
              (LStr "b") [CStr "http://host/c.txt"; CStr "second"]
              (type_error "str") online)
    as (Hno & Hfinal & Hfetched & _ & Hflash & _).
  - reflexivity.
  - left. reflexivity.
  - reflexivity.
  - reflexivity.
  - reflexivity.
  - split; [exact Hno|]. split; [exact Hfinal|]. split; [exact Hfetched|exact Hflash].
Defined.

(** * The routes *)

(** The routes of [app.py], the helper [run_async_task] and the two
    coroutines of the connection, on the same state.

    - The request is an argument of a route: the form fields and the
      uploaded file, [None] for a field that is absent.
    - The keys of the session that the pipeline does not use are a
      record [PageKeys] that a route takes and returns.
    - A route answers with a redirect or with the arguments of its
      template; a route that can raise returns a [result].
    - asyncio, the file system and the Telegram client are the fields of
      the class [Server].  The coroutines run to their end once started:
      what the event loop raises, it raises before the coroutine's first
      step. *)

(** ** More Python built-ins *)

(** [needle in hay] *)
Fixpoint str_contains (needle hay : string) : bool :=
  prefix needle hay
  || match hay with
     | EmptyString => false
     | String _ hay' => str_contains needle hay'
     end.

(** [s.endswith(suffix)] *)
Fixpoint endswith (s suffix : string) : bool :=
  String.eqb s suffix
  || match s with
     | EmptyString => false
     | String _ s' => endswith s' suffix
     end.

(** [c.lower()], code points 0-255: a capital letter has its small letter
    32 places on. *)
Definition lower_char (c : ascii) : ascii :=
  let n := N_of_ascii c in
  if Py.between 65 90 n || Py.between 192 214 n || Py.between 216 222 n
  then ascii_of_N (n + 32) else c.

(** [s.lower()] *)
Fixpoint lower (s : string) : string :=
  match s with
  | EmptyString => EmptyString
  | String c s' => String (lower_char c) (lower s')
  end.

(** [os.path.join(d, f)]: an absolute [f] replaces [d]. *)
Definition os_path_join (d f : string) : string :=
  if prefix "/" f then f
  else if String.eqb d "" || endswith d "/" then d ++ f
  else d ++ "/" ++ f.

(** [sorted(l)] of a list of strings. *)
Fixpoint insert_sorted (s : string) (l : list string) : list string :=
  match l with
  | [] => [s]
  | x :: l' => if String.leb s x then s :: l else x :: insert_sorted s l'
  end.

Definition sorted (l : list string) : list string := fold_right insert_sorted [] l.

(** The truth value of an optional string: [None] and [''] are false. *)
Definition given (v : option string) : option string :=
  match v with
  | Some s => if Py.truthy s then Some s else None
  | None => None
  end.

(** ** What the routes need from outside *)

(** An exception as [run_async_task] tells them apart. *)
Record failure : Type := mkFailure {
  is_runtime_error : bool;      (* isinstance(e, RuntimeError) *)
  failure_type_name : string;   (* type(e).__name__ *)
  failure_str : string          (* str(e) *)
}.

(** The exceptions that the handlers of [_connect_session_async] tell
    apart. *)
Inductive telethon_class : Type :=
| ApiIdInvalidError
| FloodWait (seconds : Z)      (* FloodWaitError, with e.seconds *)
| ConnectionError
| OtherTelethonError.          (* any other subclass of Exception *)

Record telethon_exn : Type := mkTelethon {
  telethon_kind : telethon_class;
  as_failure : failure
}.

(** The user that [get_me()] returns: [first_name] as an f-string prints
    it, and [username]. *)
Record Me : Type := mkMe {
  first_name : string;
  username : option string
}.

Class Server (W : Type) : Type := {
  (* lines 45-49, up to the start of the coroutine *)
  event_loop : W -> option failure * W;
  path_exists : string -> W -> bool;               (* os.path.exists(path) *)
  isfile : string -> W -> bool;                    (* os.path.isfile(path) *)
  listdir : string -> W -> failure + list string;  (* os.listdir(path) *)
  getcwd : W -> string;                            (* os.getcwd() *)
  (* int(response.headers.get('content-length', 0)) of the response to a URL *)
  content_length : string -> W -> exn + Z;
  int_of_str : string -> failure + Z;              (* int(s) of a string *)
  (* TelegramClient(StringSession(identifier), api_id, api_hash) for the
     session type 'string', TelegramClient(identifier, api_id, api_hash)
     otherwise *)
  new_client : string -> string -> Z -> string -> W -> option telethon_exn * W;
  client_connect : W -> option telethon_exn * W;        (* await telethon_client.connect() *)
  client_disconnect : W -> option telethon_exn * W;     (* await telethon_client.disconnect() *)
  is_user_authorized : W -> (telethon_exn + bool) * W;  (* await ...is_user_authorized() *)
  get_me : W -> (telethon_exn + Me) * W                 (* await telethon_client.get_me() *)
}.

(** What a call gives: a value, or the exception that leaves it. *)
Inductive result (A : Type) : Type :=
| Returned (a : A)
| Raised (e : failure).
Arguments Returned {A}.
Arguments Raised {A}.

(** What a route answers. *)
Inductive response : Type :=
| Redirect (endpoint : string)   (* redirect(url_for(endpoint)) *)
| RedirectTo (url : string).     (* redirect(url) *)

(** An uploaded file of the request: its name and what [read()] gives. *)
Record FileStorage : Type := mkFile {
  filename : option string;
  read : failure + bytes
}.

(** The keys of the session that only the routes use; [None] is an absent
    key.  The form values are kept as the form gave them, which may be
    [None]. *)
Record PageKeys : Type := mkKeys {
  user_info : option string;
  download_progress : option Q;
  api_id_form : option (option string);
  api_hash_form : option (option string);
  session_type_pref : option (option string);
  session_name_form : option (option string)
}.

Definition with_user_info (v : option string) (k : PageKeys) : PageKeys :=
  mkKeys v (download_progress k) (api_id_form k) (api_hash_form k)
    (session_type_pref k) (session_name_form k).

Definition with_download_progress (v : option Q) (k : PageKeys) : PageKeys :=
  mkKeys (user_info k) v (api_id_form k) (api_hash_form k)
    (session_type_pref k) (session_name_form k).

(** The arguments of [render_template('main_app.html', ...)]. *)
Record Page : Type := mkPage {
  page_user_info : string;
  page_logs : list string;
  page_downloaded_files : list string;
  page_upload_progress : option Q;
  page_download_progress : option Q;
  page_csv_overall_progress : option number;
  page_folder : string;
  page_session_active : bool
}.

(** The form of a POST to the login page. *)
Record LoginForm : Type := mkLogin {
  form_api_id : option string;
  form_api_hash : option string;
  form_session_type : option string;
  form_session_name : option string;
  form_session_string : option string
}.

(** The arguments of [render_template('login.html', ...)]. *)
Record LoginTemplate : Type := mkLoginTemplate {
  login_api_id : option string;
  login_api_hash : option string;
  login_session_type_pref : option string;
  login_session_name : option string;
  login_logs : list string
}.

(** What the login page answers: a redirect or the rendered form. *)
Inductive login_answer : Type :=
| Goes (r : response)
| Renders (t : LoginTemplate).

(** [session.pop(key, None)]; Flask marks the session modified when the
    key was there. *)
Definition pop_logs (s : Session) : Session :=
  match logs s with
  | Some _ =>
      mkSession None (session_active s) (upload_progress s)
        (csv_overall_progress s) (csv_current_item_progress s) true
  | None => s
  end.

Definition pop_upload_progress (s : Session) : Session :=
  match upload_progress s with
  | Some _ =>
      mkSession (logs s) (session_active s) None
        (csv_overall_progress s) (csv_current_item_progress s) true
  | None => s
  end.

Definition pop_csv_overall_progress (s : Session) : Session :=
  match csv_overall_progress s with
  | Some _ =>
      mkSession (logs s) (session_active s) (upload_progress s)
        None (csv_current_item_progress s) true
  | None => s
  end.

(** [session['session_active'] = b] *)
Definition assign_session_active (b : bool) (s : Session) : Session :=
  mkSession (logs s) (Some b) (upload_progress s)
    (csv_overall_progress s) (csv_current_item_progress s) true.

(** [session.get('session_active')], as a truth value. *)
Definition active (s : Session) : bool :=
  match session_active s with Some b => b | None => false end.

Section Routes.

Context {W : Type} {ext : Externals W} {srv : Server W}.

(** *** State primitives of the routes *)

(** Reading the state. *)
Definition look {A} (f : State W -> A) : M W A := fun st => (f st, st).

(** [telethon_client = c] *)
Definition set_client (c : option TelegramClient) : M W unit :=
  fun st => (tt, mkState (session st) (flashes st) c (world st) (trace st)).

(** A change to a key of [PageKeys] that had the value [old]: an
    assignment marks the session modified, a [pop] does when the key was
    there. *)
Definition assigned : M W unit := upd_session assign_modified.

Definition popped {A} (old : option A) : M W unit :=
  match old with
  | Some _ => upd_session assign_modified
  | None => ret tt
  end.

(** *** [run_async_task] (lines 43-58) *)

(** The handlers of lines 50-58. *)
Definition async_failed {A} (e : failure) : M W (result (option A)) :=
  if is_runtime_error e
     && str_contains "This event loop is already running" (failure_str e)
  then
    add_log ("Async execution helper runtime error (nested loop): " ++ failure_str e) ;;
    ret (Raised e)
  else
    add_log ("Async execution helper error: " ++ failure_type_name e ++ " - "
               ++ failure_str e) ;;
    ret (Returned None).

(** The coroutine runs once the loop has started it; what it raises
    reaches the same handlers as a failure of the loop. *)
Definition run_async_task {A} (async_func_with_args : M W (failure + A))
  : M W (result (option A)) :=
  started <- ask event_loop ;;
  match started with
  | Some e => async_failed e
  | None =>
      outcome <- async_func_with_args ;;
      match outcome with
      | inl e => async_failed e
      | inr a => ret (Returned (Some a))
      end
  end.

(** A coroutine that raises nothing. *)
Definition returns {A} (coroutine : M W A) : M W (failure + A) :=
  a <- coroutine ;;
  ret (inr a).

(** *** [_disconnect_session_async] (lines 109-123) *)

Definition _disconnect_session_async (k : PageKeys) : M W (bool * PageKeys) :=
  add_log "Disconnecting current async session..." ;;
  connected <- look (fun st => match telethon_client st with
                               | Some Client => is_connected (world st)
                               | None => false
                               end) ;;
  (if connected : bool then
     r <- ask client_disconnect ;;
     match r with
     | None => add_log "Async session disconnected."
     | Some e => add_log ("Note during async disconnect: " ++ failure_str (as_failure e))
     end
   else add_log "No active async session to disconnect.") ;;
  set_client None ;;
  upd_session (assign_session_active false) ;;
  popped (user_info k) ;;
  ret (true, with_user_info None k).

(** *** [main_app_page] (lines 326-361) *)

(** Lines 337-344. *)
Definition list_downloads : M W (list string) :=
  exists_ <- look (fun st => path_exists DOWNLOAD_FOLDER_UI (world st)) ;;
  if exists_ : bool then
    listed <- look (fun st => listdir DOWNLOAD_FOLDER_UI (world st)) ;;
    match listed with
    | inr names =>
        look (fun st =>
                sorted (filter (fun f => isfile (os_path_join DOWNLOAD_FOLDER_UI f)
                                           (world st)) names))
    | inl e =>
        add_log ("Error listing downloaded files: " ++ failure_str e) ;;
        flash ("Error listing files: " ++ failure_str e) "danger" ;;
        ret []
    end
  else ret [].

Definition main_app_page (k : PageKeys) : M W (Page * PageKeys) :=
  is_active <- look (fun st => active (session st)) ;;
  k1 <- (if is_active : bool then ret k
         else
           flash "Not connected to Telegram. Some features like upload and CSV processing will be limited."
             "warning" ;;
           assigned ;;
           ret (with_user_info (Some "N/A (Not Connected to Telegram)") k)) ;;
  downloaded_files <- list_downloads ;;
  upload_progress_ <- look (fun st => upload_progress (session st)) ;;
  upd_session pop_upload_progress ;;
  popped (download_progress k1) ;;
  csv_overall_progress_ <- look (fun st => csv_overall_progress (session st)) ;;
  upd_session pop_csv_overall_progress ;;
  s <- look session ;;
  ret (mkPage (match user_info k1 with Some u => u | None => "N/A" end)
         (match logs s with Some l => l | None => [] end)
         downloaded_files
         upload_progress_ (download_progress k1) csv_overall_progress_
         (Py.basename DOWNLOAD_FOLDER_UI)
         (active s),
       with_download_progress None k1).

(** *** [disconnect] (lines 363-373) *)

Definition disconnect (k : PageKeys) : M W (result response * PageKeys) :=
  done <- run_async_task (returns (_disconnect_session_async k)) ;;
  match done with
  | Raised e => ret (Raised e, k)
  | Returned returned =>
      let k1 := match returned with Some (_, k') => k' | None => k end in
      flash "Session disconnected." "info" ;;
      popped (api_id_form k1) ;;
      popped (api_hash_form k1) ;;
      popped (session_name_form k1) ;;
      popped (user_info k1) ;;
      upd_session (assign_session_active false) ;;
      ret (Returned (Redirect "login_page"),
           mkKeys None (download_progress k1) None None (session_type_pref k1) None)
  end.

(** *** [download_from_link_route] (lines 375-423) *)

(** Lines 386-389; the filter is that of lines 210-211. *)
Definition link_name (url_val : string) : M W string :=
  let name := cleaned_name url_val in
  if Py.truthy name then ret name
  else now <- ask time_time ;; ret ("downloaded_file_" ++ Py.str_int now).

(** Lines 403-406: the progress after a chunk. *)
Definition chunk_progress (total_size_in_bytes downloaded_size : Z) (k : PageKeys)
  : M W PageKeys :=
  if (0 <? total_size_in_bytes)%Z then
    let current_progress :=
      (inject_Z downloaded_size / inject_Z total_size_in_bytes) * 100 in
    let shown := match download_progress k with Some p => p | None => 0 end in
    if ((int_of current_progress mod 10 =? 0)
        && negb (int_of current_progress =? int_of shown))%Z
    then assigned ;; ret (with_download_progress (Some current_progress) k)
    else ret k
  else ret k.

(** Lines 399-406: the loop over [response.iter_content]. *)
Fixpoint save_chunks (path : string) (total_size_in_bytes downloaded_size : Z)
    (chunks : list bytes) (k : PageKeys) : M W (option exn * PageKeys) :=
  match chunks with
  | [] => ret (None, k)
  | chunk_data :: chunks' =>
      match chunk_data with
      | [] => save_chunks path total_size_in_bytes downloaded_size chunks' k
      | _ =>
          emit (FileWrite path chunk_data) ;;
          r <- ask (file_write path chunk_data) ;;
          match r with
          | Some e => ret (Some e, k)
          | None =>
              let downloaded_size :=
                (downloaded_size + Z.of_nat (length chunk_data))%Z in
              k1 <- chunk_progress total_size_in_bytes downloaded_size k ;;
              save_chunks path total_size_in_bytes downloaded_size chunks' k1
          end
      end
  end.

(** Lines 393-406: the exception that leaves the block, if any. *)
Definition fetch_link (url_val download_filepath : string) (k : PageKeys)
  : M W (option exn * PageKeys) :=
  add_log ("Starting download from " ++ url_val ++ " to " ++ download_filepath) ;;
  emit (HttpGet url_val) ;;
  response <- ask (requests_get url_val) ;;
  match response with
  | GetRaised e => ret (Some e, k)
  | GetResponse status_code reason url chunks broken =>
      match raise_for_status status_code reason url with
      | Some e => ret (Some e, k)
      | None =>
          size <- look (fun st => content_length url_val (world st)) ;;
          match size with
          | inl e => ret (Some e, k)
          | inr total_size_in_bytes =>
              emit (FileOpen download_filepath) ;;
              opened <- ask (open_wb download_filepath) ;;
              match opened with
              | Some e => ret (Some e, k)
              | None =>
                  written <- save_chunks download_filepath total_size_in_bytes 0
                               chunks k ;;
                  match fst written with
                  | Some e => ret written
                  | None => ret (broken, snd written)
                  end
              end
          end
      end
  end.

(** Lines 411-421: the end of the [try] and its two handlers. *)
Definition link_done (file_name_from_url : string) (failure : option exn)
    (k : PageKeys) : M W PageKeys :=
  match failure with
  | None =>
      assigned ;;
      add_log ("Download completed: " ++ file_name_from_url) ;;
      flash ("Download completed: " ++ file_name_from_url) "success" ;;
      ret (with_download_progress (Some 100) k)
  | Some e =>
      (if is_request_exception e then
         add_log ("Download failed (Request Error): " ++ exn_str e)
       else
         add_log ("Download failed (General Error): " ++ exn_str e)) ;;
      flash ("Download failed: " ++ exn_str e) "danger" ;;
      assigned ;;
      ret (with_download_progress (Some (-1)) k)
  end.

Definition download_from_link_route (download_link : option string) (k : PageKeys)
  : M W (response * PageKeys) :=
  match given download_link with
  | None =>
      flash "Download Error: Please enter a valid URL." "danger" ;;
      add_log "Download Error: Empty URL provided." ;;
      ret (Redirect "main_app_page", k)
  | Some url_val =>
      assigned ;;
      upd_session assign_modified ;;
      file_name_from_url <- link_name url_val ;;
      let download_filepath := os_path_join DOWNLOAD_FOLDER_UI file_name_from_url in
      r <- fetch_link url_val download_filepath
             (with_download_progress (Some 0) k) ;;
      k' <- link_done file_name_from_url (fst r) (snd r) ;;
      upd_session assign_modified ;;
      ret (Redirect "main_app_page", k')
  end.

(** *** [upload_file_route] (lines 426-447) *)

(** The form fields [file_to_upload] and [caption] are the input. *)
Definition upload_file_route (file_to_upload caption : option string)
  : M W (result response) :=
  is_active <- look (fun st => active (session st)) ;;
  if negb is_active then
    flash "Not connected to Telegram. Cannot upload." "danger" ;;
    add_log "Upload attempt failed: Not connected to Telegram." ;;
    ret (Returned (Redirect "main_app_page"))
  else
    match given file_to_upload with
    | None =>
        flash "Upload Error: Please select a file." "danger" ;;
        ret (Returned (Redirect "main_app_page"))
    | Some selected_file =>
        let upload_filepath := os_path_join DOWNLOAD_FOLDER_UI selected_file in
        found <- look (fun st => path_exists upload_filepath (world st)) ;;
        if negb found then
          flash ("Upload Error: File '" ++ selected_file ++ "' not found in '"
                   ++ DOWNLOAD_FOLDER_UI ++ "'.") "danger" ;;
          add_log ("Upload Error: File '" ++ selected_file ++ "' not found at '"
                     ++ upload_filepath ++ "'.") ;;
          ret (Returned (Redirect "main_app_page"))
        else
          done <- run_async_task
                    (returns (_upload_file_async upload_filepath
                                (match caption with Some c => c | None => "" end))) ;;
          ret (match done with
               | Returned _ => Returned (Redirect "main_app_page")
               | Raised e => Raised e
               end)
    end.

(** *** [process_csv_route] (lines 450-476) *)

(** Lines 471-474: the handler. *)
Definition csv_route_failed (e : failure) : M W unit :=
  add_log ("Error reading/initiating CSV processing: " ++ failure_str e) ;;
  flash ("Error processing CSV: " ++ failure_str e) "danger" ;;
  set_overall (NInt (-1)).

(** Lines 464-474. *)
Definition start_csv (name : string) (file : FileStorage) : M W unit :=
  match read file with
  | inl e => csv_route_failed e
  | inr csv_content_bytes =>
      flash ("Processing CSV file: " ++ name ++ ". This may take a while...") "info" ;;
      add_log ("Received CSV file for processing: " ++ name) ;;
      done <- run_async_task (returns (_run_csv_process_async csv_content_bytes)) ;;
      match done with
      | Returned _ => ret tt
      | Raised e => csv_route_failed e
      end
  end.

Definition process_csv_route (csv_file : option FileStorage) : M W response :=
  match csv_file with
  | None =>
      flash "CSV Error: Please upload a CSV file." "danger" ;;
      ret (Redirect "main_app_page")
  | Some file =>
      match given (filename file) with
      | None =>
          flash "CSV Error: Please upload a CSV file." "danger" ;;
          ret (Redirect "main_app_page")
      | Some name =>
          if negb (endswith (lower name) ".csv") then
            flash "CSV Error: Please upload a valid .csv file." "danger" ;;
            ret (Redirect "main_app_page")
          else
            start_csv name file ;;
            ret (Redirect "main_app_page")
      end
  end.

(** *** [clear_logs_route] (lines 478-483) *)

Definition clear_logs_route (referrer : option string) : M W response :=
  upd_session pop_logs ;;
  flash "Logs cleared." "info" ;;
  ret (match given referrer with
       | Some url => RedirectTo url
       | None => Redirect "main_app_page"
       end).

(** *** [_connect_session_async] (lines 62-107) *)

(** [telethon_client and telethon_client.is_connected()] *)
Definition client_connected (st : State W) : bool :=
  match telethon_client st with
  | Some Client => is_connected (world st)
  | None => false
  end.

(** [f"{me.first_name} (@{me.username or 'N/A'})"] *)
Definition me_shown (me : Me) : string :=
  first_name me ++ " (@"
    ++ match given (username me) with Some u => u | None => "N/A" end ++ ")".

(** Lines 74-92: the body of the [try]; [inl e] when [e] was raised in it. *)
Definition try_connect (current_api_id : Z) (api_hash_str chosen_session_type
    session_identifier : string) (k : PageKeys)
  : M W (telethon_exn + bool * PageKeys) :=
  add_log ("Attempting async connect using " ++ chosen_session_type ++ " session: '"
             ++ (if String.eqb chosen_session_type "string"
                 then substring 0 20 session_identifier
                 else session_identifier) ++ "...'") ;;
  made <- ask (new_client chosen_session_type session_identifier current_api_id
                 api_hash_str) ;;
  match made with
  | Some e => ret (inl e)
  | None =>
      set_client (Some Client) ;;
      connected <- ask client_connect ;;
      match connected with
      | Some e => ret (inl e)
      | None =>
          is_connected_ <- look (fun st => is_connected (world st)) ;;
          authorized <- (if is_connected_ : bool then ask is_user_authorized
                         else ret (inr false)) ;;
          match authorized with
          | inl e => ret (inl e)
          | inr true =>
              me <- ask get_me ;;
              match me with
              | inl e => ret (inl e)
              | inr me =>
                  add_log ("Async connect successful! Logged in as: " ++ me_shown me) ;;
                  upd_session (assign_session_active true) ;;
                  assigned ;;
                  ret (inr (true, with_user_info (Some (me_shown me)) k))
              end
          | inr false =>
              add_log "Async connect: Failed to connect or session not authorized." ;;
              still <- look (fun st => is_connected (world st)) ;;
              dropped <- (if still : bool then ask client_disconnect else ret None) ;;
              match dropped with
              | Some e => ret (inl e)
              | None =>
                  upd_session (assign_session_active false) ;;
                  ret (inr (false, k))
              end
          end
      end
  end.

(** The log lines of the handlers of lines 93-107. *)
Definition connect_failed_log (e : telethon_exn) : string :=
  match telethon_kind e with
  | ApiIdInvalidError =>
      "Telethon Error: Invalid API ID or API Hash. Please check your credentials."
  | FloodWait seconds =>
      "Connection Error (Flood Wait): Please wait " ++ Py.str_int seconds ++ " seconds."
  | ConnectionError =>
      "Network Connection Error: " ++ failure_str (as_failure e) ++ "."
  | OtherTelethonError =>
      "Error during async session connection: " ++ failure_type_name (as_failure e)
        ++ " - " ++ failure_str (as_failure e)
  end.

(** Lines 93-107: the handlers; what [disconnect()] raises in one of them
    leaves the coroutine. *)
Definition connect_failed (e : telethon_exn) : M W (failure + bool) :=
  add_log (connect_failed_log e) ;;
  dropped <- match telethon_kind e with
             | ApiIdInvalidError => ret None
             | _ =>
                 connected <- look client_connected ;;
                 if connected : bool then ask client_disconnect else ret None
             end ;;
  match dropped with
  | Some e' => ret (inl (as_failure e'))
  | None =>
      upd_session (assign_session_active false) ;;
      ret (inr false)
  end.

(** Lines 66-69: [telethon_client.is_connected] is not called there, so
    the test is that of [telethon_client] alone. *)
Definition drop_previous_client : M W unit :=
  previous <- look telethon_client ;;
  match previous with
  | Some Client =>
      add_log "Disconnecting previous async session..." ;;
      r <- ask client_disconnect ;;
      match r with
      | Some e =>
          add_log ("Note during old client disconnect: " ++ failure_str (as_failure e))
      | None => ret tt
      end
  | None => ret tt
  end.

Definition _connect_session_async (api_id_str api_hash_str chosen_session_type
    session_identifier : string) (k : PageKeys) : M W (failure + bool * PageKeys) :=
  match int_of_str api_id_str with
  | inl e => ret (inl e)
  | inr current_api_id =>
      drop_previous_client ;;
      set_client None ;;
      upd_session (assign_session_active false) ;;
      r <- try_connect current_api_id api_hash_str chosen_session_type
             session_identifier k ;;
      match r with
      | inr done => ret (inr done)
      | inl e =>
          handled <- connect_failed e ;;
          ret (match handled with
               | inl e' => inl e'
               | inr connect_success => inr (connect_success, k)
               end)
      end
  end.

(** *** [login_page] (lines 257-324) *)

(** Lines 281-299: the session type and identifier of the form; [None]
    when the form is refused. *)
Definition session_of_form (form : LoginForm) : M W (option (string * string)) :=
  match form_session_type form with
  | Some session_type =>
      if String.eqb session_type "file" then
        match given (form_session_name form) with
        | None =>
            flash "Session File Name required for file session type." "danger" ;;
            ret None
        | Some session_name =>
            here <- look (fun st => path_exists (session_name ++ ".session") (world st)) ;;
            there <- look (fun st =>
                             path_exists (os_path_join (getcwd (world st))
                                            (session_name ++ ".session")) (world st)) ;;
            if here || there then ret (Some (session_type, session_name))
            else
              flash ("Error: Session file '" ++ session_name
                       ++ ".session' not found in current directory.") "danger" ;;
              cwd <- look (fun st => getcwd (world st)) ;;
              add_log ("Error: Session file '" ++ session_name
                         ++ ".session' not found in " ++ cwd ++ ".") ;;
              ret None
        end
      else if String.eqb session_type "string" then
        match given (form_session_string form) with
        | None =>
            flash "Session String required for string session type." "danger" ;;
            ret None
        | Some session_string => ret (Some (session_type, session_string))
        end
      else
        flash "Invalid session type selected." "danger" ;;
        ret None
  | None =>
      flash "Invalid session type selected." "danger" ;;
      ret None
  end.

(** Lines 305-314: after the connection attempt; [k] are the keys when the
    coroutine did not return. *)
Definition login_done (done : result (option (bool * PageKeys))) (k : PageKeys)
  : M W (result response * PageKeys) :=
  match done with
  | Raised e => ret (Raised e, k)
  | Returned (Some (true, k1)) =>
      flash ("Connected as "
               ++ match user_info k1 with Some u => u | None => "Unknown User" end)
        "success" ;;
      popped (api_id_form k1) ;;
      popped (api_hash_form k1) ;;
      popped (session_name_form k1) ;;
      ret (Returned (Redirect "main_app_page"),
           mkKeys (user_info k1) (download_progress k1) None None
             (session_type_pref k1) None)
  | Returned (Some (false, k1)) =>
      flash "Connection failed. Check logs for details." "danger" ;;
      ret (Returned (Redirect "login_page"), k1)
  | Returned None =>
      flash "Connection failed. Check logs for details." "danger" ;;
      ret (Returned (Redirect "login_page"), k)
  end.

(** Lines 261-314: a POST. *)
Definition login_post (form : LoginForm) (k : PageKeys)
  : M W (result response * PageKeys) :=
  assigned ;;
  assigned ;;
  assigned ;;
  assigned ;;
  let k0 := mkKeys (user_info k) (download_progress k) (Some (form_api_id form))
              (Some (form_api_hash form)) (Some (form_session_type form))
              (Some (form_session_name form)) in
  match given (form_api_id form), given (form_api_hash form) with
  | Some api_id, Some api_hash =>
      match int_of_str api_id with
      | inl _ =>
          flash "API ID must be an integer." "danger" ;;
          ret (Returned (Redirect "login_page"), k0)
      | inr _ =>
          chosen <- session_of_form form ;;
          match chosen with
          | None => ret (Returned (Redirect "login_page"), k0)
          | Some (session_type, session_identifier) =>
              done <- run_async_task
                        (_connect_session_async api_id api_hash session_type
                           session_identifier k0) ;;
              login_done done k0
          end
      end
  | _, _ =>
      flash "API ID and API Hash are required." "danger" ;;
      ret (Returned (Redirect "login_page"), k0)
  end.

(** [post] is the form of a POST, [None] for a GET. *)
Definition login_page (post : option LoginForm) (k : PageKeys)
  : M W (result login_answer * PageKeys) :=
  match post with
  | Some form =>
      r <- login_post form k ;;
      ret (match fst r with
           | Returned answer => Returned (Goes answer)
           | Raised e => Raised e
           end, snd r)
  | None =>
      s <- look session ;;
      if active s then ret (Returned (Goes (Redirect "main_app_page")), k)
      else
        ret (Returned
               (Renders
                  (mkLoginTemplate
                     (match api_id_form k with Some v => v | None => Some "" end)
                     (match api_hash_form k with Some v => v | None => Some "" end)
                     (match session_type_pref k with Some v => v | None => Some "file" end)
                     (match session_name_form k with Some v => v | None => Some "" end)
                     (match logs s with Some l => l | None => [] end))), k)
  end.

(** *** [initialize_application_state] (lines 487-488) *)

Definition initialize_application_state : M W unit :=
  add_log "Flask Telethon UI Application starting...".

End Routes.

Arguments look : simpl never.
Arguments set_client : simpl never.

(** ** Observations on the routes *)

(** [e] is the nested-loop error that [run_async_task] raises again. *)
Definition nested_loop (e : failure) : bool :=
  is_runtime_error e
  && str_contains "This event loop is already running" (failure_str e).

(** The paths of the files that a trace opens or writes. *)
Definition file_pick (e : Event) : list string :=
  match e with
  | FileOpen path => [path]
  | FileWrite path _ => [path]
  | _ => []
  end.

Definition touched_files (tr : list Event) : list string := flat_map file_pick tr.

Section RouteFacts.

Context {W : Type} {ext : Externals W} {srv : Server W}.

Local Abbreviation preserves := (@preserves W _ _) (only parsing).

Lemma look_run {A} (f : State W -> A) (st : State W) : look f st = (f st, st).
Proof. reflexivity. Qed.

Lemma look_keeps {A X} (obs : State W -> X) (f : State W -> A) : preserves obs (look f).
Proof. intros st. reflexivity. Qed.

Lemma set_client_trace c : preserves trace (set_client c).
Proof. intros st. reflexivity. Qed.

Lemma set_client_flashes c : preserves flashes (set_client c).
Proof. intros st. reflexivity. Qed.

Hint Resolve add_log_trace flash_trace upd_session_trace set_client_trace
  add_log_flashes upd_session_flashes emit_flashes set_overall_flashes
  set_client_flashes : quiet.
Hint Resolve @ask_trace @ask_flashes @look_keeps : quiet.

Ltac quiet :=
  repeat first
    [ solve [auto with quiet]
    | apply preserves_ret
    | apply preserves_bind; [|intros ?]
    | match goal with
      | |- preserves _ (if ?b then _ else _) => destruct b
      | |- preserves _ (match ?x with _ => _ end) => destruct x
      end ].

Lemma assigned_trace : preserves trace assigned.
Proof. unfold assigned. quiet. Qed.

Lemma assigned_flashes : preserves flashes assigned.
Proof. unfold assigned. quiet. Qed.

Lemma popped_trace {A} (old : option A) : preserves trace (popped old).
Proof. unfold popped. quiet. Qed.

Lemma popped_flashes {A} (old : option A) : preserves flashes (popped old).
Proof. unfold popped. quiet. Qed.

Lemma popped_world {A} (old : option A) : preserves world (popped old).
Proof. intros st. destruct old; reflexivity. Qed.

Lemma flash_world message category : preserves world (flash message category).
Proof. intros st. reflexivity. Qed.

Hint Resolve assigned_trace assigned_flashes : quiet.
Hint Resolve @popped_trace @popped_flashes : quiet.

Lemma async_failed_trace {A} e : preserves trace (@async_failed W ext A e).
Proof. unfold async_failed. quiet. Qed.

Lemma async_failed_flashes {A} e : preserves flashes (@async_failed W ext A e).
Proof. unfold async_failed. quiet. Qed.

Hint Resolve @async_failed_trace @async_failed_flashes : quiet.

Lemma run_async_task_keeps {A X} (obs : State W -> X)
    (coroutine : M W (failure + A)) :
  (forall B (call : W -> B * W), preserves obs (ask call)) ->
  (forall message, preserves obs (add_log message)) ->
  preserves obs coroutine ->
  preserves obs (run_async_task coroutine).
Proof.
  intros Hask Hlog Hco. unfold run_async_task, async_failed.
  apply preserves_bind; [apply Hask|intros [e|]].
  - destruct (_ && _); (apply preserves_bind; [apply Hlog|intros ?; apply preserves_ret]).
  - apply preserves_bind; [exact Hco|intros [e|a]]; [|apply preserves_ret].
    destruct (_ && _); (apply preserves_bind; [apply Hlog|intros ?; apply preserves_ret]).
Qed.

Lemma returns_keeps {A X} (obs : State W -> X) (coroutine : M W A) :
  preserves obs coroutine -> preserves obs (returns coroutine).
Proof.
  intros H. unfold returns. apply preserves_bind; [exact H|intros ?; apply preserves_ret].
Qed.

Lemma _disconnect_session_async_trace k : preserves trace (_disconnect_session_async k).
Proof. unfold _disconnect_session_async. quiet. Qed.

Lemma disconnect_trace k : preserves trace (disconnect k).
Proof.
  unfold disconnect. apply preserves_bind.
  - apply run_async_task_keeps; [intros; apply ask_trace|apply add_log_trace|].
    apply returns_keeps, _disconnect_session_async_trace.
  - intros [returned|e]; quiet.
Qed.

Lemma list_downloads_trace : preserves trace list_downloads.
Proof. unfold list_downloads. quiet. Qed.

Hint Resolve list_downloads_trace : quiet.

Lemma main_app_page_trace k : preserves trace (main_app_page k).
Proof. unfold main_app_page. quiet. Qed.

Lemma clear_logs_route_trace referrer : preserves trace (clear_logs_route referrer).
Proof. unfold clear_logs_route. quiet. Qed.

(** *** [disconnect] *)

Lemma ask_session {A} (call : W -> A * W) : preserves session (ask call).
Proof. intros st. unfold ask. destruct (call (world st)). reflexivity. Qed.

Lemma ask_client {A} (call : W -> A * W) : preserves telethon_client (ask call).
Proof. intros st. unfold ask. destruct (call (world st)). reflexivity. Qed.

Lemma add_log_client message : preserves telethon_client (add_log message).
Proof. intros st. rewrite add_log_run. reflexivity. Qed.

Lemma add_log_active message (st : State W) :
  session_active (session (snd (add_log message st))) = session_active (session st).
Proof.
  rewrite add_log_run. cbn [snd session].
  destruct (session st) as [[l|] ? ? ? ? ?]; reflexivity.
Qed.

Lemma async_failed_result {A} (e : failure) (st : State W) :
  fst (@async_failed W ext A e st)
  = if nested_loop e then Raised e else Returned None.
Proof.
  unfold async_failed, nested_loop.
  destruct (_ && _); rewrite bind_run; reflexivity.
Qed.

Lemma async_failed_active {A} (e : failure) (st : State W) :
  session_active (session (snd (@async_failed W ext A e st)))
  = session_active (session st).
Proof.
  unfold async_failed.
  destruct (_ && _); rewrite bind_run; cbn [ret snd]; apply add_log_active.
Qed.

Lemma async_failed_client {A} (e : failure) :
  preserves telethon_client (@async_failed W ext A e).
Proof.
  unfold async_failed. destruct (_ && _);
    (apply preserves_bind; [apply add_log_client|intros ?; apply preserves_ret]).
Qed.

Lemma upd_session_client f : preserves telethon_client (upd_session f).
Proof. intros st. reflexivity. Qed.

Lemma flash_client message category : preserves telethon_client (flash message category).
Proof. intros st. reflexivity. Qed.

Lemma popped_client {A} (old : option A) : preserves telethon_client (popped old).
Proof. intros st. destruct old; reflexivity. Qed.

Lemma popped_active {A} (old : option A) (st : State W) :
  session_active (session (snd (popped old st))) = session_active (session st).
Proof. destruct old; reflexivity. Qed.

Lemma _disconnect_session_async_flashes k :
  preserves flashes (_disconnect_session_async k).
Proof. unfold _disconnect_session_async. quiet. Qed.

(** What the coroutine of [disconnect] leaves. *)
Lemma _disconnect_session_async_run k (st : State W) :
  let r := _disconnect_session_async k st in
  fst r = (true, with_user_info None k)
  /\ telethon_client (snd r) = None
  /\ session_active (session (snd r)) = Some false.
Proof.
  cbv zeta. unfold _disconnect_session_async. rewrite !bind_run. cbn [ret fst snd].
  split; [reflexivity|]. split.
  - destruct (user_info k); reflexivity.
  - rewrite popped_active. reflexivity.
Qed.

Lemma disconnect_run (k : PageKeys) (st : State W) :
  let r := disconnect k st in
  trace (snd r) = trace st
  /\ match fst (fst r) with
     | Returned answer =>
         answer = Redirect "login_page"
         /\ session_active (session (snd r)) = Some false
         /\ snd (fst r)
            = mkKeys None (download_progress k) None None (session_type_pref k) None
         /\ last (flashes (snd r)) ("", "") = ("info", "Session disconnected.")
         /\ (fst (event_loop (world st)) = None -> telethon_client (snd r) = None)
     | Raised e =>
         nested_loop e = true
         /\ fst (event_loop (world st)) = Some e
         /\ session_active (session (snd r)) = session_active (session st)
         /\ telethon_client (snd r) = telethon_client st
         /\ snd (fst r) = k
         /\ flashes (snd r) = flashes st
     end.
Proof.
  cbv zeta. split; [apply disconnect_trace|].
  unfold disconnect, run_async_task. rewrite !bind_run, ask_value.
  destruct (fst (event_loop (world st))) as [e|] eqn:Hloop.
  - rewrite async_failed_result.
    destruct (nested_loop e) eqn:Hnested; cbn [ret fst snd].
    + split; [exact Hnested|]. split; [reflexivity|].
      rewrite async_failed_active, async_failed_client, async_failed_flashes.
      rewrite ask_session, ask_client, ask_flashes. repeat split.
    + rewrite !bind_run. cbn [ret fst snd].
      split; [reflexivity|]. split; [reflexivity|]. split; [reflexivity|].
      split; [|intros H; discriminate H].
      rewrite upd_session_flashes, !popped_flashes, flash_flashes. apply last_last.
  - unfold returns. rewrite !bind_run. cbn [ret fst snd].
    destruct (_disconnect_session_async_run k (snd (ask event_loop st)))
      as (Hret & Hclient & _).
    cbv zeta in Hret, Hclient. rewrite Hret. cbn [fst snd].
    rewrite !bind_run. cbn [ret fst snd].
    split; [reflexivity|]. split; [reflexivity|]. split; [reflexivity|].
    split.
    + rewrite upd_session_flashes, !popped_flashes, flash_flashes. apply last_last.
    + intros _. rewrite upd_session_client, !popped_client, flash_client.
      exact Hclient.
Qed.

(** X12.  [disconnect] makes no request, writes no file and sends
    nothing.  When it answers, it redirects to the login page, the
    session is marked inactive, the user's name and the remembered form
    values are gone, and the last flashed message is the confirmation;
    the client is dropped when the event loop could start the coroutine.
    It raises only the nested-loop error of the event loop, and then the
    session, the client and the flashed messages are as before. *)
Theorem disconnect_ends_the_session (k : PageKeys) (st : State W) :
  let r := disconnect k st in
  trace (snd r) = trace st
  /\ match fst (fst r) with
     | Returned answer =>
         answer = Redirect "login_page"
         /\ session_active (session (snd r)) = Some false
         /\ snd (fst r)
            = mkKeys None (download_progress k) None None (session_type_pref k) None
         /\ last (flashes (snd r)) ("", "") = ("info", "Session disconnected.")
         /\ (fst (event_loop (world st)) = None -> telethon_client (snd r) = None)
     | Raised e =>
         nested_loop e = true
         /\ fst (event_loop (world st)) = Some e
         /\ session_active (session (snd r)) = session_active (session st)
         /\ telethon_client (snd r) = telethon_client st
         /\ snd (fst r) = k
         /\ flashes (snd r) = flashes st
     end.
Proof. apply disconnect_run. Qed.

(** *** [run_async_task] on a coroutine that raises nothing *)

Lemma run_async_task_returns {A} (coroutine : M W A) (st : State W) :
  run_async_task (returns coroutine) st
  = match fst (event_loop (world st)) with
    | Some e => async_failed e (snd (ask event_loop st))
    | None =>
        (Returned (Some (fst (coroutine (snd (ask event_loop st))))),
         snd (coroutine (snd (ask event_loop st))))
    end.
Proof.
  unfold run_async_task. rewrite bind_run, ask_value.
  destruct (fst (event_loop (world st))); [reflexivity|].
  unfold returns. rewrite !bind_run. reflexivity.
Qed.

Lemma async_failed_newest {A} (e : failure) (st : State W) :
  nested_loop e = false ->
  logged_last ("Async execution helper error: " ++ failure_type_name e ++ " - "
                 ++ failure_str e)
    (snd (@async_failed W ext A e st)).
Proof.
  intros Hnested. unfold async_failed. fold (nested_loop e). rewrite Hnested.
  rewrite bind_run. cbn [ret snd]. eexists. apply add_log_newest.
Qed.

Lemma async_failed_upload {A} (e : failure) (st : State W) :
  upload_progress (session (snd (@async_failed W ext A e st)))
  = upload_progress (session st).
Proof.
  unfold async_failed.
  destruct (_ && _); rewrite bind_run; cbn [ret snd]; rewrite add_log_run;
    apply session_add_log_upload.
Qed.

(** *** [upload_file_route] *)

Lemma given_some (v : option string) (s : string) :
  given v = Some s <-> v = Some s /\ s <> "".
Proof.
  unfold given, Py.truthy. destruct v as [t|].
  - destruct (String.eqb_spec t ""); cbn [negb]; split.
    + discriminate.
    + intros [H Hs]. injection H as ->. contradiction.
    + intros H. injection H as ->. split; [reflexivity|assumption].
    + intros [H _]. exact H.
  - split; [discriminate|intros [H _]; discriminate H].
Qed.

(** X10.  [upload_file_route] hands at most one file to [send_file], and
    only a file that exists, under the path [os.path.join] gives for the
    selected name, with the caption of the form, in an active session. *)
Theorem upload_route_sends_one_existing_file (file_to_upload caption : option string)
    (st : State W) :
  let r := upload_file_route file_to_upload caption st in
  published (trace (snd r)) = published (trace st)
  \/ exists selected_file,
       given file_to_upload = Some selected_file
       /\ active (session st) = true
       /\ path_exists (os_path_join DOWNLOAD_FOLDER_UI selected_file) (world st) = true
       /\ published (trace (snd r))
          = (published (trace st)
             ++ [(os_path_join DOWNLOAD_FOLDER_UI selected_file,
                  match caption with Some c => c | None => "" end)])%list.
Proof.
  cbv zeta. unfold upload_file_route. rewrite bind_run, look_run. cbn [fst snd].
  destruct (active (session st)) eqn:Hactive; cbn [negb].
  2:{ left. rewrite !bind_run. cbn [ret snd]. rewrite add_log_trace. reflexivity. }
  destruct (given file_to_upload) as [selected_file|] eqn:Hfile.
  2:{ left. reflexivity. }
  rewrite bind_run, look_run. cbn [fst snd].
  destruct (path_exists _ (world st)) eqn:Hfound; cbn [negb].
  2:{ left. rewrite !bind_run. cbn [ret snd]. rewrite add_log_trace. reflexivity. }
  rewrite bind_run, run_async_task_returns. cbn [ret snd].
  destruct (fst (event_loop (world st))) as [e|].
  { left. rewrite async_failed_trace, ask_trace. reflexivity. }
  cbn [snd].
  pose proof (upload_select publish_pick
                (os_path_join DOWNLOAD_FOLDER_UI selected_file)
                (match caption with Some c => c | None => "" end)
                (snd (ask event_loop st))) as Hsel.
  unfold select in Hsel. rewrite ask_trace in Hsel.
  destruct (client_ready _).
  - right. exists selected_file. repeat split; try assumption.
  - left. rewrite app_nil_r in Hsel. exact Hsel.
Qed.

(** X11.  The selected name is not confined to the download folder:
    [os.path.join] returns an absolute name as it is, so in a connected
    session the route sends the file of that absolute path. *)
Theorem absolute_name_leaves_the_folder (selected_file : string)
    (caption : option string) (st : State W) :
  prefix "/" selected_file = true ->
  active (session st) = true ->
  path_exists selected_file (world st) = true ->
  fst (event_loop (world st)) = None ->
  client_ready (snd (ask event_loop st)) = true ->
  let r := upload_file_route (Some selected_file) caption st in
  fst r = Returned (Redirect "main_app_page")
  /\ published (trace (snd r))
     = (published (trace st)
        ++ [(selected_file, match caption with Some c => c | None => "" end)])%list.
Proof.
  intros Habs Hactive Hfound Hloop Hready. cbv zeta.
  assert (Hgiven : given (Some selected_file) = Some selected_file).
  { apply given_some. split; [reflexivity|].
    intros ->. discriminate Habs. }
  assert (Hpath : os_path_join DOWNLOAD_FOLDER_UI selected_file = selected_file).
  { unfold os_path_join. rewrite Habs. reflexivity. }
  unfold upload_file_route. rewrite bind_run, look_run. cbn [fst snd].
  rewrite Hactive, Hgiven. cbn [negb].
  rewrite bind_run, look_run, Hpath. cbn [fst snd]. rewrite Hfound. cbn [negb].
  rewrite bind_run, run_async_task_returns, Hloop. cbn [ret fst snd].
  split; [reflexivity|].
  pose proof (upload_select publish_pick selected_file
                (match caption with Some c => c | None => "" end)
                (snd (ask event_loop st))) as Hsel.
  unfold select in Hsel. rewrite ask_trace, Hready in Hsel. exact Hsel.
Qed.

(** X24.  When the event loop fails with anything but the nested-loop
    error, the upload does not take place and the user is not told: the
    route redirects as after a success, it flashes nothing and leaves the
    upload progress as it was; the failure is in the log only. *)
Theorem loop_failure_is_only_logged (file_to_upload caption : option string)
    (selected_file : string) (e : failure) (st : State W) :
  active (session st) = true ->
  given file_to_upload = Some selected_file ->
  path_exists (os_path_join DOWNLOAD_FOLDER_UI selected_file) (world st) = true ->
  fst (event_loop (world st)) = Some e ->
  nested_loop e = false ->
  let r := upload_file_route file_to_upload caption st in
  fst r = Returned (Redirect "main_app_page")
  /\ flashes (snd r) = flashes st
  /\ trace (snd r) = trace st
  /\ upload_progress (session (snd r)) = upload_progress (session st)
  /\ logged_last ("Async execution helper error: " ++ failure_type_name e ++ " - "
                    ++ failure_str e) (snd r).
Proof.
  intros Hactive Hgiven Hfound Hloop Hnested. cbv zeta.
  unfold upload_file_route. rewrite bind_run, look_run. cbn [fst snd].
  rewrite Hactive, Hgiven. cbn [negb].
  rewrite bind_run, look_run. cbn [fst snd]. rewrite Hfound. cbn [negb].
  rewrite bind_run, run_async_task_returns, Hloop. cbn [ret fst snd].
  rewrite async_failed_result, Hnested.
  split; [reflexivity|].
  rewrite async_failed_flashes, ask_flashes, async_failed_trace, ask_trace,
    async_failed_upload, ask_session.
  repeat split. apply async_failed_newest, Hnested.
Qed.

Lemma offline_run_publishes_nothing csv_file_bytes (st : State W) :
  client_ready st = false ->
  published (trace (snd (_run_csv_process_async csv_file_bytes st)))
  = published (trace st).
Proof.
  intros Hoff.
  pose proof (run_select publish_pick csv_file_bytes st publish_pick_blind) as Hsel.
  unfold select in Hsel. unfold published. rewrite Hsel by (left; exact Hoff).
  unfold run_events. cbn [publish_pick app].
  destruct (read_csv csv_file_bytes) as [e|df]; [apply app_nil_r|].
  destruct (has_column "link" df); cbn [negb]; [|apply app_nil_r].
  destruct (len df =? 0)%Z; [apply app_nil_r|].
  unfold loop_events. rewrite rows_published. cbn [publish_pick app].
  apply app_nil_r.
Qed.

Lemma inactive_not_ready (st : State W) :
  session_active (session st) = Some false -> client_ready st = false.
Proof. intros H. unfold client_ready. rewrite H. reflexivity. Qed.

(** X13.  After [disconnect] has answered, nothing is sent any more: the
    upload route refuses with its message, and a manifest run sends no
    file, whatever the client and the network are. *)
Theorem no_upload_after_disconnect (k : PageKeys) (st : State W)
    (answer : response) (file_to_upload caption : option string)
    (csv_file_bytes : bytes) :
  fst (fst (disconnect k st)) = Returned answer ->
  let st' := snd (disconnect k st) in
  let r := upload_file_route file_to_upload caption st' in
  fst r = Returned (Redirect "main_app_page")
  /\ last (flashes (snd r)) ("", "")
     = ("danger", "Not connected to Telegram. Cannot upload.")
  /\ published (trace (snd r)) = published (trace st)
  /\ published (trace (snd (_run_csv_process_async csv_file_bytes st')))
     = published (trace st).
Proof.
  intros Hanswer. cbv zeta.
  destruct (disconnect_run k st) as [Htrace Hcase].
  cbv zeta in Htrace, Hcase. rewrite Hanswer in Hcase. destruct Hcase as (_ & Hactive & _).
  assert (Hoff : active (session (snd (disconnect k st))) = false).
  { unfold active. rewrite Hactive. reflexivity. }
  unfold upload_file_route. rewrite bind_run, look_run. cbn [fst snd].
  rewrite Hoff. cbn [negb]. rewrite !bind_run. cbn [ret fst snd].
  split; [reflexivity|]. split; [|split].
  - rewrite add_log_flashes, flash_flashes. apply last_last.
  - rewrite add_log_trace, flash_trace, Htrace. reflexivity.
  - rewrite offline_run_publishes_nothing by (apply inactive_not_ready, Hactive).
    rewrite Htrace. reflexivity.
Qed.

(** *** [main_app_page] *)

(** The two progress values of the pipeline that the page shows. *)
Definition bars (st : State W) : option Q * option number :=
  (upload_progress (session st), csv_overall_progress (session st)).

Lemma add_log_bars message : preserves bars (add_log message).
Proof.
  intros st. rewrite add_log_run. unfold bars. cbn [snd session].
  rewrite session_add_log_upload, session_add_log_overall. reflexivity.
Qed.

Lemma flash_bars message category : preserves bars (flash message category).
Proof. intros st. reflexivity. Qed.

Lemma assigned_bars : preserves bars assigned.
Proof. intros st. reflexivity. Qed.

Hint Resolve add_log_bars flash_bars assigned_bars : quiet.

Lemma list_downloads_bars : preserves bars list_downloads.
Proof. unfold list_downloads. quiet. Qed.

Lemma main_app_page_run k (st : State W) :
  let r := main_app_page k st in
  (page_upload_progress (fst (fst r)), page_csv_overall_progress (fst (fst r)))
  = bars st
  /\ page_download_progress (fst (fst r)) = download_progress k
  /\ bars (snd r) = (None, None)
  /\ download_progress (snd (fst r)) = None.
Proof.
  cbv zeta. unfold main_app_page. rewrite !bind_run, !look_run. cbn [ret fst snd].
  set (start := if active (session st) then _ else _).
  assert (Hstart : bars (snd (start st)) = bars st
                   /\ download_progress (fst (start st)) = download_progress k).
  { subst start. destruct (active (session st)); [split; reflexivity|].
    rewrite !bind_run. split; reflexivity. }
  destruct Hstart as [Hbars Hkey].
  pose proof (list_downloads_bars (snd (start st))) as Hlist.
  rewrite Hbars in Hlist. rewrite <- Hlist, <- Hkey.
  generalize (snd (list_downloads (snd (start st)))) as s1.
  generalize (fst (list_downloads (snd (start st)))) as files.
  generalize (fst (start st)) as k1.
  intros k1 files s1. unfold bars.
  destruct s1 as [[l a u c i m] fl cl w tr].
  destruct k1 as [ui [d|] f1 f2 f3 f4]; destruct u, c; repeat split.
Qed.

(** X14.  The main page shows each progress value once: it renders the
    upload, download and manifest progress of the session and removes the
    three keys, so the next rendering shows none of them. *)
Theorem progress_is_shown_once (k : PageKeys) (st : State W) :
  let first := main_app_page k st in
  let second := main_app_page (snd (fst first)) (snd first) in
  page_upload_progress (fst (fst first)) = upload_progress (session st)
  /\ page_download_progress (fst (fst first)) = download_progress k
  /\ page_csv_overall_progress (fst (fst first)) = csv_overall_progress (session st)
  /\ page_upload_progress (fst (fst second)) = None
  /\ page_download_progress (fst (fst second)) = None
  /\ page_csv_overall_progress (fst (fst second)) = None.
Proof.
  cbv zeta.
  destruct (main_app_page_run k st) as (Hshown & Hdown & Hbars & Hkey).
  destruct (main_app_page_run (snd (fst (main_app_page k st)))
              (snd (main_app_page k st))) as (Hshown' & Hdown' & _ & _).
  cbv zeta in *. rewrite Hbars in Hshown'. rewrite Hkey in Hdown'.
  unfold bars in Hshown. injection Hshown as Hup Hcsv.
  injection Hshown' as Hup' Hcsv'.
  repeat split; assumption.
Qed.

(** The connection as the program sees it. *)
Definition connection (st : State W) : option bool * option TelegramClient :=
  (session_active (session st), telethon_client st).

Lemma add_log_connection message : preserves connection (add_log message).
Proof.
  intros st. unfold connection. rewrite add_log_active, add_log_client. reflexivity.
Qed.

Lemma flash_connection message category : preserves connection (flash message category).
Proof. intros st. reflexivity. Qed.

Lemma assigned_connection : preserves connection assigned.
Proof. intros st. reflexivity. Qed.

Lemma popped_connection {A} (old : option A) : preserves connection (popped old).
Proof. intros st. destruct old; reflexivity. Qed.

Lemma pop_logs_connection : preserves connection (upd_session pop_logs).
Proof. intros [[[l|] a u c i m] fl cl w tr]; reflexivity. Qed.

Lemma pop_upload_connection : preserves connection (upd_session pop_upload_progress).
Proof. intros [[l a [u|] c i m] fl cl w tr]; reflexivity. Qed.

Lemma pop_overall_connection :
  preserves connection (upd_session pop_csv_overall_progress).
Proof. intros [[l a u [c|] i m] fl cl w tr]; reflexivity. Qed.

Hint Resolve add_log_connection flash_connection assigned_connection
  pop_logs_connection pop_upload_connection pop_overall_connection : quiet.
Hint Resolve @popped_connection : quiet.

Lemma list_downloads_connection : preserves connection list_downloads.
Proof. unfold list_downloads. quiet. Qed.

Hint Resolve list_downloads_connection : quiet.

(** X15.  Rendering the main page and clearing the log start no
    transfer and leave the connection alone: no request, no file, no
    [send_file]; [session_active] and the client are as before. *)
Theorem pages_start_no_transfer (k : PageKeys) (referrer : option string)
    (st : State W) :
  let page := main_app_page k st in
  let cleared := clear_logs_route referrer st in
  trace (snd page) = trace st
  /\ connection (snd page) = connection st
  /\ trace (snd cleared) = trace st
  /\ connection (snd cleared) = connection st.
Proof.
  cbv zeta. split; [apply main_app_page_trace|]. split; [|split].
  - revert st. change (preserves connection (main_app_page k)).
    unfold main_app_page. quiet.
  - apply clear_logs_route_trace.
  - revert st. change (preserves connection (clear_logs_route referrer)).
    unfold clear_logs_route. quiet.
Qed.

(** *** [clear_logs_route] *)

(** X16.  [clear_logs_route] forgets every entry of the log, whatever
    its length: the next message logged is the only entry.  It flashes
    its confirmation and goes back to the referring page, or to the main
    page when the request names none. *)
Theorem cleared_log_starts_again (referrer : option string) (message : string)
    (st : State W) :
  let r := clear_logs_route referrer st in
  logs (session (snd r)) = None
  /\ logs (session (snd (add_log message (snd r))))
     = Some [log_line (fst (strftime (world st))) message]
  /\ flashes (snd r) = (flashes st ++ [("info", "Logs cleared.")])%list
  /\ fst r = match referrer with
             | Some url => if String.eqb url "" then Redirect "main_app_page"
                           else RedirectTo url
             | None => Redirect "main_app_page"
             end.
Proof.
  cbv zeta. unfold clear_logs_route. rewrite !bind_run. cbn [ret fst snd].
  assert (Hnone : logs (session (snd (flash "Logs cleared." "info"
                                        (snd (upd_session pop_logs st))))) = None).
  { destruct st as [[[l|] a u c i m] fl cl w tr]; reflexivity. }
  split; [exact Hnone|]. split; [|split].
  - rewrite add_log_run. cbn [snd session]. rewrite session_add_log_logs.
    unfold logs_list. rewrite Hnone. reflexivity.
  - reflexivity.
  - unfold given, Py.truthy. destruct referrer as [url|]; [|reflexivity].
    destruct (String.eqb url ""); reflexivity.
Qed.

(** *** [download_from_link_route] *)

(** An event on the file [path]. *)
Definition on_file (path : string) (e : Event) : Prop :=
  e = FileOpen path \/ exists chunk, e = FileWrite path chunk.

Lemma on_file_picks path new :
  Forall (on_file path) new ->
  fetched new = [] /\ published new = [] /\ progress_writes new = []
  /\ Forall (eq path) (touched_files new).
Proof.
  induction 1 as [|e new He _ (Hf & Hp & Hw & Ht)]; [repeat split; constructor|].
  unfold fetched, published, progress_writes, touched_files in *.
  cbn [flat_map]. rewrite Hf, Hp, Hw.
  destruct He as [->|[chunk ->]]; cbn; repeat split; constructor; auto.
Qed.

Lemma chunk_progress_trace total downloaded k :
  preserves trace (chunk_progress total downloaded k).
Proof. unfold chunk_progress. quiet. Qed.

Lemma chunk_progress_flashes total downloaded k :
  preserves flashes (chunk_progress total downloaded k).
Proof. unfold chunk_progress. quiet. Qed.

Hint Resolve chunk_progress_trace chunk_progress_flashes : quiet.

(** Apart from [download_progress], the keys are as before. *)
Definition same_but_progress (k k' : PageKeys) : Prop :=
  forall v, with_download_progress v k' = with_download_progress v k.

Lemma same_but_progress_refl k : same_but_progress k k.
Proof. intros v. reflexivity. Qed.

Lemma same_but_progress_set v k : same_but_progress k (with_download_progress v k).
Proof. intros v'. reflexivity. Qed.

Lemma same_but_progress_trans k1 k2 k3 :
  same_but_progress k1 k2 -> same_but_progress k2 k3 -> same_but_progress k1 k3.
Proof. intros H12 H23 v. rewrite H23. apply H12. Qed.

Lemma chunk_progress_keys total downloaded k (st : State W) :
  same_but_progress k (fst (chunk_progress total downloaded k st)).
Proof.
  unfold chunk_progress. destruct (0 <? total)%Z; [|apply same_but_progress_refl].
  cbv zeta. destruct (_ && _)%bool; [|apply same_but_progress_refl].
  rewrite bind_run. apply same_but_progress_set.
Qed.

Lemma save_chunks_run path total chunks : forall downloaded k (st : State W),
  let r := save_chunks path total downloaded chunks k st in
  same_but_progress k (snd (fst r))
  /\ flashes (snd r) = flashes st
  /\ exists new, trace (snd r) = (trace st ++ new)%list /\ Forall (on_file path) new.
Proof.
  induction chunks as [|chunk chunks IH]; intros downloaded k st; cbv zeta.
  - cbn [save_chunks ret fst snd]. split; [apply same_but_progress_refl|].
    split; [reflexivity|]. exists []. rewrite app_nil_r. split; constructor.
  - destruct chunk as [|b chunk]; [apply IH|].
    cbn [save_chunks]. rewrite !bind_run.
    set (s1 := snd (ask (file_write path (b :: chunk))
                      (snd (emit (FileWrite path (b :: chunk)) st)))).
    assert (Htrace : trace s1 = (trace st ++ [FileWrite path (b :: chunk)])%list).
    { subst s1. rewrite ask_trace. reflexivity. }
    assert (Hflash : flashes s1 = flashes st).
    { subst s1. rewrite ask_flashes. reflexivity. }
    destruct (fst (ask (file_write path (b :: chunk)) _)) as [e|].
    + cbn [ret fst snd]. split; [apply same_but_progress_refl|].
      split; [exact Hflash|].
      exists [FileWrite path (b :: chunk)]. split; [exact Htrace|].
      constructor; [right; eexists; reflexivity|constructor].
    + cbv zeta. rewrite bind_run.
      match goal with
      | |- context [save_chunks path total ?d chunks ?k1 ?s2] =>
          destruct (IH d k1 s2) as (Hkeys & Hfl & new & Hnew & Hall)
      end.
      cbv zeta in Hkeys, Hfl, Hnew. split; [|split].
      * eapply same_but_progress_trans; [apply chunk_progress_keys|exact Hkeys].
      * rewrite Hfl, chunk_progress_flashes. exact Hflash.
      * exists (FileWrite path (b :: chunk) :: new).
        rewrite Hnew, chunk_progress_trace, Htrace, <- app_assoc.
        split; [reflexivity|].
        constructor; [right; eexists; reflexivity|exact Hall].
Qed.

Lemma fetch_link_run url_val path k (st : State W) :
  let r := fetch_link url_val path k st in
  same_but_progress k (snd (fst r))
  /\ flashes (snd r) = flashes st
  /\ exists new, trace (snd r) = (trace st ++ HttpGet url_val :: new)%list
                 /\ Forall (on_file path) new.
Proof.
  cbv zeta. unfold fetch_link. rewrite !bind_run.
  set (s1 := snd (ask (requests_get url_val)
                    (snd (emit (HttpGet url_val)
                            (snd (add_log ("Starting download from " ++ url_val ++ " to "
                                             ++ path) st)))))).
  assert (Htrace : trace s1 = (trace st ++ [HttpGet url_val])%list).
  { subst s1. rewrite ask_trace, emit_trace, add_log_trace. reflexivity. }
  assert (Hflash : flashes s1 = flashes st).
  { subst s1. rewrite ask_flashes, emit_flashes, add_log_flashes. reflexivity. }
  assert (Hstop : forall e : exn,
             same_but_progress k (snd (fst (ret (Some e, k) s1)))
             /\ flashes (snd (ret (Some e, k) s1)) = flashes st
             /\ exists new,
                  trace (snd (ret (Some e, k) s1))
                  = (trace st ++ HttpGet url_val :: new)%list
                  /\ Forall (on_file path) new).
  { intros e. cbn [ret fst snd]. split; [apply same_but_progress_refl|].
    split; [exact Hflash|]. exists []. split; [exact Htrace|constructor]. }
  destruct (fst (ask (requests_get url_val) _))
    as [e|status_code reason url chunks broken]; [apply Hstop|].
  destruct (raise_for_status status_code reason url) as [e|]; [apply Hstop|].
  rewrite bind_run, look_run. cbn [fst snd].
  destruct (content_length url_val (world s1)) as [e|total]; [apply Hstop|].
  rewrite !bind_run.
  set (s2 := snd (ask (open_wb path) (snd (emit (FileOpen path) s1)))).
  assert (Htrace2 : trace s2 = (trace st ++ [HttpGet url_val; FileOpen path])%list).
  { subst s2. rewrite ask_trace, emit_trace, Htrace, <- app_assoc. reflexivity. }
  assert (Hflash2 : flashes s2 = flashes st).
  { subst s2. rewrite ask_flashes, emit_flashes. exact Hflash. }
  destruct (fst (ask (open_wb path) _)) as [e|].
  { cbn [ret fst snd]. split; [apply same_but_progress_refl|].
    split; [exact Hflash2|]. exists [FileOpen path].
    split; [exact Htrace2|]. constructor; [left; reflexivity|constructor]. }
  rewrite bind_run.
  destruct (save_chunks_run path total chunks 0%Z k s2) as (Hkeys & Hfl & new & Hnew & Hall).
  cbv zeta in Hkeys, Hfl, Hnew.
  assert (Hend : forall w : option exn * PageKeys,
             (match fst w with
              | Some e => ret w
              | None => ret (broken, snd w)
              end) (snd (save_chunks path total 0 chunks k s2))
             = ((match fst w with Some e => fst w | None => broken end, snd w),
                snd (save_chunks path total 0 chunks k s2))).
  { intros [[e|] k']; reflexivity. }
  rewrite Hend. cbn [fst snd]. split; [exact Hkeys|]. split.
  - rewrite Hfl. exact Hflash2.
  - exists (FileOpen path :: new). rewrite Hnew, Htrace2, <- app_assoc.
    split; [reflexivity|]. constructor; [left; reflexivity|exact Hall].
Qed.

Lemma link_name_trace url_val : preserves trace (link_name url_val).
Proof. unfold link_name. quiet. Qed.

Lemma link_name_flashes url_val : preserves flashes (link_name url_val).
Proof. unfold link_name. quiet. Qed.

Lemma link_name_kept url_val (st : State W) :
  let name := fst (link_name url_val st) in
  name <> "" /\ all_chars kept name = true.
Proof.
  cbv zeta. unfold link_name, Py.truthy.
  destruct (String.eqb_spec (cleaned_name url_val) ""); cbn [negb].
  - rewrite bind_run. cbn [ret fst]. split; [discriminate|].
    rewrite all_chars_app, str_int_kept. reflexivity.
  - split; [assumption|apply cleaned_name_kept].
Qed.

Lemma link_done_trace name failure k : preserves trace (link_done name failure k).
Proof. unfold link_done. quiet. Qed.

Lemma link_done_run name failure k (st : State W) :
  let r := link_done name failure k st in
  exists category message,
    flashes (snd r) = (flashes st ++ [(category, message)])%list
    /\ fst r = with_download_progress
                 (Some (if String.eqb category "success" then 100 else -1)) k
    /\ (category = "success" <-> failure = None)
    /\ (category = "success" \/ category = "danger").
Proof.
  cbv zeta. unfold link_done. destruct failure as [e|].
  - exists "danger", ("Download failed: " ++ exn_str e). rewrite !bind_run.
    cbn [ret fst snd]. split; [|split; [reflexivity|split]].
    + rewrite assigned_flashes, flash_flashes.
      destruct (is_request_exception e); rewrite add_log_flashes; reflexivity.
    + split; discriminate.
    + right. reflexivity.
  - exists "success", ("Download completed: " ++ name). rewrite !bind_run.
    cbn [ret fst snd]. split; [|split; [reflexivity|split]].
    + rewrite flash_flashes, add_log_flashes, assigned_flashes. reflexivity.
    + split; reflexivity.
    + left. reflexivity.
Qed.

Lemma kept_relative (name : string) :
  all_chars kept name = true -> prefix "/" name = false.
Proof.
  destruct name as [|c name]; [reflexivity|].
  cbn [all_chars prefix]. intros H. apply andb_prop in H as [Hc _].
  apply kept_plain in Hc as (Hslash & _ & _).
  destruct (ascii_dec "/" c) as [<-|Hne]; [discriminate Hslash|reflexivity].
Qed.

Lemma folder_join (name : string) :
  all_chars kept name = true ->
  os_path_join DOWNLOAD_FOLDER_UI name = Py.path_join DOWNLOAD_FOLDER_UI name.
Proof.
  intros H. unfold os_path_join. rewrite (kept_relative name H). reflexivity.
Qed.

Lemma basename_in_folder (name : string) :
  all_chars kept name = true ->
  Py.basename (Py.path_join DOWNLOAD_FOLDER_UI name) = name.
Proof.
  intros H. unfold Py.basename, Py.path_join.
  change ("/" ++ name) with (String "/" name).
  rewrite split_at_separator.
  rewrite (split_without "/" name) by apply kept_no_slash, H.
  unfold Py.item_last. apply last_last.
Qed.

Lemma link_route_run url_val k (st : State W) :
  Py.truthy url_val = true ->
  let r := download_from_link_route (Some url_val) k st in
  let name := fst (link_name url_val st) in
  fst (fst r) = Redirect "main_app_page"
  /\ (exists new,
        trace (snd r) = (trace st ++ HttpGet url_val :: new)%list
        /\ Forall (on_file (os_path_join DOWNLOAD_FOLDER_UI name)) new)
  /\ exists category message,
       flashes (snd r) = (flashes st ++ [(category, message)])%list
       /\ snd (fst r)
          = with_download_progress
              (Some (if String.eqb category "success" then 100 else -1)) k
       /\ (category = "success" \/ category = "danger").
Proof.
  intros Hurl. cbv zeta. unfold download_from_link_route, given. rewrite Hurl.
  rewrite !bind_run. cbn [ret fst snd].
  set (s0 := snd (upd_session assign_modified (snd (assigned st)))).
  assert (Hname : fst (link_name url_val s0) = fst (link_name url_val st)).
  { unfold link_name. destruct (Py.truthy (cleaned_name url_val)); [reflexivity|].
    rewrite !bind_run. cbn [ret fst]. rewrite !ask_value. reflexivity. }
  rewrite Hname.
  set (name := fst (link_name url_val st)).
  set (path := os_path_join DOWNLOAD_FOLDER_UI name).
  set (s1 := snd (link_name url_val s0)).
  destruct (fetch_link_run url_val path (with_download_progress (Some 0) k) s1)
    as (Hkeys & Hflash & new & Hnew & Hall).
  cbv zeta in Hkeys, Hflash, Hnew.
  set (fetched_ := fetch_link url_val path (with_download_progress (Some 0) k) s1) in *.
  destruct (link_done_run name (fst (fst fetched_)) (snd (fst fetched_)) (snd fetched_))
    as (category & message & Hdone & Hprogress & _ & Hcategory).
  cbv zeta in Hdone, Hprogress.
  split; [reflexivity|]. split.
  - exists new. split; [|exact Hall].
    rewrite upd_session_trace, link_done_trace, Hnew. subst s1 s0.
    rewrite link_name_trace, upd_session_trace, assigned_trace. reflexivity.
  - exists category, message. split; [|split; [|exact Hcategory]].
    + rewrite upd_session_flashes, Hdone, Hflash. subst s1 s0.
      rewrite link_name_flashes, upd_session_flashes, assigned_flashes. reflexivity.
    + rewrite Hprogress, Hkeys. reflexivity.
Qed.

(** X17.  [download_from_link_route] always redirects to the main page
    and never sends a file.  Without a URL it makes no request and leaves
    the keys alone.  With a URL it makes exactly one request, to that URL,
    and flashes exactly one message: either [success], and the download
    progress ends at 100, or [danger], and it ends at -1; whatever the loop
    stored in between, no other value is left, and no other key changed. *)
Theorem link_route_outcome (download_link : option string) (k : PageKeys)
    (st : State W) :
  let r := download_from_link_route download_link k st in
  fst (fst r) = Redirect "main_app_page"
  /\ published (trace (snd r)) = published (trace st)
  /\ match given download_link with
     | None =>
         trace (snd r) = trace st
         /\ snd (fst r) = k
         /\ flashes (snd r)
            = (flashes st ++ [("danger", "Download Error: Please enter a valid URL.")])%list
     | Some url_val =>
         fetched (trace (snd r)) = (fetched (trace st) ++ [url_val])%list
         /\ exists category message,
              flashes (snd r) = (flashes st ++ [(category, message)])%list
              /\ snd (fst r)
                 = with_download_progress
                     (Some (if String.eqb category "success" then 100 else -1)) k
              /\ (category = "success" \/ category = "danger")
     end.
Proof.
  cbv zeta. destruct (given download_link) as [url_val|] eqn:Hgiven.
  - apply given_some in Hgiven as [-> Hurl].
    assert (Htruthy : Py.truthy url_val = true).
    { unfold Py.truthy. destruct (String.eqb_spec url_val ""); [contradiction|reflexivity]. }
    destruct (link_route_run url_val k st Htruthy)
      as (Hanswer & (new & Hnew & Hall) & Hflash).
    cbv zeta in Hanswer, Hnew, Hall, Hflash.
    apply on_file_picks in Hall as (Hf & Hp & _ & _).
    split; [exact Hanswer|]. split; [|split; [|exact Hflash]].
    + rewrite Hnew. unfold published in *. rewrite flat_map_app. cbn [flat_map publish_pick app].
      rewrite Hp. apply app_nil_r.
    + rewrite Hnew. unfold fetched in *. rewrite flat_map_app. cbn [flat_map fetch_pick app].
      rewrite Hf. reflexivity.
  - unfold download_from_link_route. rewrite Hgiven, !bind_run. cbn [ret fst snd].
    rewrite add_log_trace, add_log_flashes. repeat split.
Qed.

(** X18.  The only path that [download_from_link_route] opens or writes
    is [DOWNLOAD_FOLDER_UI + '/' + name], for a name that is not empty and
    consists of letters, digits, ['.'], ['_'] and ['-'] only: the name has
    no ['/'] and is the last component of the path.  Nothing more keeps
    the file inside the folder: the URL [http://host/..] gives the name
    [..], and the path is then the parent of the folder. *)
Theorem link_file_has_one_path (url_val : string) (k : PageKeys) (st : State W) :
  let r := download_from_link_route (Some url_val) k st in
  (exists name new,
     trace (snd r) = (trace st ++ new)%list
     /\ Forall (eq (DOWNLOAD_FOLDER_UI ++ "/" ++ name)) (touched_files new)
     /\ name <> ""
     /\ all_chars kept name = true
     /\ Py.basename (DOWNLOAD_FOLDER_UI ++ "/" ++ name) = name)
  /\ os_path_join DOWNLOAD_FOLDER_UI (fst (link_name "http://host/.." st))
     = "downloads_colab_ui_async/..".
Proof.
  cbv zeta. split; [|reflexivity].
  destruct (link_name_kept url_val st) as [Hne Hkept]. cbv zeta in Hne, Hkept.
  exists (fst (link_name url_val st)).
  destruct (Py.truthy url_val) eqn:Hurl.
  - destruct (link_route_run url_val k st Hurl) as (_ & (new & Hnew & Hall) & _).
    cbv zeta in Hnew, Hall. rewrite folder_join in Hall by exact Hkept.
    apply on_file_picks in Hall as (_ & _ & _ & Hfiles).
    exists (HttpGet url_val :: new). split; [exact Hnew|].
    split; [exact Hfiles|]. split; [exact Hne|]. split; [exact Hkept|].
    apply (basename_in_folder _ Hkept).
  - exists []. unfold download_from_link_route, given. rewrite Hurl, !bind_run.
    cbn [ret fst snd]. rewrite add_log_trace, app_nil_r.
    split; [reflexivity|]. split; [constructor|]. split; [exact Hne|].
    split; [exact Hkept|]. apply (basename_in_folder _ Hkept).
Qed.

Lemma save_chunks_all path total chunks : forall downloaded k (st : State W),
  (forall p c w, fst (file_write p c w) = None) ->
  fst (fst (save_chunks path total downloaded chunks k st)) = None
  /\ trace (snd (save_chunks path total downloaded chunks k st))
     = (trace st ++ map (FileWrite path) (written_chunks chunks))%list.
Proof.
  intros downloaded k st Hwrite. revert downloaded k st.
  induction chunks as [|chunk chunks IH]; intros downloaded k st;
    cbn [save_chunks written_chunks filter map].
  - rewrite app_nil_r. split; reflexivity.
  - destruct chunk as [|b chunk]; [apply IH|].
    rewrite !bind_run, ask_value, Hwrite. cbv zeta. rewrite bind_run.
    fold (written_chunks chunks).
    match goal with
    | |- context [save_chunks path total ?d chunks ?k1 ?s2] =>
        destruct (IH d k1 s2) as [Hnone Htrace]
    end.
    rewrite Hnone, Htrace, chunk_progress_trace, ask_trace, emit_trace. cbn [map].
    rewrite <- app_assoc. split; reflexivity.
Qed.

(** X19.  When the server answers with a status outside 400-599, the
    [content-length] header is a number or absent, and the file system
    does not fail, [download_from_link_route] stores the body: after the
    request it opens the destination once and writes the non-empty chunks
    in the order of their arrival, whatever the progress bookkeeping in
    between; the progress ends at 100 when the stream did not break, and
    at -1 when it did. *)
Theorem link_download_stores_the_body (url_val : string) (k : PageKeys)
    (status_code : Z) (reason url : string) (chunks : list bytes)
    (broken : option exn) (total_size_in_bytes : Z) (st : State W) :
  url_val <> "" ->
  (forall p w, fst (open_wb p w) = None) ->
  (forall p c w, fst (file_write p c w) = None) ->
  (forall w, fst (requests_get url_val w)
             = GetResponse status_code reason url chunks broken) ->
  (forall w, content_length url_val w = inr total_size_in_bytes) ->
  ~ (400 <= status_code < 600)%Z ->
  let r := download_from_link_route (Some url_val) k st in
  let path := os_path_join DOWNLOAD_FOLDER_UI (fst (link_name url_val st)) in
  trace (snd r)
  = (trace st
     ++ HttpGet url_val :: FileOpen path
        :: map (FileWrite path) (written_chunks chunks))%list
  /\ download_progress (snd (fst r))
     = Some (match broken with None => 100 | Some _ => -1 end).
Proof.
  intros Hurl Hopen Hwrite Hreply Hsize Hstatus. cbv zeta.
  assert (Htruthy : Py.truthy url_val = true).
  { unfold Py.truthy. destruct (String.eqb_spec url_val ""); [contradiction|reflexivity]. }
  assert (Hok : raise_for_status status_code reason url = None).
  { unfold raise_for_status.
    destruct ((400 <=? status_code) && (status_code <? 500))%Z eqn:Hc;
      [apply andb_prop in Hc; lia|].
    destruct ((500 <=? status_code) && (status_code <? 600))%Z eqn:Hs;
      [apply andb_prop in Hs; lia|reflexivity]. }
  unfold download_from_link_route, given. rewrite Htruthy.
  rewrite !bind_run. cbn [ret fst snd].
  set (s0 := snd (upd_session assign_modified (snd (assigned st)))).
  assert (Hname : fst (link_name url_val s0) = fst (link_name url_val st)).
  { unfold link_name. destruct (Py.truthy (cleaned_name url_val)); [reflexivity|].
    rewrite !bind_run. cbn [ret fst]. rewrite !ask_value. reflexivity. }
  rewrite Hname.
  set (path := os_path_join DOWNLOAD_FOLDER_UI (fst (link_name url_val st))).
  assert (Hs0 : trace (snd (link_name url_val s0)) = trace st).
  { rewrite link_name_trace. reflexivity. }
  revert Hs0. generalize (snd (link_name url_val s0)) as s1. intros s1 Hs1.
  assert (Hfetch :
            fst (fst (fetch_link url_val path (with_download_progress (Some 0) k) s1))
            = broken
            /\ trace (snd (fetch_link url_val path
                             (with_download_progress (Some 0) k) s1))
               = (trace st ++ HttpGet url_val :: FileOpen path
                    :: map (FileWrite path) (written_chunks chunks))%list).
  { unfold fetch_link. rewrite !bind_run, ask_value, Hreply, Hok.
    rewrite bind_run, look_run. cbn [fst snd]. rewrite Hsize.
    rewrite !bind_run, ask_value, Hopen, bind_run.
    match goal with
    | |- context [save_chunks path total_size_in_bytes 0 chunks ?k0 ?s2] =>
        destruct (save_chunks_all path total_size_in_bytes chunks 0%Z k0 s2 Hwrite)
          as [Hnone Htrace]
    end.
    rewrite Hnone. cbn [ret fst snd]. split; [reflexivity|].
    rewrite Htrace, ask_trace, emit_trace, ask_trace, emit_trace, add_log_trace, Hs1.
    rewrite <- !app_assoc. reflexivity. }
  destruct Hfetch as [Hres Htrace].
  split.
  - rewrite upd_session_trace, link_done_trace. exact Htrace.
  - rewrite Hres. unfold link_done. destruct broken as [e|]; rewrite !bind_run; reflexivity.
Qed.

(** *** The size of the log, for every route *)

Local Abbreviation keeps_log_bounded := (@keeps_log_bounded W _) (only parsing).

Lemma keeps_look {A} (f : State W -> A) : keeps_log_bounded (look f).
Proof. intros st H. exact H. Qed.

Lemma keeps_set_client c : keeps_log_bounded (set_client c).
Proof. intros st H. exact H. Qed.

Lemma keeps_assigned : keeps_log_bounded assigned.
Proof. intros st H. exact H. Qed.

Lemma keeps_popped {A} (old : option A) : keeps_log_bounded (popped old).
Proof. intros st H. destruct old; exact H. Qed.

Lemma keeps_session_active b :
  keeps_log_bounded (upd_session (assign_session_active b)).
Proof. intros st H. exact H. Qed.

Lemma keeps_pop_logs : keeps_log_bounded (upd_session pop_logs).
Proof.
  intros [[[l|] a u c i m] fl cl w tr] H; [|exact H].
  unfold log_bounded. cbn. apply Nat.le_0_l.
Qed.

Lemma keeps_pop_upload : keeps_log_bounded (upd_session pop_upload_progress).
Proof. intros [[l a [u|] c i m] fl cl w tr] H; exact H. Qed.

Lemma keeps_pop_overall : keeps_log_bounded (upd_session pop_csv_overall_progress).
Proof. intros [[l a u [c|] i m] fl cl w tr] H; exact H. Qed.

Hint Resolve keeps_flash keeps_emit keeps_set_overall keeps_modified
  keeps_upload_progress keeps_current_item keeps_add_log keeps_set_client
  keeps_assigned keeps_session_active keeps_pop_logs keeps_pop_upload
  keeps_pop_overall keeps_upload keeps_write_chunks : logs.
Hint Resolve @keeps_ask @keeps_ret @keeps_look @keeps_popped : logs.

Ltac keeps :=
  repeat first
    [ solve [auto with logs]
    | apply keeps_bind; [|intros ?]
    | match goal with
      | |- keeps_log_bounded (if ?b then _ else _) => destruct b
      | |- keeps_log_bounded (match ?x with _ => _ end) => destruct x
      end ].

Lemma keeps_async_failed {A} e : keeps_log_bounded (@async_failed W ext A e).
Proof. unfold async_failed. keeps. Qed.

Hint Resolve @keeps_async_failed : logs.

Lemma keeps_run_async_task {A} (coroutine : M W (failure + A)) :
  keeps_log_bounded coroutine -> keeps_log_bounded (run_async_task coroutine).
Proof. intros H. unfold run_async_task. keeps. Qed.

Lemma keeps_returns {A} (coroutine : M W A) :
  keeps_log_bounded coroutine -> keeps_log_bounded (returns coroutine).
Proof. intros H. unfold returns. keeps. Qed.

Lemma keeps_run csv_file_bytes :
  keeps_log_bounded (_run_csv_process_async csv_file_bytes).
Proof. apply bounds_keeps, run_bounds. Qed.

Lemma keeps_disconnect_session k : keeps_log_bounded (_disconnect_session_async k).
Proof. unfold _disconnect_session_async. keeps. Qed.

Lemma keeps_list_downloads : keeps_log_bounded list_downloads.
Proof. unfold list_downloads. keeps. Qed.

Lemma keeps_chunk_progress total downloaded k :
  keeps_log_bounded (chunk_progress total downloaded k).
Proof. unfold chunk_progress. keeps. Qed.

Hint Resolve keeps_run keeps_disconnect_session keeps_list_downloads
  keeps_chunk_progress : logs.

Lemma keeps_save_chunks path total chunks : forall downloaded k,
  keeps_log_bounded (save_chunks path total downloaded chunks k).
Proof.
  induction chunks as [|chunk chunks IH]; intros downloaded k; cbn [save_chunks];
    [keeps|].
  destruct chunk; [apply IH|].
  apply keeps_bind; [keeps|intros _]. apply keeps_bind; [keeps|intros [e|]]; [keeps|].
  cbv zeta. apply keeps_bind; [keeps|intros k1]. apply IH.
Qed.

Hint Resolve keeps_save_chunks : logs.

Lemma keeps_fetch_link url_val path k : keeps_log_bounded (fetch_link url_val path k).
Proof. unfold fetch_link. keeps. Qed.

Lemma keeps_link_name url_val : keeps_log_bounded (link_name url_val).
Proof. unfold link_name. keeps. Qed.

Lemma keeps_link_done name failure k : keeps_log_bounded (link_done name failure k).
Proof. unfold link_done. keeps. Qed.

Lemma keeps_csv_route_failed e : keeps_log_bounded (csv_route_failed e).
Proof. unfold csv_route_failed. keeps. Qed.

Hint Resolve keeps_fetch_link keeps_link_name keeps_link_done
  keeps_csv_route_failed : logs.

Lemma keeps_start_csv name file : keeps_log_bounded (start_csv name file).
Proof.
  unfold start_csv. destruct (read file); [keeps|].
  apply keeps_bind; [keeps|intros _]. apply keeps_bind; [keeps|intros _].
  apply keeps_bind; [|intros ?; keeps].
  apply keeps_run_async_task, keeps_returns, keeps_run.
Qed.

Hint Resolve keeps_start_csv : logs.


(** *** [process_csv_route] *)

(** The events of the kind [pick] that [process_csv_route] leaves, by
    the uploaded file and by what the event loop raised before it could
    start the coroutine. *)
Definition csv_route_events {X} (pick : Event -> list X)
    (csv_file : option FileStorage) (started : option failure) : list X :=
  match csv_file with
  | None => []
  | Some file =>
      match given (filename file) with
      | None => []
      | Some name =>
          if endswith (lower name) ".csv" then
            match read file, started with
            | inl _, _ => pick (SetOverall (NInt (-1)))
            | inr _, Some e =>
                if nested_loop e then pick (SetOverall (NInt (-1))) else []
            | inr csv_content_bytes, None =>
                run_events pick (read_csv csv_content_bytes)
            end
          else []
      end
  end.

Lemma csv_route_failed_select {X} (pick : Event -> list X) e (st : State W) :
  select pick (snd (csv_route_failed e st))
  = (select pick st ++ pick (SetOverall (NInt (-1))))%list.
Proof.
  unfold csv_route_failed. rewrite !bind_run, select_set_overall.
  rewrite (select_quiet pick _ (flash_trace _ _)), (select_quiet pick _ (add_log_trace _)).
  reflexivity.
Qed.

Lemma csv_route_select {X} (pick : Event -> list X) csv_file (st : State W) :
  blind_to_files pick -> blind_to_sends pick ->
  let r := process_csv_route csv_file st in
  fst r = Redirect "main_app_page"
  /\ select pick (snd r)
     = (select pick st
        ++ csv_route_events pick csv_file
             (fst (event_loop (snd (strftime (world st))))))%list.
Proof.
  intros Hfiles Hsends. cbv zeta. unfold process_csv_route, csv_route_events.
  destruct csv_file as [file|]; [|rewrite app_nil_r; split; reflexivity].
  destruct (given (filename file)) as [name|]; [|rewrite app_nil_r; split; reflexivity].
  destruct (endswith (lower name) ".csv"); cbn [negb];
    [|rewrite app_nil_r; split; reflexivity].
  rewrite bind_run. cbn [ret fst snd]. split; [reflexivity|].
  unfold start_csv. destruct (read file) as [e|csv_content_bytes].
  { apply csv_route_failed_select. }
  rewrite !bind_run, run_async_task_returns.
  set (s1 := snd (add_log ("Received CSV file for processing: " ++ name)
                    (snd (flash ("Processing CSV file: " ++ name
                                   ++ ". This may take a while...") "info" st)))).
  assert (Hworld : world s1 = snd (strftime (world st))).
  { subst s1. rewrite add_log_run. reflexivity. }
  assert (Hsel : select pick s1 = select pick st).
  { subst s1. rewrite (select_quiet pick _ (add_log_trace _)). reflexivity. }
  rewrite Hworld.
  destruct (fst (event_loop (snd (strftime (world st))))) as [e|].
  - rewrite async_failed_result.
    destruct (nested_loop e); cbn [fst snd ret].
    + rewrite csv_route_failed_select.
      rewrite (select_quiet pick _ (async_failed_trace e)), select_ask, Hsel.
      reflexivity.
    + rewrite (select_quiet pick _ (async_failed_trace e)), select_ask, Hsel.
      rewrite app_nil_r. reflexivity.
  - cbn [fst snd ret].
    rewrite run_select by (assumption || (right; assumption)).
    rewrite select_ask, Hsel. reflexivity.
Qed.

Lemma progress_pick_mute : blind_to_sends progress_pick.
Proof. intros path caption. reflexivity. Qed.

Lemma fetch_pick_mute : blind_to_sends fetch_pick.
Proof. intros path caption. reflexivity. Qed.

(** X21.  [process_csv_route] always redirects to the main page, even
    when the helper raises.  Its assignments to the overall progress and
    its requests are those of one run of the orchestrator on the bytes
    read, and that only for a file whose name ends in [.csv], in any
    case of letters.  There is none for another upload; a single -1 when
    reading the file fails or the event loop raises its nested-loop error;
    none when the loop fails otherwise. *)
Theorem csv_route_effects (csv_file : option FileStorage) (st : State W) :
  let r := process_csv_route csv_file st in
  let started := fst (event_loop (snd (strftime (world st)))) in
  fst r = Redirect "main_app_page"
  /\ progress_writes (trace (snd r))
     = (progress_writes (trace st)
        ++ csv_route_events progress_pick csv_file started)%list
  /\ fetched (trace (snd r))
     = (fetched (trace st) ++ csv_route_events fetch_pick csv_file started)%list.
Proof.
  cbv zeta.
  destruct (csv_route_select progress_pick csv_file st progress_pick_blind
              progress_pick_mute) as [Hanswer Hprogress].
  destruct (csv_route_select fetch_pick csv_file st fetch_pick_blind
              fetch_pick_mute) as [_ Hfetched].
  split; [exact Hanswer|]. split; [exact Hprogress|exact Hfetched].
Qed.

(** *** [_connect_session_async] and [login_page] *)

(** [session['session_active']] *)
Definition signed_in (st : State W) : option bool := session_active (session st).

Lemma add_log_signed_in message : preserves signed_in (add_log message).
Proof. intros st. apply add_log_active. Qed.

Lemma ask_signed_in {A} (call : W -> A * W) : preserves signed_in (ask call).
Proof. intros st. unfold signed_in. rewrite ask_session. reflexivity. Qed.

Lemma set_client_signed_in c : preserves signed_in (set_client c).
Proof. intros st. reflexivity. Qed.

Lemma assigned_signed_in : preserves signed_in assigned.
Proof. intros st. reflexivity. Qed.

Lemma flash_signed_in message category : preserves signed_in (flash message category).
Proof. intros st. reflexivity. Qed.

Lemma popped_signed_in {A} (old : option A) : preserves signed_in (popped old).
Proof. intros st. apply popped_active. Qed.

Lemma set_signed_in b (st : State W) :
  signed_in (snd (upd_session (assign_session_active b) st)) = Some b.
Proof. reflexivity. Qed.

Lemma set_signed_in_client b : preserves telethon_client (upd_session (assign_session_active b)).
Proof. intros st. reflexivity. Qed.

Lemma assigned_client : preserves telethon_client assigned.
Proof. intros st. reflexivity. Qed.

Lemma set_client_client c (st : State W) : telethon_client (snd (set_client c st)) = c.
Proof. reflexivity. Qed.

Lemma try_connect_trace n h t i k : preserves trace (try_connect n h t i k).
Proof. unfold try_connect. quiet. Qed.

Lemma try_connect_flashes n h t i k : preserves flashes (try_connect n h t i k).
Proof. unfold try_connect. quiet. Qed.

Lemma connect_failed_trace e : preserves trace (connect_failed e).
Proof. unfold connect_failed. quiet. Qed.

Lemma connect_failed_flashes e : preserves flashes (connect_failed e).
Proof. unfold connect_failed. quiet. Qed.

Lemma drop_previous_client_trace : preserves trace drop_previous_client.
Proof. unfold drop_previous_client. quiet. Qed.

Lemma drop_previous_client_flashes : preserves flashes drop_previous_client.
Proof. unfold drop_previous_client. quiet. Qed.

Hint Resolve try_connect_trace try_connect_flashes connect_failed_trace
  connect_failed_flashes drop_previous_client_trace drop_previous_client_flashes
  : quiet.

Lemma _connect_session_async_trace a h t i k :
  preserves trace (_connect_session_async a h t i k).
Proof. unfold _connect_session_async. quiet. Qed.

Lemma _connect_session_async_flashes a h t i k :
  preserves flashes (_connect_session_async a h t i k).
Proof. unfold _connect_session_async. quiet. Qed.

Ltac run := repeat (rewrite ?bind_run, ?look_run; cbn [ret fst snd]).

(** What the [try] of lines 73-92 leaves. *)
Lemma try_connect_run n h t i k (st : State W) :
  let r := try_connect n h t i k st in
  match fst r with
  | inr (true, k') =>
      signed_in (snd r) = Some true
      /\ telethon_client (snd r) = Some Client
      /\ exists me w,
           fst (get_me w) = inr me
           /\ world (snd r) = snd (strftime (snd (get_me w)))
           /\ k' = with_user_info (Some (me_shown me)) k
  | inr (false, k') => signed_in (snd r) = Some false /\ k' = k
  | inl _ => signed_in (snd r) = signed_in st
  end.
Proof.
  cbv zeta. unfold try_connect. run.
  destruct (fst (ask (new_client t i n h) _)) as [e|]; run.
  { rewrite ask_signed_in, add_log_signed_in. reflexivity. }
  destruct (fst (ask client_connect _)) as [e|]; run.
  { rewrite ask_signed_in, set_client_signed_in, ask_signed_in, add_log_signed_in.
    reflexivity. }
  match goal with
  | |- context [if ?c then ask is_user_authorized else _] => destruct c
  end; run.
  - destruct (fst (ask is_user_authorized _)) as [e|[|]] eqn:Hauth; run.
    + rewrite !ask_signed_in, set_client_signed_in, ask_signed_in, add_log_signed_in.
      reflexivity.
    + match goal with
      | |- context [fst (ask get_me ?s)] =>
          destruct (fst (ask get_me s)) as [e|me] eqn:Hme
      end; run.
      * rewrite !ask_signed_in, set_client_signed_in, ask_signed_in, add_log_signed_in.
        reflexivity.
      * split; [reflexivity|]. split.
        -- rewrite assigned_client, set_signed_in_client, add_log_client, !ask_client.
           reflexivity.
        -- rewrite ask_value in Hme. exists me. eexists.
           split; [exact Hme|]. split; [|reflexivity].
           unfold assigned, upd_session. cbn [snd world].
           rewrite add_log_run. cbn [snd world]. rewrite ask_world. reflexivity.
    + match goal with
      | |- context [if ?c then ask client_disconnect else _] => destruct c
      end; run.
      * destruct (fst (ask client_disconnect _)) as [e|]; run.
        -- rewrite ask_signed_in, add_log_signed_in, !ask_signed_in,
             set_client_signed_in, ask_signed_in, add_log_signed_in.
           reflexivity.
        -- split; reflexivity.
      * split; reflexivity.
  - match goal with
    | |- context [if ?c then ask client_disconnect else _] => destruct c
    end; run.
    + destruct (fst (ask client_disconnect _)) as [e|]; run.
      * rewrite ask_signed_in, add_log_signed_in, !ask_signed_in,
          set_client_signed_in, ask_signed_in, add_log_signed_in.
        reflexivity.
      * split; reflexivity.
    + split; reflexivity.
Qed.

(** The handlers leave an inactive session inactive. *)
Lemma connect_failed_run e (st : State W) :
  signed_in st = Some false ->
  signed_in (snd (connect_failed e st)) = Some false.
Proof.
  intros Hst. unfold connect_failed. run.
  assert (Hlog : signed_in (snd (add_log (connect_failed_log e) st)) = Some false)
    by (rewrite add_log_signed_in; exact Hst).
  revert Hlog. generalize (snd (add_log (connect_failed_log e) st)) as s1.
  intros s1 Hs1.
  assert (Hdrop : forall s2 : State W,
             signed_in s2 = Some false ->
             signed_in
               (snd ((connected <- look client_connected ;;
                      if connected : bool then ask client_disconnect else ret None) s2))
             = Some false).
  { intros s2 Hs2. run. destruct (client_connected s2); run;
      [rewrite ask_signed_in|]; exact Hs2. }
  destruct (telethon_kind e); run;
    match goal with
    | |- context [match fst ?x with _ => _ end] => destruct (fst x)
    | |- _ => idtac
    end; run; try reflexivity; try (apply Hdrop; exact Hs1); try exact Hs1.
Qed.

Lemma drop_previous_client_signed_in : preserves signed_in drop_previous_client.
Proof.
  intros st. unfold drop_previous_client. run.
  destruct (telethon_client st) as [[]|]; run; [|reflexivity].
  destruct (fst (ask client_disconnect _)); run;
    rewrite ?add_log_signed_in, ask_signed_in, add_log_signed_in; reflexivity.
Qed.

Lemma connect_failed_result e (st : State W) :
  fst (connect_failed e st) <> inr true.
Proof.
  unfold connect_failed. run.
  match goal with
  | |- context [match fst ?x with _ => _ end] => destruct (fst x)
  end; run; discriminate.
Qed.

(** The session is active after the coroutine exactly when it returned
    [True]. *)
Lemma _connect_session_async_run a h t i k n (st : State W) :
  int_of_str a = inr n ->
  let r := _connect_session_async a h t i k st in
  signed_in (snd r)
  = Some (match fst r with inr (true, _) => true | _ => false end)
  /\ match fst r with
     | inr (true, k') =>
         telethon_client (snd r) = Some Client
         /\ exists me w,
              fst (get_me w) = inr me
              /\ world (snd r) = snd (strftime (snd (get_me w)))
              /\ k' = with_user_info (Some (me_shown me)) k
     | inr (false, k') => k' = k
     | inl _ => True
     end.
Proof.
  intros Hint. cbv zeta. unfold _connect_session_async. rewrite Hint. run.
  set (s1 := snd (upd_session (assign_session_active false)
                    (snd (set_client None (snd (drop_previous_client st)))))).
  assert (Hs1 : signed_in s1 = Some false) by reflexivity.
  pose proof (try_connect_run n h t i k s1) as Htry. cbv zeta in Htry.
  destruct (fst (try_connect n h t i k s1)) as [e|[[|] k']]; run.
  - rewrite Hs1 in Htry.
    pose proof (connect_failed_run e _ Htry) as Hfail.
    pose proof (connect_failed_result e (snd (try_connect n h t i k s1))) as Hres.
    destruct (fst (connect_failed e _)) as [e'|[|]]; cbn [fst snd].
    + split; [exact Hfail|exact I].
    + contradiction Hres. reflexivity.
    + split; [exact Hfail|reflexivity].
  - destruct Htry as (Hactive & Hclient & Hme). split; [exact Hactive|].
    split; [exact Hclient|exact Hme].
  - destruct Htry as (Hactive & Hkeys). split; [exact Hactive|exact Hkeys].
Qed.

(** X22.  After [_connect_session_async] the session is marked active
    exactly when the coroutine returned [True], and inactive in every
    other case, an exception that leaves it included; on [True] the new
    client is in place and the name stored for the user is the one made
    of the account that [get_me] returned in this run: the call after
    which the coroutine only writes its log line, reading the clock once.
    The coroutine makes no request, touches no file and flashes
    nothing. *)
Theorem session_is_active_iff_connected (api_id_str api_hash_str chosen_session_type
    session_identifier : string) (k : PageKeys) (current_api_id : Z) (st : State W) :
  int_of_str api_id_str = inr current_api_id ->
  let r := _connect_session_async api_id_str api_hash_str chosen_session_type
             session_identifier k st in
  (session_active (session (snd r)) = Some true <-> exists k', fst r = inr (true, k'))
  /\ (session_active (session (snd r)) = Some true
      \/ session_active (session (snd r)) = Some false)
  /\ (forall k', fst r = inr (true, k') ->
        telethon_client (snd r) = Some Client
        /\ exists me w,
             fst (get_me w) = inr me
             /\ world (snd r) = snd (strftime (snd (get_me w)))
             /\ user_info k' = Some (me_shown me))
  /\ trace (snd r) = trace st
  /\ flashes (snd r) = flashes st.
Proof.
  intros Hint. cbv zeta.
  destruct (_connect_session_async_run api_id_str api_hash_str chosen_session_type
              session_identifier k current_api_id st Hint) as [Hactive Hcase].
  cbv zeta in Hactive, Hcase. unfold signed_in in Hactive.
  split; [|split; [|split; [|split]]].
  - rewrite Hactive. destruct (fst (_connect_session_async _ _ _ _ _ _)) as [e|[[|] k']].
    + split; [discriminate|intros [k'' H]; discriminate H].
    + split; [intros _; exists k'; reflexivity|reflexivity].
    + split; [discriminate|intros [k'' H]; discriminate H].
  - rewrite Hactive. destruct (fst (_connect_session_async _ _ _ _ _ _)) as [e|[[|] k']];
      [right|left|right]; reflexivity.
  - intros k' Hret. rewrite Hret in Hcase.
    destruct Hcase as (Hclient & me & w & Hme & Hworld & ->).
    split; [exact Hclient|].
    exists me, w. split; [exact Hme|]. split; [exact Hworld|reflexivity].
  - apply _connect_session_async_trace.
  - apply _connect_session_async_flashes.
Qed.

(** *** [login_page] *)

Lemma session_of_form_trace form : preserves trace (session_of_form form).
Proof. unfold session_of_form. quiet. Qed.

Lemma session_of_form_connection form : preserves connection (session_of_form form).
Proof. unfold session_of_form. quiet. Qed.

(** A refused form has flashed its reason. *)
Lemma session_of_form_refused form (st : State W) :
  fst (session_of_form form st) = None ->
  exists message,
    flashes (snd (session_of_form form st)) = (flashes st ++ [("danger", message)])%list.
Proof.
  unfold session_of_form.
  destruct (form_session_type form) as [session_type|]; run;
    [|intros _; eexists; reflexivity].
  destruct (String.eqb session_type "file").
  - destruct (given (form_session_name form)) as [session_name|]; run;
      [|intros _; eexists; reflexivity].
    destruct (_ || _); run; [discriminate|].
    intros _. eexists. rewrite add_log_flashes. reflexivity.
  - destruct (String.eqb session_type "string"); run; [|intros _; eexists; reflexivity].
    destruct (given (form_session_string form)); run; [discriminate|].
    intros _. eexists. reflexivity.
Qed.

(** What a POST to the login page leaves, by its answer: a redirect to
    the main page after a connection, a redirect to the login page with a
    [danger] message and the form values kept, or the nested-loop error. *)
Definition login_outcome (form : LoginForm) (answer : result response)
    (k' : PageKeys) (st' : State W) : Prop :=
  match answer with
  | Returned (Redirect endpoint) =>
      (endpoint = "main_app_page"
       /\ session_active (session st') = Some true
       /\ telethon_client st' = Some Client
       /\ (exists me w,
             fst (get_me w) = inr me
             /\ world st' = snd (strftime (snd (get_me w)))
             /\ user_info k' = Some (me_shown me)
             /\ last (flashes st') ("", "")
                = ("success", "Connected as " ++ me_shown me))
       /\ api_id_form k' = None
       /\ api_hash_form k' = None
       /\ session_name_form k' = None)
      \/ (endpoint = "login_page"
          /\ (exists message, last (flashes st') ("", "") = ("danger", message))
          /\ api_id_form k' = Some (form_api_id form)
          /\ api_hash_form k' = Some (form_api_hash form))
  | Returned (RedirectTo _) => False
  | Raised e => nested_loop e = true
  end.

Lemma run_async_task_run {A} (coroutine : M W (failure + A)) (st : State W) :
  let s1 := snd (ask event_loop st) in
  run_async_task coroutine st
  = match fst (event_loop (world st)) with
    | Some e => async_failed e s1
    | None =>
        match fst (coroutine s1) with
        | inl e => async_failed e (snd (coroutine s1))
        | inr a => (Returned (Some a), snd (coroutine s1))
        end
    end.
Proof.
  cbv zeta. unfold run_async_task. rewrite bind_run, ask_value.
  destruct (fst (event_loop (world st))); [reflexivity|].
  rewrite bind_run. destruct (fst (coroutine _)); reflexivity.
Qed.

Lemma login_refused form message k (st : State W) :
  api_id_form k = Some (form_api_id form) ->
  api_hash_form k = Some (form_api_hash form) ->
  last (flashes st) ("", "") = ("danger", message) ->
  login_outcome form (Returned (Redirect "login_page")) k st.
Proof.
  intros Hid Hhash Hflash. right. split; [reflexivity|].
  split; [exists message; exact Hflash|]. split; assumption.
Qed.

Lemma login_done_failed form (e : failure) k (st : State W) :
  api_id_form k = Some (form_api_id form) ->
  api_hash_form k = Some (form_api_hash form) ->
  let r := login_done (fst (@async_failed W ext (bool * PageKeys) e st)) k
             (snd (@async_failed W ext (bool * PageKeys) e st)) in
  login_outcome form (fst (fst r)) (snd (fst r)) (snd r).
Proof.
  intros Hid Hhash. cbv zeta. rewrite async_failed_result.
  destruct (nested_loop e) eqn:Hnested; unfold login_done; run; [exact Hnested|].
  apply login_refused with (message := "Connection failed. Check logs for details.");
    try assumption.
  rewrite flash_flashes. apply last_last.
Qed.

Lemma login_post_run form k (st : State W) :
  let r := login_post form k st in
  login_outcome form (fst (fst r)) (snd (fst r)) (snd r).
Proof.
  cbv zeta. unfold login_post. run.
  set (s0 := snd (assigned (snd (assigned (snd (assigned (snd (assigned st)))))))).
  set (k0 := mkKeys (user_info k) (download_progress k) (Some (form_api_id form))
               (Some (form_api_hash form)) (Some (form_session_type form))
               (Some (form_session_name form))).
  assert (Hstop : forall message (s : State W),
             let r := (flash message "danger" ;;
                       ret (Returned (Redirect "login_page"), k0)) s in
             login_outcome form (fst (fst r)) (snd (fst r)) (snd r)).
  { intros message s. cbv zeta. run.
    apply login_refused with (message := message); try reflexivity.
    rewrite flash_flashes. apply last_last. }
  cbv zeta in Hstop.
  destruct (given (form_api_id form)) as [api_id|]; [|apply Hstop].
  destruct (given (form_api_hash form)) as [api_hash|]; [|apply Hstop].
  destruct (int_of_str api_id) as [e|n] eqn:Hint; [apply Hstop|].
  run.
  pose proof (session_of_form_refused form s0) as Hrefused.
  destruct (fst (session_of_form form s0)) as [[session_type session_identifier]|]; run.
  2:{ destruct (Hrefused eq_refl) as [message Hm].
      apply login_refused with (message := message); try reflexivity.
      rewrite Hm. apply last_last. }
  clear Hrefused.
  generalize (snd (session_of_form form s0)) as s1. intros s1.
  rewrite run_async_task_run. cbv zeta.
  destruct (fst (event_loop (world s1))) as [e|].
  { apply login_done_failed; reflexivity. }
  pose proof (_connect_session_async_run api_id api_hash session_type session_identifier
                k0 n (snd (ask event_loop s1)) Hint) as Hrun.
  cbv zeta in Hrun.
  destruct (fst (_connect_session_async api_id api_hash session_type session_identifier
                   k0 (snd (ask event_loop s1)))) as [e|[[|] k1]].
  { apply login_done_failed; reflexivity. }
  - destruct Hrun as (Hactive & Hclient & me & w & Hme & Hworld & ->). cbn [fst snd].
    unfold login_done. run. left. split; [reflexivity|].
    split; [|split; [|split; [|repeat split]]].
    + rewrite !popped_active. exact Hactive.
    + rewrite !popped_client, flash_client. exact Hclient.
    + exists me, w. split; [exact Hme|]. split; [|split; [reflexivity|]].
      * rewrite !popped_world, flash_world. exact Hworld.
      * rewrite !popped_flashes, flash_flashes. apply last_last.
  - destruct Hrun as (_ & ->). cbn [fst snd]. unfold login_done. run.
    apply login_refused with (message := "Connection failed. Check logs for details.");
      try reflexivity.
    rewrite flash_flashes. apply last_last.
Qed.

Lemma login_post_trace form k : preserves trace (login_post form k).
Proof.
  unfold login_post.
  do 4 (apply preserves_bind; [apply assigned_trace|intros _]). cbv zeta.
  destruct (given (form_api_id form)); [|quiet].
  destruct (given (form_api_hash form)); [|quiet].
  destruct (int_of_str _); [quiet|].
  apply preserves_bind; [apply session_of_form_trace|intros [[t i]|]]; [|quiet].
  apply preserves_bind.
  - apply run_async_task_keeps; [intros; apply ask_trace|apply add_log_trace|].
    apply _connect_session_async_trace.
  - intros done. unfold login_done. quiet.
Qed.

(** X23.  A POST to the login page makes no request and touches no
    file, and it answers in one of three ways.  It redirects to the main
    page, and then the session is active, the client is in place, the
    name of the account that [get_me] returned in this run (the call
    after which only one log line is written) is stored and flashed with
    [success], and the remembered form values are gone.  Or it redirects
    to the login page, and then the last flashed message is a [danger]
    one and the form values are kept for the next attempt.  Or it raises
    the nested-loop error of the event loop.  It never renders the
    form. *)
Theorem login_connects_or_reports (form : LoginForm) (k : PageKeys) (st : State W) :
  let r := login_page (Some form) k st in
  let k' := snd (fst r) in
  trace (snd r) = trace st
  /\ match fst (fst r) with
     | Returned (Goes (Redirect endpoint)) =>
         (endpoint = "main_app_page"
          /\ session_active (session (snd r)) = Some true
          /\ telethon_client (snd r) = Some Client
          /\ (exists me w,
                fst (get_me w) = inr me
                /\ world (snd r) = snd (strftime (snd (get_me w)))
                /\ user_info k' = Some (me_shown me)
                /\ last (flashes (snd r)) ("", "")
                   = ("success", "Connected as " ++ me_shown me))
          /\ api_id_form k' = None
          /\ api_hash_form k' = None
          /\ session_name_form k' = None)
         \/ (endpoint = "login_page"
             /\ (exists message, last (flashes (snd r)) ("", "") = ("danger", message))
             /\ api_id_form k' = Some (form_api_id form)
             /\ api_hash_form k' = Some (form_api_hash form))
     | Returned (Goes (RedirectTo _)) => False
     | Returned (Renders _) => False
     | Raised e => nested_loop e = true
     end.
Proof.
  cbv zeta. unfold login_page. run. split; [apply login_post_trace|].
  pose proof (login_post_run form k st) as Hrun. cbv zeta in Hrun.
  unfold login_outcome in Hrun.
  destruct (fst (fst (login_post form k st))) as [[endpoint|url]|e]; exact Hrun.
Qed.

Lemma keeps_try_connect n h t i k : keeps_log_bounded (try_connect n h t i k).
Proof. unfold try_connect. keeps. Qed.

Lemma keeps_connect_failed e : keeps_log_bounded (connect_failed e).
Proof. unfold connect_failed. keeps. Qed.

Lemma keeps_drop_previous_client : keeps_log_bounded drop_previous_client.
Proof. unfold drop_previous_client. keeps. Qed.

Hint Resolve keeps_try_connect keeps_connect_failed keeps_drop_previous_client : logs.

Lemma keeps_connect a h t i k : keeps_log_bounded (_connect_session_async a h t i k).
Proof. unfold _connect_session_async. keeps. Qed.

Lemma keeps_session_of_form form : keeps_log_bounded (session_of_form form).
Proof. unfold session_of_form. keeps. Qed.

Lemma keeps_login_done done k : keeps_log_bounded (login_done done k).
Proof. unfold login_done. keeps. Qed.

Hint Resolve keeps_connect keeps_session_of_form keeps_login_done : logs.

Lemma keeps_login_post form k : keeps_log_bounded (login_post form k).
Proof.
  unfold login_post. do 4 (apply keeps_bind; [keeps|intros _]). cbv zeta.
  destruct (given (form_api_id form)); [|keeps].
  destruct (given (form_api_hash form)); [|keeps].
  destruct (int_of_str _); [keeps|].
  apply keeps_bind; [keeps|intros [[t i]|]]; [|keeps].
  apply keeps_bind; [|intros ?; keeps].
  apply keeps_run_async_task, keeps_connect.
Qed.

Hint Resolve keeps_login_post : logs.

(** X20.  Every route keeps the log within 100 entries. *)
Theorem routes_keep_the_log_bounded (k : PageKeys)
    (file_to_upload caption download_link referrer : option string)
    (csv_file : option FileStorage) (post : option LoginForm) (st : State W) :
  log_bounded st ->
  log_bounded (snd (login_page post k st))
  /\ log_bounded (snd (main_app_page k st))
  /\ log_bounded (snd (disconnect k st))
  /\ log_bounded (snd (download_from_link_route download_link k st))
  /\ log_bounded (snd (upload_file_route file_to_upload caption st))
  /\ log_bounded (snd (process_csv_route csv_file st))
  /\ log_bounded (snd (clear_logs_route referrer st)).
Proof.
  intros Hst. repeat split; revert st Hst.
  - change (keeps_log_bounded (login_page post k)).
    unfold login_page. keeps.
  - change (keeps_log_bounded (main_app_page k)).
    unfold main_app_page. keeps.
  - change (keeps_log_bounded (disconnect k)).
    unfold disconnect. apply keeps_bind; [|intros ?; keeps].
    apply keeps_run_async_task, keeps_returns, keeps_disconnect_session.
  - change (keeps_log_bounded (download_from_link_route download_link k)).
    unfold download_from_link_route. keeps.
  - change (keeps_log_bounded (upload_file_route file_to_upload caption)).
    unfold upload_file_route.
    apply keeps_bind; [keeps|intros is_active]. destruct (negb is_active); [keeps|].
    destruct (given file_to_upload); [|keeps].
    apply keeps_bind; [keeps|intros found]. destruct (negb found); [keeps|].
    apply keeps_bind; [|intros ?; keeps].
    apply keeps_run_async_task, keeps_returns, keeps_upload.
  - change (keeps_log_bounded (process_csv_route csv_file)).
    unfold process_csv_route. keeps.
  - change (keeps_log_bounded (clear_logs_route referrer)).
    unfold clear_logs_route. keeps.
Qed.

End RouteFacts.

(** ** Concrete requests *)

(** A server for the examples: the event loop fares as [loop] says, the
    files of [files] exist, the [content-length] header reads as [size],
    [int()] knows the number 12345, and Telegram accepts every client and
    names the user [me]. *)
Definition example_server (loop : option failure) (files : list string)
    (size : exn + Z) (me : Me) : Server Z := {|
  event_loop := fun w => (loop, w);
  path_exists := fun path _ => existsb (String.eqb path) files;
  isfile := fun path _ => existsb (String.eqb path) files;
  listdir := fun _ _ => inr (map Py.basename files);
  getcwd := fun _ => "/srv/app";
  content_length := fun _ _ => size;
  int_of_str := fun s =>
    if String.eqb s "12345" then inr 12345%Z
    else inl (mkFailure false "ValueError"
                ("invalid literal for int() with base 10: '" ++ s ++ "'"));
  new_client := fun _ _ _ _ w => (None, w);
  client_connect := fun w => (None, w);
  client_disconnect := fun w => (None, w);
  is_user_authorized := fun w => (inr true, w);
  get_me := fun w => (inr me, w)
|}.

Definition no_keys : PageKeys := mkKeys None None None None None None.

Definition ada : Me := mkMe "Ada" (Some "ada").

Definition no_current_loop : failure :=
  mkFailure true "RuntimeError" "There is no current event loop in thread 'Thread-1'.".

Definition plain_world : Externals Z :=
  example_world [] (inl no_columns) example_web true sent_ok.

Definition plain_server : Server Z :=
  example_server None
    ["downloads_colab_ui_async/a.txt"; "/etc/passwd"; "my_account.session"]
    (inr 2%Z) ada.

(** A login with the session file [my_account.session], then the upload
    of a file of the folder. *)
Lemma login_then_upload :
  let form := mkLogin (Some "12345") (Some "hash") (Some "file") (Some "my_account")
                None in
  let logged := login_page (ext := plain_world) (srv := plain_server) (Some form)
                  no_keys offline in
  let sent := upload_file_route (ext := plain_world) (srv := plain_server)
                (Some "a.txt") (Some "hello") (snd logged) in
  fst (fst logged) = Returned (Goes (Redirect "main_app_page"))
  /\ user_info (snd (fst logged)) = Some "Ada (@ada)"
  /\ flashes (snd logged) = [("success", "Connected as Ada (@ada)")]
  /\ fst sent = Returned (Redirect "main_app_page")
  /\ published (trace (snd sent)) = [("downloads_colab_ui_async/a.txt", "hello")].
Proof. vm_compute. repeat split. Qed.

Lemma absolute_name_leaves_the_folder_witness :
  let r := upload_file_route (ext := plain_world) (srv := plain_server)
             (Some "/etc/passwd") None online in
  fst r = Returned (Redirect "main_app_page")
  /\ published (trace (snd r)) = [("/etc/passwd", "")].
Proof.
  cbv zeta.
  apply (absolute_name_leaves_the_folder (ext := plain_world) (srv := plain_server)
           "/etc/passwd" None online); reflexivity.
Defined.

Lemma loop_failure_is_only_logged_witness :
  let srv := example_server (Some no_current_loop)
               ["downloads_colab_ui_async/a.txt"] (inr 2%Z) ada in
  let r := upload_file_route (ext := plain_world) (srv := srv) (Some "a.txt")
             (Some "hello") online in
  fst r = Returned (Redirect "main_app_page")
  /\ flashes (snd r) = []
  /\ trace (snd r) = []
  /\ upload_progress (session (snd r)) = None.
Proof.
  cbv zeta.
  destruct (loop_failure_is_only_logged (ext := plain_world)
              (srv := example_server (Some no_current_loop)
                        ["downloads_colab_ui_async/a.txt"] (inr 2%Z) ada)
              (Some "a.txt") (Some "hello") "a.txt" no_current_loop online)
    as (Hanswer & Hflash & Htrace & Hprogress & _); try reflexivity.
  split; [exact Hanswer|]. split; [exact Hflash|]. split; [exact Htrace|exact Hprogress].
Defined.

Lemma no_upload_after_disconnect_witness :
  let st' := snd (disconnect (ext := plain_world) (srv := plain_server) no_keys online) in
  let r := upload_file_route (ext := plain_world) (srv := plain_server)
             (Some "a.txt") None st' in
  fst r = Returned (Redirect "main_app_page")
  /\ last (flashes (snd r)) ("", "")
     = ("danger", "Not connected to Telegram. Cannot upload.")
  /\ published (trace (snd r)) = []
  /\ published (trace (snd (_run_csv_process_async (ext := plain_world)
                              (csv_bytes three_rows_lines) st'))) = [].
Proof.
  cbv zeta.
  apply (no_upload_after_disconnect (ext := plain_world) (srv := plain_server)
           no_keys online (Redirect "login_page") (Some "a.txt") None
           (csv_bytes three_rows_lines)).
  reflexivity.
Defined.

Lemma link_download_stores_the_body_witness :
  let r := download_from_link_route (ext := plain_world) (srv := plain_server)
             (Some "http://host/a.txt?x=1") no_keys online in
  trace (snd r)
  = [HttpGet "http://host/a.txt?x=1"; FileOpen "downloads_colab_ui_async/a.txt";
     FileWrite "downloads_colab_ui_async/a.txt" [Byte.x68; Byte.x69]]
  /\ download_progress (snd (fst r)) = Some 100.
Proof.
  cbv zeta.
  apply (link_download_stores_the_body (ext := plain_world) (srv := plain_server)
           "http://host/a.txt?x=1" no_keys 200 "OK" "http://host/a.txt?x=1"
           [[Byte.x68; Byte.x69]] None 2 online).
  - discriminate.
  - intros p w. reflexivity.
  - intros p c w. reflexivity.
  - intros w. reflexivity.
  - intros w. reflexivity.
  - lia.
Defined.

Lemma routes_keep_the_log_bounded_witness :
  log_bounded (snd (process_csv_route (ext := plain_world) (srv := plain_server)
                      (Some (mkFile (Some "Manifest.CSV") (inr (csv_bytes []))))
                      online))
  /\ log_bounded (snd (clear_logs_route None online)).
Proof.
  destruct (routes_keep_the_log_bounded (ext := plain_world) (srv := plain_server)
              no_keys None None None None
              (Some (mkFile (Some "Manifest.CSV") (inr (csv_bytes [])))) None online)
    as (_ & _ & _ & _ & _ & Hcsv & Hclear).
  - unfold log_bounded. cbn. lia.
  - split; [exact Hcsv|exact Hclear].
Defined.

Lemma session_is_active_iff_connected_witness :
  let r := _connect_session_async (ext := plain_world) (srv := plain_server)
             "12345" "hash" "file" "my_account" no_keys offline in
  session_active (session (snd r)) = Some true
  /\ telethon_client (snd r) = Some Client
  /\ user_info (snd (match fst r with inr done => done | inl _ => (false, no_keys) end))
     = Some "Ada (@ada)"
  /\ trace (snd r) = []
  /\ flashes (snd r) = [].
Proof.
  cbv zeta.
  destruct (session_is_active_iff_connected (ext := plain_world) (srv := plain_server)
              "12345" "hash" "file" "my_account" no_keys 12345 offline)
    as (Hiff & _ & Hclient & Htrace & Hflash).
  - reflexivity.
  - split; [apply Hiff; eexists; reflexivity|].
    split; [eapply Hclient; reflexivity|].
    split; [reflexivity|]. split; [exact Htrace|exact Hflash].
Defined.

Lemma login_connects_or_reports_witness :
  let form := mkLogin (Some "12345") (Some "hash") (Some "file") (Some "my_account")
                None in
  let r := login_page (ext := plain_world) (srv := plain_server) (Some form)
             no_keys offline in
  fst (fst r) = Returned (Goes (Redirect "main_app_page"))
  /\ trace (snd r) = []
  /\ exists me w,
       fst (get_me (Server := plain_server) w) = inr me
       /\ world (snd r)
          = snd (strftime (Externals := plain_world)
                 (snd (get_me (Server := plain_server) w)))
       /\ user_info (snd (fst r)) = Some (me_shown me)
       /\ last (flashes (snd r)) ("", "") = ("success", "Connected as " ++ me_shown me).
Proof.
  cbv zeta.
  destruct (login_connects_or_reports (ext := plain_world) (srv := plain_server)
              (mkLogin (Some "12345") (Some "hash") (Some "file") (Some "my_account")
                 None)
              no_keys offline) as [Htrace Hcase].
  cbv zeta in Hcase.
  assert (Hanswer : fst (fst (login_page (ext := plain_world) (srv := plain_server)
                               (Some (mkLogin (Some "12345") (Some "hash") (Some "file")
                                        (Some "my_account") None))
                               no_keys offline))
                    = Returned (Goes (Redirect "main_app_page")))
    by (vm_compute; reflexivity).
  rewrite Hanswer in Hcase.
  destruct Hcase as [(_ & _ & _ & Hme & _)|(Hendpoint & _)]; [|discriminate Hendpoint].
  split; [exact Hanswer|]. split; [exact Htrace|exact Hme].
Defined.

(** The route on the manifest whose rows end with a separator: the run
    it starts assigns 0, then -1, and requests nothing. *)
Lemma csv_route_effects_witness :
  let ext := example_world trailing_separator_lines (inr trailing_separator)
               example_web true sent_ok in
  let file := mkFile (Some "manifest.csv") (inr (csv_bytes trailing_separator_lines)) in
  let r := process_csv_route (ext := ext) (srv := plain_server) (Some file) online in
  fst r = Redirect "main_app_page"
  /\ progress_writes (trace (snd r)) = [NInt 0; NInt (-1)]
  /\ fetched (trace (snd r)) = [].
Proof.
  cbv zeta.
  destruct (csv_route_effects
              (ext := example_world trailing_separator_lines (inr trailing_separator)
                        example_web true sent_ok)
              (srv := plain_server)
              (Some (mkFile (Some "manifest.csv")
                       (inr (csv_bytes trailing_separator_lines))))
              online) as (Hanswer & Hprogress & Hfetched).
  split; [exact Hanswer|]. split; [exact Hprogress|exact Hfetched].
Defined.
